(** * BharatX price comparison: deduplication and MCDM ranking

    A shallow embedding of [mcdm_ranker.py] (class [MCDMRanker]) and of
    the aggregation core of [enhanced_scraping_tool.py]
    ([search_products], [_remove_duplicates]), with the properties the
    specification states about them.

    Conventions.
    - A Python [str] is a [string]; only code points below 128 are
      interpreted (case folding, [\w], [\d], [\s]); other characters are
      opaque symbols.
    - A Python [float] is an exact rational ([Q]); comparisons are the
      rational ones and equalities between scores are stated with [==].
    - The two entry points of the third-party [fuzzywuzzy] package that
      the program calls ([fuzz.ratio], [fuzz.token_sort_ratio]) are
      parameters of the development.  The module [Fuzz] gives a reference
      implementation of them that is used to run the program on concrete
      inputs. *)

From Stdlib Require Import QArith Qminmax Qabs Qround Lqa.
From Stdlib Require Import ZArith Lia Bool Arith.
From Stdlib Require Import String Ascii List.
From Stdlib Require Import Sorted Permutation.
Import ListNotations.

Open Scope Q_scope.
Open Scope string_scope.

(* ================================================================== *)
(** * Python strings                                                   *)
(* ================================================================== *)

Module PyStr.

Definition code (c : ascii) : nat := nat_of_ascii c.

Definition is_upper (c : ascii) : bool := (65 <=? code c)%nat && (code c <=? 90)%nat.
Definition is_lower (c : ascii) : bool := (97 <=? code c)%nat && (code c <=? 122)%nat.

(** [\d] *)
Definition is_digit (c : ascii) : bool := (48 <=? code c)%nat && (code c <=? 57)%nat.

(** [\w] *)
Definition is_word (c : ascii) : bool :=
  is_upper c || is_lower c || is_digit c || (code c =? 95)%nat.

(** [\s], and the separators of [str.split()] *)
Definition is_space (c : ascii) : bool :=
  ((9 <=? code c)%nat && (code c <=? 13)%nat)
  || ((28 <=? code c)%nat && (code c <=? 32)%nat).

Definition lower_char (c : ascii) : ascii :=
  if is_upper c then ascii_of_nat (code c + 32) else c.

Definition upper_char (c : ascii) : ascii :=
  if is_lower c then ascii_of_nat (code c - 32) else c.

(** [s.lower()], on a string of ASCII characters *)
Fixpoint lower (s : string) : string :=
  match s with
  | EmptyString => EmptyString
  | String c s' => String (lower_char c) (lower s')
  end.

(** [s.upper()], on a string of ASCII characters *)
Fixpoint upper (s : string) : string :=
  match s with
  | EmptyString => EmptyString
  | String c s' => String (upper_char c) (upper s')
  end.

(** [needle in s] *)
Fixpoint contains (needle s : string) : bool :=
  String.prefix needle s
  || match s with
     | EmptyString => false
     | String _ s' => contains needle s'
     end.

(** [x in xs] for a list of strings *)
Definition mem (x : string) (xs : list string) : bool :=
  existsb (String.eqb x) xs.

(** [s.split()]: maximal runs of non-whitespace characters.
    [cur] is the run being read, in reverse. *)
Fixpoint split_aux (cur : list ascii) (s : list ascii) : list string :=
  let flush := match cur with
               | [] => []
               | _ => [string_of_list_ascii (rev cur)]
               end in
  match s with
  | [] => flush
  | c :: s' =>
      if is_space c then (flush ++ split_aux [] s')%list
      else split_aux (c :: cur) s'
  end.

Definition split (s : string) : list string :=
  split_aux [] (list_ascii_of_string s).

(** [" ".join(xs)] *)
Fixpoint join (xs : list string) : string :=
  match xs with
  | [] => ""
  | [x] => x
  | x :: rest => x ++ " " ++ join rest
  end.

End PyStr.

(* ================================================================== *)
(** * The fragment of [re] used by the ranker                          *)
(* ================================================================== *)

Module Re.
Import PyStr.

Inductive atom : Type :=
| WordBoundary                (* \b  *)
| Digits                      (* \d+ *)
| Spaces                      (* \s* *)
| WordChars                   (* \w+ *)
| Lit (s : string).           (* literal text *)

Definition pattern := list atom.

Definition opt_is_word (c : option ascii) : bool :=
  match c with Some c => is_word c | None => false end.

(** [\b]: exactly one of the two neighbours is a word character. *)
Definition at_boundary (prev : option ascii) (s : list ascii) : bool :=
  xorb (opt_is_word prev) (opt_is_word (hd_error s)).

Fixpoint run_length (p : ascii -> bool) (s : list ascii) : nat :=
  match s with
  | c :: s' => if p c then S (run_length p s') else 0
  | [] => 0
  end.

Fixpoint strip_prefix (l s : list ascii) : option (list ascii) :=
  match l, s with
  | [], _ => Some s
  | a :: l', b :: s' => if Ascii.eqb a b then strip_prefix l' s' else None
  | _ :: _, [] => None
  end.

Definition last_char (prev : option ascii) (taken : list ascii) : option ascii :=
  match rev taken with
  | c :: _ => Some c
  | [] => prev
  end.

(** A greedy quantifier: take [k] characters, then [k-1], ... down to
    [lo], until the continuation [cont] matches. *)
Fixpoint greedy (k lo : nat)
         (cont : option ascii -> list ascii -> option (list ascii))
         (prev : option ascii) (s : list ascii) : option (list ascii) :=
  let attempt :=
    if (lo <=? k)%nat then
      match cont (last_char prev (firstn k s)) (skipn k s) with
      | Some m => Some (firstn k s ++ m)%list
      | None => None
      end
    else None in
  match attempt with
  | Some r => Some r
  | None => match k with
            | O => None
            | S k' => greedy k' lo cont prev s
            end
  end.

(** The text matched by [pat] at the start of [s], if any; [prev] is
    the character before [s] in the subject. *)
Fixpoint match_here (pat : pattern) (prev : option ascii) (s : list ascii)
  : option (list ascii) :=
  match pat with
  | [] => Some []
  | WordBoundary :: pat' =>
      if at_boundary prev s then match_here pat' prev s else None
  | Digits :: pat' =>
      greedy (run_length is_digit s) 1 (match_here pat') prev s
  | Spaces :: pat' =>
      greedy (run_length is_space s) 0 (match_here pat') prev s
  | WordChars :: pat' =>
      greedy (run_length is_word s) 1 (match_here pat') prev s
  | Lit l :: pat' =>
      let l := list_ascii_of_string l in
      match strip_prefix l s with
      | Some rest =>
          match match_here pat' (last_char prev l) rest with
          | Some m => Some (l ++ m)%list
          | None => None
          end
      | None => None
      end
  end.

(** [re.findall(pat, s)] for patterns that match no empty text: scan
    left to right, and after a match resume behind it.  [skip] counts
    the characters of the last match still to be passed over. *)
Fixpoint findall_aux (pat : pattern) (prev : option ascii) (s : list ascii)
         (skip : nat) : list string :=
  match s with
  | [] => []
  | c :: s' =>
      match skip with
      | S k => findall_aux pat (Some c) s' k
      | O =>
          match match_here pat prev s with
          | Some ((_ :: _) as m) =>
              string_of_list_ascii m
                :: findall_aux pat (Some c) s' (length m - 1)
          | _ => findall_aux pat (Some c) s' 0
          end
      end
  end.

Definition findall (pat : pattern) (s : string) : list string :=
  findall_aux pat None (list_ascii_of_string s) 0.

End Re.

(* ================================================================== *)
(** * Reference implementation of the [fuzzywuzzy] entry points        *)
(* ================================================================== *)

(** [fuzz.ratio] and [fuzz.token_sort_ratio] as the package computes them
    with its pure-Python backend, [difflib.SequenceMatcher] without junk
    (the automatic junk heuristic only concerns second arguments of 200
    characters or more and is left out). *)
Module Fuzz.
Import PyStr.

Fixpoint common_prefix_len (a b : list ascii) : nat :=
  match a, b with
  | x :: a', y :: b' => if Ascii.eqb x y then S (common_prefix_len a' b') else 0
  | _, _ => 0
  end.

(** A candidate block [(i, j, k)]: [a[i:i+k] == b[j:j+k]]. *)
Definition block := (nat * nat * nat)%type.

Definition block_size (bl : block) : nat := snd bl.

(** A block lies inside strings of lengths [na] and [nb]. *)
Definition inside (na nb : nat) (bl : block) : Prop :=
  (fst (fst bl) + snd bl <= na)%nat /\ (snd (fst bl) + snd bl <= nb)%nat.

Fixpoint scan_b (x b : list ascii) (i j : nat) (best : block) : block :=
  match b with
  | [] => best
  | _ :: b' =>
      let k := common_prefix_len x b in
      scan_b x b' i (S j) (if (block_size best <? k)%nat then (i, j, k) else best)
  end.

Fixpoint scan_a (a b : list ascii) (i : nat) (best : block) : block :=
  match a with
  | [] => best
  | _ :: a' => scan_a a' b (S i) (scan_b a b i 0 best)
  end.

(** [SequenceMatcher.find_longest_match]: the longest common block,
    and among those the one that starts earliest in [a], then in [b]. *)
Definition find_longest_match (a b : list ascii) : block :=
  scan_a a b 0%nat (0, 0, 0)%nat.

(** Total size of [SequenceMatcher.get_matching_blocks]: the longest
    block, then recursively the pieces to its left and to its right. *)
Fixpoint matching_size (fuel : nat) (a b : list ascii) : nat :=
  match fuel with
  | O => 0
  | S fuel' =>
      let '(i, j, k) := find_longest_match a b in
      if (k =? 0)%nat then 0%nat
      else (k + matching_size fuel' (firstn i a) (firstn j b)
              + matching_size fuel' (skipn (i + k) a) (skipn (j + k) b))%nat
  end.

(** [SequenceMatcher(None, a, b).ratio()] *)
Definition matcher_ratio (a b : list ascii) : Q :=
  let total := (length a + length b)%nat in
  if (total =? 0)%nat then 1
  else 2 * inject_Z (Z.of_nat (matching_size (length a) a b))
       / inject_Z (Z.of_nat total).

(** [int(round(x))], rounding halves to the even neighbour. *)
Definition intr (x : Q) : Z :=
  let f := Qfloor x in
  let d := x - inject_Z f in
  if Qeq_bool d (1 # 2) then (if Z.even f then f else f + 1)%Z
  else if Qle_bool d (1 # 2) then f else (f + 1)%Z.

(** [fuzz.ratio] *)
Definition ratio (s1 s2 : string) : Z :=
  if String.eqb s1 s2 then 100%Z
  else if ((String.length s1 =? 0) || (String.length s2 =? 0))%nat then 0%Z
  else intr (100 * matcher_ratio (list_ascii_of_string s1) (list_ascii_of_string s2)).

Definition is_ascii (c : ascii) : bool := (code c <? 128)%nat.

Fixpoint filter_chars (p : ascii -> bool) (s : string) : string :=
  match s with
  | EmptyString => EmptyString
  | String c s' => if p c then String c (filter_chars p s') else filter_chars p s'
  end.

Fixpoint map_chars (f : ascii -> ascii) (s : string) : string :=
  match s with
  | EmptyString => EmptyString
  | String c s' => String (f c) (map_chars f s')
  end.

Fixpoint lstrip (s : string) : string :=
  match s with
  | String c s' => if is_space c then lstrip s' else s
  | EmptyString => EmptyString
  end.

Definition rev_string (s : string) : string :=
  string_of_list_ascii (rev (list_ascii_of_string s)).

(** [s.strip()] *)
Definition strip (s : string) : string :=
  rev_string (lstrip (rev_string (lstrip s))).

(** [utils.full_process(s, force_ascii=True)] *)
Definition full_process (s : string) : string :=
  strip (lower (map_chars (fun c => if is_word c then c else " "%char)
                          (filter_chars is_ascii s))).

Fixpoint insert_token (t : string) (ts : list string) : list string :=
  match ts with
  | [] => [t]
  | u :: ts' => if String.leb t u then t :: ts else u :: insert_token t ts'
  end.

(** [sorted(tokens)] *)
Definition sorted (ts : list string) : list string :=
  fold_right insert_token [] ts.

Definition process_and_sort (s : string) : string :=
  strip (join (sorted (split (full_process s)))).

(** [fuzz.token_sort_ratio] *)
Definition token_sort_ratio (s1 s2 : string) : Z :=
  ratio (process_and_sort s1) (process_and_sort s2).

End Fuzz.

(* ================================================================== *)
(** * Data model                                                       *)
(* ================================================================== *)

(** The [Product] dataclass of [enhanced_scraping_tool.py]. *)
Record Product : Type := mkProduct {
  link : string;
  price : Q;
  currency : string;
  product_name : string;
  source : string
}.

(** The dictionaries the ranker works on.  ["productName"] and ["price"]
    are read with [d[...]] and are always there; the other keys are read
    with [d.get] or only copied, and may be missing. *)
Record ProductDict : Type := mkDict {
  dict_link : option string;
  dict_price : Q;
  dict_currency : option string;
  dict_productName : string;
  dict_source : option string;
  dict_mcdm_score : option Q;
  dict_relevance_score : option Q
}.

(** [Product.to_dict] *)
Definition to_dict (p : Product) : ProductDict :=
  {| dict_link := Some (link p);
     dict_price := price p;
     dict_currency := Some (currency p);
     dict_productName := product_name p;
     dict_source := Some (source p);
     dict_mcdm_score := None;
     dict_relevance_score := None |}.

(** [d.get(key, default)] on a table with string keys *)
Fixpoint dict_get {V : Type} (table : list (string * V)) (key : string) (default : V) : V :=
  match table with
  | [] => default
  | (k, v) :: rest => if String.eqb k key then v else dict_get rest key default
  end.

(** [d.get(key, default)] on one optional key of a [ProductDict] *)
Definition get_or {V : Type} (field : option V) (default : V) : V :=
  match field with
  | Some v => v
  | None => default
  end.

(** One row of [criteria_matrix]. *)
Record Criteria : Type := mkCriteria {
  c_relevance : Q;
  c_price_raw : Q;
  c_source_reliability : Q;
  c_has_exact_match : bool;
  c_is_accessory : bool
}.

Definition set_relevance (c : Criteria) (r : Q) : Criteria :=
  {| c_relevance := r;
     c_price_raw := c_price_raw c;
     c_source_reliability := c_source_reliability c;
     c_has_exact_match := c_has_exact_match c;
     c_is_accessory := c_is_accessory c |}.

(* ================================================================== *)
(** * [MCDMRanker]                                                     *)
(* ================================================================== *)

Module MCDMRanker.
Import PyStr Re.

(** [self.weights] *)
Definition weights : list (string * Q) :=
  [ ("relevance", 0.75); ("price", 0.20); ("source_reliability", 0.05) ].

Definition weight (key : string) : Q := dict_get weights key 0.

(** [self.source_reliability] *)
Definition source_reliability : list (string * Q) :=
  [ ("Amazon.in", 0.95); ("Flipkart", 0.90); ("Walmart", 0.95);
    ("eBay.com", 0.85); ("eBay.in", 0.85); ("Snapdeal", 0.80);
    ("Shopsy", 0.75) ].

(** [any(keyword in s for keyword in keywords)] *)
Definition any_keyword_in (keywords : list string) (s : string) : bool :=
  existsb (fun keyword => contains keyword s) keywords.

Definition stop_words : list string :=
  [ "the"; "a"; "an"; "and"; "or"; "but"; "in"; "on"; "at"; "to"; "for";
    "of"; "with"; "by" ].

Definition _extract_key_terms (query : string) : list string :=
  let terms := findall [WordChars] (lower query) in
  filter (fun term => (2 <? String.length term)%nat && negb (mem term stop_words)) terms.

Definition categories : list (string * list string) :=
  [ ("phone", ["iphone"; "phone"; "mobile"; "smartphone"; "galaxy"; "pixel"; "oneplus"]);
    ("laptop", ["laptop"; "macbook"; "thinkpad"; "notebook"; "computer"]);
    ("tablet", ["ipad"; "tablet"; "kindle"]);
    ("audio", ["headphones"; "earbuds"; "speaker"; "airpods"]);
    ("accessory", ["case"; "cover"; "charger"; "cable"; "screen protector";
                   "silicon"; "leather"]) ].

(** The first category, in table order, one of whose keywords occurs in
    the query. *)
Definition query_category_of (query : string) : option string :=
  match find (fun entry => any_keyword_in (snd entry) query) categories with
  | Some (category, _) => Some category
  | None => None
  end.

Definition _calculate_category_alignment (product_name query : string) : Q :=
  match query_category_of query with
  | None => 0.5
  | Some query_category =>
      let category_keywords := dict_get categories query_category [] in
      let product_matches_category := any_keyword_in category_keywords product_name in
      let accessory_keywords := dict_get categories "accessory" [] in
      let is_accessory := any_keyword_in accessory_keywords product_name in
      if mem query_category ["phone"; "laptop"; "tablet"] then
        if is_accessory then 0.1
        else if product_matches_category then 1.0
        else 0.3
      else if product_matches_category then 1.0
      else if is_accessory && negb (String.eqb query_category "accessory") then 0.2
      else 0.5
  end.

Definition model_patterns : list pattern :=
  [ [WordBoundary; Digits; Spaces; Lit "pro"; Spaces; Lit "max"; WordBoundary];
    [WordBoundary; Digits; Spaces; Lit "pro"; WordBoundary];
    [WordBoundary; Digits; Spaces; Lit "plus"; WordBoundary];
    [WordBoundary; Digits; Lit "r"; WordBoundary];
    [WordBoundary; Lit "iphone"; Spaces; Digits; WordBoundary];
    [WordBoundary; Lit "galaxy"; Spaces; Lit "s"; Digits; WordBoundary] ].

Definition _is_exact_model_match (product_name query : string) : bool :=
  existsb
    (fun pat =>
       let query_matches := findall pat (lower query) in
       let product_matches := findall pat (lower product_name) in
       match query_matches, product_matches with
       | _ :: _, _ :: _ => existsb (fun q_match => mem q_match product_matches) query_matches
       | _, _ => false
       end)
    model_patterns.

Definition _is_accessory_product (product_name : string) : bool :=
  any_keyword_in
    ["case"; "cover"; "charger"; "cable"; "screen protector"; "silicon";
     "leather"; "tempered glass"]
    product_name.

Definition _is_searching_for_accessory (query : string) : bool :=
  any_keyword_in ["case"; "cover"; "charger"; "cable"; "screen protector"]
                 (lower query).

(** [len(xs)] as a number *)
Definition len {A : Type} (xs : list A) : Q := inject_Z (Z.of_nat (length xs)).

(** [sum(xs)] *)
Definition sum (xs : list Q) : Q := fold_left Qplus xs 0.

(** [min(xs)] and [max(xs)] of a list (called on non-empty lists only) *)
Definition list_min (xs : list Q) : Q :=
  match xs with
  | [] => 0
  | x :: rest => fold_left Qmin rest x
  end.

Definition list_max (xs : list Q) : Q :=
  match xs with
  | [] => 0
  | x :: rest => fold_left Qmax rest x
  end.

(** The distinct values of [set(xs)] *)
Fixpoint py_set (xs : list Q) : list Q :=
  match xs with
  | [] => []
  | x :: rest => if existsb (Qeq_bool x) (py_set rest) then py_set rest
                 else x :: py_set rest
  end.

Definition normalize_price_score (prices : list Q) : list Q :=
  match prices with
  | [] => repeat 0.5 (length prices)
  | _ :: _ =>
      if (length (py_set prices) =? 1)%nat then repeat 0.5 (length prices)
      else
        let min_price := list_min prices in
        let max_price := list_max prices in
        let price_range := max_price - min_price in
        map (fun price =>
               if Qeq_bool price_range 0 then 0.5
               else 1.0 - ((price - min_price) / price_range))
            prices
  end.

Definition filter_low_relevance (products : list ProductDict) (min_relevance : Q)
  : list ProductDict :=
  filter (fun product => Qle_bool min_relevance (get_or (dict_relevance_score product) 0))
         products.

(** [xs.sort(key=key, reverse=True)]: the stable sort into descending
    key order (equal keys keep their order). *)
Section Sort.
Context {A : Type} (key : A -> Q).

Fixpoint insert_desc (x : A) (sorted : list A) : list A :=
  match sorted with
  | [] => [x]
  | y :: rest =>
      if Qle_bool (key y) (key x) then x :: sorted
      else y :: insert_desc x rest
  end.

Definition sort_reverse (xs : list A) : list A :=
  fold_right insert_desc [] xs.
End Sort.

Section WithFuzz.
(** [fuzz.token_sort_ratio] *)
Variable token_sort_ratio : string -> string -> Z.

(** The four signals of [calculate_relevance_score], under the names
    of its local variables. *)
Definition fuzzy_score (product_lower query_lower : string) : Q :=
  inject_Z (token_sort_ratio product_lower query_lower) / 100.

Definition exact_score (product_lower query_lower : string) : Q :=
  let query_terms := _extract_key_terms query_lower in
  let exact_matches :=
    len (filter (fun term => contains term product_lower) query_terms) in
  let exact_score :=
    match query_terms with
    | [] => 0
    | _ :: _ => Qmin (exact_matches / len query_terms) 1.0
    end in
  if _is_exact_model_match product_lower query_lower
  then Qmin (exact_score + 0.5) 1.0 else exact_score.

Definition partial_score (product_lower query_lower : string) : Q :=
  let query_terms := _extract_key_terms query_lower in
  let partial_matches :=
    len (filter (fun term =>
                   existsb (fun part => contains part product_lower) (split term))
                query_terms) in
  match query_terms with
  | [] => 0
  | _ :: _ => Qmin (partial_matches / len query_terms) 1.0
  end.

Definition calculate_relevance_score (product_name search_query : string) : Q :=
  let product_lower := lower product_name in
  let query_lower := lower search_query in
  let category_score := _calculate_category_alignment product_lower query_lower in
  sum [ fuzzy_score product_lower query_lower * 0.25;
        exact_score product_lower query_lower * 0.40;
        partial_score product_lower query_lower * 0.10;
        category_score * 0.25 ].

(** [self.source_reliability.get(product.get('source', 'Unknown'), 0.5)] *)
Definition source_trust (product : ProductDict) : Q :=
  let source := get_or (dict_source product) "Unknown" in
  dict_get source_reliability source 0.5.

(** First pass: one row of the criteria matrix per product. *)
Definition criteria_of (search_query : string) (product : ProductDict) : Criteria :=
  let relevance := calculate_relevance_score (dict_productName product) search_query in
  let reliability := source_trust product in
  {| c_relevance := relevance;
     c_price_raw := dict_price product;
     c_source_reliability := reliability;
     c_has_exact_match :=
       _is_exact_model_match (lower (dict_productName product)) (lower search_query);
     c_is_accessory := _is_accessory_product (lower (dict_productName product)) |}.

Definition has_exact_matches (products : list ProductDict) (search_query : string) : bool :=
  existsb (fun product =>
             _is_exact_model_match (lower (dict_productName product)) (lower search_query))
          products.

(** Second pass, body of the loop. *)
Definition apply_penalties (search_query : string) (criteria : Criteria) : Criteria :=
  let criteria :=
    if negb (c_has_exact_match criteria)
    then set_relevance criteria (c_relevance criteria * 0.8) else criteria in
  if c_is_accessory criteria && negb (_is_searching_for_accessory search_query)
  then set_relevance criteria (c_relevance criteria * 0.3) else criteria.

(** [criteria_matrix] after the second pass. *)
Definition criteria_matrix (products : list ProductDict) (search_query : string)
  : list Criteria :=
  let first_pass := map (criteria_of search_query) products in
  if has_exact_matches products search_query
  then map (apply_penalties search_query) first_pass
  else first_pass.

Definition weighted_score (criteria : Criteria) (normalized_price : Q) : Q :=
  c_relevance criteria * weight "relevance"
  + normalized_price * weight "price"
  + c_source_reliability criteria * weight "source_reliability".

Definition final_scores (matrix : list Criteria) : list Q :=
  let prices := map c_price_raw matrix in
  let normalized_prices := normalize_price_score prices in
  map (fun row => weighted_score (fst row) (snd row)) (combine matrix normalized_prices).

Definition with_scores (product : ProductDict) (mcdm relevance : Q) : ProductDict :=
  {| dict_link := dict_link product;
     dict_price := dict_price product;
     dict_currency := dict_currency product;
     dict_productName := dict_productName product;
     dict_source := dict_source product;
     dict_mcdm_score := Some mcdm;
     dict_relevance_score := Some relevance |}.

(** [ranked_products] before it is sorted. *)
Definition scored_products (products : list ProductDict) (search_query : string)
  : list ProductDict :=
  let matrix := criteria_matrix products search_query in
  map (fun row => with_scores (fst row) (fst (snd row)) (c_relevance (snd (snd row))))
      (combine products (combine (final_scores matrix) matrix)).

(** The sort key [x['mcdm_score']]. *)
Definition mcdm_key (x : ProductDict) : Q := get_or (dict_mcdm_score x) 0.

Definition calculate_mcdm_scores (products : list ProductDict) (search_query : string)
  : list ProductDict :=
  match products with
  | [] => products
  | _ :: _ => sort_reverse mcdm_key (scored_products products search_query)
  end.

End WithFuzz.

End MCDMRanker.

(* ================================================================== *)
(** * [EnhancedPriceComparisonTool]                                    *)
(* ================================================================== *)

(** What awaiting a coroutine does: it returns a value or raises.  An
    exception is either an instance of [Exception] or only of
    [BaseException] (a cancellation, for instance). *)
Record exn : Type := mkExn {
  exn_is_Exception : bool;
  exn_message : string
}.

Inductive outcome (A : Type) : Type :=
| Return (a : A)
| Raise (e : exn).
Arguments Return {A} a.
Arguments Raise {A} e.

(** A value in the list that [asyncio.gather] returns. *)
Inductive gathered : Type :=
| GList (l : list Product)
| GExn (e : exn).

Module EnhancedPriceComparisonTool.
Import PyStr.

(** [EnhancedBaseScraper.search]: the retrieval ([_search_online] or
    [_parse_local_html]) runs inside [try ... except Exception], which
    logs and returns the empty list. *)
Definition search (retrieval : outcome (list Product)) : outcome (list Product) :=
  match retrieval with
  | Return l => Return l
  | Raise e => if exn_is_Exception e then Return [] else Raise e
  end.

(** [await asyncio.gather] over the tasks, with its [return_exceptions] flag *)
Fixpoint gather (return_exceptions : bool) (tasks : list (outcome (list Product)))
  : outcome (list gathered) :=
  match tasks with
  | [] => Return []
  | t :: rest =>
      match t with
      | Return l =>
          match gather return_exceptions rest with
          | Return vs => Return (GList l :: vs)
          | Raise e => Raise e
          end
      | Raise e =>
          if return_exceptions then
            match gather return_exceptions rest with
            | Return vs => Return (GExn e :: vs)
            | Raise e' => Raise e'
            end
          else Raise e
      end
  end.

(** The loop over [results]: lists are appended, everything else is
    passed over (an [Exception] is logged). *)
Definition collect (results : list gathered) : list Product :=
  fold_left (fun all_products result =>
               match result with
               | GList l => (all_products ++ l)%list
               | GExn _ => all_products
               end)
            results [].

Section WithFuzz.
(** [fuzz.ratio] and [fuzz.token_sort_ratio] *)
Variable ratio : string -> string -> Z.
Variable token_sort_ratio : string -> string -> Z.

Definition name_similarity (product existing : Product) : Z :=
  ratio (lower (product_name product)) (lower (product_name existing)).

Definition price_diff (product existing : Product) : Q :=
  Qabs (price product - price existing)
  / Qmax (Qmax (price product) (price existing)) 1.

(** The test in the inner loop of [_remove_duplicates]. *)
Definition is_duplicate_of (product existing : Product) : bool :=
  if String.eqb (currency product) (currency existing) then
    (90 <? name_similarity product existing)%Z
    && negb (Qle_bool 0.05 (price_diff product existing))
  else (95 <? name_similarity product existing)%Z.

(** One turn of the outer loop of [_remove_duplicates]. *)
Definition keep_if_new (unique_products : list Product) (product : Product)
  : list Product :=
  if existsb (is_duplicate_of product) unique_products then unique_products
  else (unique_products ++ [product])%list.

Definition _remove_duplicates (products : list Product) : list Product :=
  fold_left keep_if_new products [].

(** [search_products], given what the retrieval of each scraper of
    the country does. *)
Definition search_products (retrievals : list (outcome (list Product))) (query : string)
  : outcome (list ProductDict) :=
  match retrievals with
  | [] => Return []
  | _ :: _ =>
      match gather true (map search retrievals) with
      | Raise e => Raise e
      | Return results =>
          let all_products := collect results in
          let unique_products := _remove_duplicates all_products in
          let product_dicts := map to_dict unique_products in
          let ranked_products :=
            MCDMRanker.calculate_mcdm_scores token_sort_ratio product_dicts query in
          Return (MCDMRanker.filter_low_relevance ranked_products 0.2)
      end
  end.

End WithFuzz.

End EnhancedPriceComparisonTool.

(* ================================================================== *)
(** * Vocabulary of the specification                                  *)
(* ================================================================== *)

(** [l1] is [l2] with some elements left out, the others in place. *)
Inductive subseq {A : Type} : list A -> list A -> Prop :=
| subseq_nil : subseq [] []
| subseq_skip : forall x l1 l2, subseq l1 l2 -> subseq l1 (x :: l2)
| subseq_take : forall x l1 l2, subseq l1 l2 -> subseq (x :: l1) (x :: l2).

(** Descending order of a key: every element's key is at least the key of
    each element after it. *)
Definition sorted_desc {A : Type} (key : A -> Q) (l : list A) : Prop :=
  StronglySorted (fun a b => key b <= key a) l.

(** The relevance the filter reads: [product.get('relevance_score', 0)]. *)
Definition relevance_of (product : ProductDict) : Q :=
  get_or (dict_relevance_score product) 0.

(** A listing is an exact model match for the query / is flagged as an
    accessory, as [calculate_mcdm_scores] computes the two flags. *)
Definition exact_match (query : string) (product : ProductDict) : bool :=
  MCDMRanker._is_exact_model_match (PyStr.lower (dict_productName product))
                                   (PyStr.lower query).

Definition accessory (product : ProductDict) : bool :=
  MCDMRanker._is_accessory_product (PyStr.lower (dict_productName product)).

(** The two contextual penalties, as factors. *)
Definition exact_factor (query : string) (product : ProductDict) : Q :=
  if exact_match query product then 1 else 0.8.

Definition accessory_factor (query : string) (product : ProductDict) : Q :=
  if accessory product && negb (MCDMRanker._is_searching_for_accessory query)
  then 0.3 else 1.

(** The same listing under another display name. *)
Definition rename (p : Product) (name : string) : Product :=
  {| link := link p; price := price p; currency := currency p;
     product_name := name; source := source p |}.

(** [fresh_after dup seen l]: going through [l] after [seen] was accepted,
    no element is a duplicate (by the test [dup]) of anything accepted
    before it. *)
Fixpoint fresh_after (dup : Product -> Product -> bool) (seen l : list Product) : Prop :=
  match l with
  | [] => True
  | x :: l' => existsb (dup x) seen = false /\ fresh_after dup (seen ++ [x]) l'
  end.

(** The retrievals that returned a list, and what they returned. *)
Definition succeeded {A : Type} (o : outcome A) : bool :=
  match o with Return _ => true | Raise _ => false end.

Definition listings_of (o : outcome (list Product)) : list Product :=
  match o with Return l => l | Raise _ => [] end.

(* ================================================================== *)
(** * Sample inputs                                                    *)
(* ================================================================== *)

Module Samples.

Definition query : string := "iPhone 16 Pro Max".

Definition listing (name : string) (p : Q) (src : string) : ProductDict :=
  {| dict_link := None; dict_price := p; dict_currency := Some "INR";
     dict_productName := name; dict_source := Some src;
     dict_mcdm_score := None; dict_relevance_score := None |}.

(** The three listings of the scenario of the specification. *)
Definition phone : ProductDict :=
  listing "Apple iPhone 16 Pro Max (Natural Titanium, 256 GB)" 135900 "Amazon.in".
Definition case_cover : ProductDict :=
  listing "iPhone 16 Pro Max Case Cover Silicon" 499 "Snapdeal".
Definition older_phone : ProductDict :=
  listing "Apple iPhone 15 Pro Max 256GB" 120000 "Flipkart".

Definition products : list ProductDict := [phone; case_cover; older_phone].

(** A scored list, in descending composite score. *)
Definition scored (name : string) (mcdm relevance : Q) : ProductDict :=
  {| dict_link := None; dict_price := 100; dict_currency := Some "INR";
     dict_productName := name; dict_source := Some "Flipkart";
     dict_mcdm_score := Some mcdm; dict_relevance_score := Some relevance |}.

Definition scored_products : list ProductDict :=
  [scored "first" 0.9 0.8; scored "second" 0.5 0.1; scored "third" 0.1 0.6].

Definition offer (name : string) (p : Q) (cur : string) : Product :=
  {| link := "https://example.test/item"; price := p; currency := cur;
     product_name := name; source := "Amazon.in" |}.

Definition offer_100 : Product := offer "Galaxy S24 Ultra" 100 "INR".
Definition offer_102 : Product := offer "Galaxy S24 Ultra" 102 "INR".
Definition offer_108 : Product := offer "Galaxy S24 Ultra" 108 "INR".
Definition offer_reordered : Product := offer "Ultra S24 Galaxy" 100 "INR".

Definition timeout_error : exn :=
  {| exn_is_Exception := true; exn_message := "TimeoutError" |}.
Definition cancelled : exn :=
  {| exn_is_Exception := false; exn_message := "CancelledError" |}.

(** Four sources: two return listings, one times out, one is cancelled. *)
Definition retrievals : list (outcome (list Product)) :=
  [ Return [offer "Apple iPhone 16 Pro Max 256 GB" 135900 "INR"];
    Raise timeout_error;
    Return [offer "iPhone 16 Pro Max Case Cover Silicon" 499 "INR";
            offer "apple iphone 16 pro max 256 gb" 135000 "INR"];
    Raise cancelled ].

End Samples.

(* ================================================================== *)
(** * Further vocabulary                                               *)
(* ================================================================== *)

(** The elements of [l] whose key is [k], in their order in [l]. *)
Definition with_key {A : Type} (key : A -> Q) (k : Q) (l : list A) : list A :=
  filter (fun x => Qeq_bool (key x) k) l.

(** Every character of [s] is an ASCII character. *)
Definition ascii_only (s : string) : Prop :=
  forallb (fun c => (PyStr.code c <? 128)%nat) (list_ascii_of_string s) = true.

(** [case_variant s t]: [t] is [s] with the case of some of its letters
    changed, character by character. *)
Inductive case_variant : string -> string -> Prop :=
| case_variant_nil : case_variant "" ""
| case_variant_same : forall c s t,
    case_variant s t -> case_variant (String c s) (String c t)
| case_variant_upper : forall c s t,
    PyStr.is_lower c = true ->
    case_variant s t -> case_variant (String c s) (String (PyStr.upper_char c) t)
| case_variant_lower : forall c s t,
    PyStr.is_upper c = true ->
    case_variant s t -> case_variant (String c s) (String (PyStr.lower_char c) t).

(** The listing with its display name in capitals. *)
Definition in_capitals (p : Product) : Product :=
  rename p (PyStr.upper (product_name p)).

(** No character of [s] is a decimal digit. *)
Definition digitless (s : string) : Prop :=
  existsb PyStr.is_digit (list_ascii_of_string s) = false.

(* ================================================================== *)
(** * [EnhancedBaseScraper]: the helpers of the scrapers               *)
(* ================================================================== *)

Module EnhancedBaseScraper.
Import PyStr.

Definition is_dot (c : ascii) : bool := Ascii.eqb c "."%char.
Definition is_comma (c : ascii) : bool := Ascii.eqb c ","%char.

(** The class [[₹Rs\s]] on the characters that are interpreted: the
    letters [R] and [s] and the whitespace.  (The rupee sign lies
    outside; like every character that is no digit, point or comma it is
    removed by the second substitution.) *)
Definition currency_class (c : ascii) : bool :=
  Ascii.eqb c "R"%char || Ascii.eqb c "s"%char || is_space c.

(** The class [[\d.,]], whose complement the second substitution
    removes. *)
Definition price_class (c : ascii) : bool := is_digit c || is_dot c || is_comma c.

(** [s.lstrip('.')] *)
Fixpoint lstrip_dots (s : list ascii) : list ascii :=
  match s with
  | c :: s' => if is_dot c then lstrip_dots s' else s
  | [] => []
  end.

(** [s.strip('.')] *)
Definition strip_dots (s : list ascii) : list ascii :=
  rev (lstrip_dots (rev (lstrip_dots s))).

(** [s.split(sep)] for a one-character separator: the pieces between
    the separators, empty ones included. *)
Fixpoint split_on (sep : ascii) (s : list ascii) : list (list ascii) :=
  match s with
  | [] => [[]]
  | c :: s' =>
      if Ascii.eqb c sep then [] :: split_on sep s'
      else match split_on sep s' with
           | piece :: pieces => (c :: piece) :: pieces
           | [] => [[c]]
           end
  end.

(** The number a string of decimal digits denotes. *)
Definition digits_value (s : list ascii) : Z :=
  fold_left (fun acc c => (acc * 10 + (Z.of_nat (code c) - 48))%Z) s 0%Z.

Definition nonempty {A : Type} (l : list A) : bool :=
  match l with [] => false | _ :: _ => true end.

(** [float(s)] on the strings that reach it in [_clean_price], which hold
    digits and points only: digits with at most one point among them,
    one digit at least; anything else raises [ValueError], here [None]. *)
Definition py_float (s : list ascii) : option Q :=
  match split_on "."%char s with
  | [whole] =>
      if forallb is_digit whole && nonempty whole
      then Some (inject_Z (digits_value whole)) else None
  | [whole; frac] =>
      if forallb is_digit whole && forallb is_digit frac
         && (nonempty whole || nonempty frac)
      then Some (inject_Z (digits_value whole)
                 + inject_Z (digits_value frac) / inject_Z (10 ^ Z.of_nat (length frac)))
      else None
  | _ => None
  end.

(** [_clean_price]; the [except] clause turns every error into [None]. *)
Definition _clean_price (price_text : string) : option Q :=
  let clean_price := filter (fun c => negb (currency_class c))
                            (list_ascii_of_string price_text) in
  let clean_price := filter price_class clean_price in
  let clean_price := strip_dots clean_price in
  match clean_price with
  | [] => None
  | _ :: _ =>
      let clean_price :=
        if existsb is_comma clean_price
        then filter (fun c => negb (is_comma c)) clean_price
        else clean_price in
      if existsb is_dot clean_price then
        let parts := split_on "."%char clean_price in
        if (length parts =? 2)%nat && (length (nth 1 parts []) <=? 2)%nat
        then py_float clean_price
        else py_float (nth 0 parts [])
      else py_float clean_price
  end.

(** [_build_absolute_url], for a scraper whose [base_url] is given. *)
Definition _build_absolute_url (base_url relative_url : string) : string :=
  if String.prefix "http" relative_url then relative_url
  else if String.prefix "//" relative_url then "https:" ++ relative_url
  else if String.prefix "/" relative_url then base_url ++ relative_url
  else base_url ++ "/" ++ relative_url.

End EnhancedBaseScraper.

(* ================================================================== *)
(** * The scrapers of each country                                     *)
(* ================================================================== *)

(** What [EnhancedBaseScraper.__init__] keeps of a scraper, the local
    file apart. *)
Record Scraper : Type := mkScraper {
  scraper_name : string;
  scraper_base_url : string
}.

Module Dispatch.

Definition EnhancedAmazonInScraper : Scraper := mkScraper "Amazon.in" "https://www.amazon.in".



End Dispatch.

(* ================================================================== *)
(** * [complete_app.py]: what the request handler does with the result *)
(* ================================================================== *)

Module CompleteApp.




(** [xs[:n]] *)
Definition slice_to {A : Type} (xs : list A) (n : Z) : list A :=
  if (0 <=? n)%Z then firstn (Z.to_nat n) xs
  else firstn (Z.to_nat (Z.of_nat (length xs) + n)) xs.

(** [max_results = min(data.get('max_results', 50), 100)], then
    [products[:max_results]]. *)
Definition limit_results {A : Type} (max_results : option Z) (products : list A) : list A :=
  slice_to products (Z.min (get_or max_results 50%Z) 100%Z).

(** One turn of the loop that counts the products of each source:
    [if source not in sources: sources[source] = 0], then
    [sources[source] += 1].  The dictionary keeps its keys in insertion
    order. *)
Fixpoint count_source (sources : list (string * nat)) (source : string)
  : list (string * nat) :=
  match sources with
  | [] => [(source, 1%nat)]
  | (k, n) :: rest =>
      if String.eqb k source then (k, S n) :: rest
      else (k, n) :: count_source rest source
  end.

(** The loop that fills [source_breakdown] (it runs when there is a
    product); [product["source"]] raises [KeyError] on a product without
    that key, which is [None] here. *)
Definition source_breakdown (products : list ProductDict) : option (list (string * nat)) :=
  fold_left (fun sources product =>
               match sources, dict_source product with
               | Some sources, Some source => Some (count_source sources source)
               | _, _ => None
               end)
            products (Some []).

End CompleteApp.

(** The product carries the source [s]. *)
Definition from_source (s : string) (product : ProductDict) : bool :=
  match dict_source product with
  | Some s' => String.eqb s' s
  | None => false
  end.

(* ================================================================== *)
(** * More sample inputs                                               *)
(* ================================================================== *)

Module MoreSamples.

Definition prices : list Q := [135900; 499; 120000].

Definition laptop_query : string := "MacBook Air".

Definition laptops : list ProductDict :=
  [ Samples.listing "Apple MacBook Air M3" 114900 "Amazon.in";
    Samples.listing "MacBook Air sleeve cover" 899 "Flipkart" ].

Definition offer_usd : Product := Samples.offer "Galaxy S24 Ultra" 100 "USD".

(** Two offers under one name and currency, below one currency unit,
    8% apart. *)
Definition offer_050 : Product := Samples.offer "USB-C Dust Plug" 0.50 "USD".
Definition offer_054 : Product := Samples.offer "USB-C Dust Plug" 0.54 "USD".

(** Two names one letter apart, at one price. *)
Definition offer_pro : Product := Samples.offer "black blue pro" 100 "INR".
Definition offer_opo : Product := Samples.offer "black blue opo" 100 "INR".

(** Every source fails or finds nothing. *)
Definition failed_retrievals : list (outcome (list Product)) :=
  [ Raise Samples.timeout_error; Return []; Raise Samples.cancelled ].

Definition price_text : string := "Rs. 1,34,900.50".

Definition ranked : list ProductDict :=
  map to_dict [Samples.offer_100; offer_usd; Samples.offer_108].

End MoreSamples.

(* ================================================================== *)
(** * Lists, rationals and strings: auxiliary facts                    *)
(* ================================================================== *)

Lemma subseq_refl {A : Type} (l : list A) : subseq l l.
Proof. induction l; constructor; assumption. Qed.

Lemma subseq_filter {A : Type} (f : A -> bool) (l : list A) : subseq (filter f l) l.
Proof.
  induction l as [|x l IH]; simpl.
  - constructor.
  - destruct (f x); constructor; exact IH.
Qed.

Lemma subseq_In {A : Type} (l1 l2 : list A) :
  subseq l1 l2 -> forall x, In x l1 -> In x l2.
Proof.
  induction 1 as [|y l1 l2 _ IH|y l1 l2 _ IH]; intros x Hx; simpl in *.
  - exact Hx.
  - right; apply IH; exact Hx.
  - destruct Hx as [->|Hx]; [left; reflexivity | right; apply IH; exact Hx].
Qed.

Lemma subseq_insert {A : Type} (out l1 l2 : list A) (x : A) :
  subseq out (l1 ++ l2) -> subseq out (l1 ++ x :: l2).
Proof.
  revert out. induction l1 as [|a l1 IH]; intros out H; simpl in *.
  - constructor; exact H.
  - inversion H as [|? ? ? H'|? ? ? H']; subst.
    + apply subseq_skip, IH, H'.
    + apply subseq_take, IH, H'.
Qed.

Lemma sorted_desc_subseq {A : Type} (key : A -> Q) (l1 l2 : list A) :
  subseq l1 l2 -> sorted_desc key l2 -> sorted_desc key l1.
Proof.
  unfold sorted_desc.
  induction 1 as [|y l1 l2 Hs IH|y l1 l2 Hs IH]; intros Hsorted.
  - constructor.
  - inversion Hsorted; subst; auto.
  - inversion Hsorted as [|? ? Htail Hhead]; subst.
    constructor; [auto|].
    rewrite Forall_forall in *.
    intros x Hx. apply Hhead. eapply subseq_In; eauto.
Qed.

Section SortFacts.
Context {A : Type} (key : A -> Q).
Import MCDMRanker.

Lemma insert_desc_perm (x : A) (l : list A) :
  Permutation (insert_desc key x l) (x :: l).
Proof.
  induction l as [|y l IH]; simpl.
  - apply Permutation_refl.
  - destruct (Qle_bool (key y) (key x)).
    + apply Permutation_refl.
    + eapply perm_trans; [apply perm_skip, IH | apply perm_swap].
Qed.

Lemma sort_reverse_perm (l : list A) : Permutation (sort_reverse key l) l.
Proof.
  induction l as [|x l IH]; simpl.
  - constructor.
  - eapply perm_trans; [apply insert_desc_perm | apply perm_skip, IH].
Qed.

Lemma insert_desc_sorted (x : A) (l : list A) :
  sorted_desc key l -> sorted_desc key (insert_desc key x l).
Proof.
  unfold sorted_desc.
  induction l as [|y l IH]; intros Hs; simpl.
  - repeat constructor.
  - inversion Hs as [|? ? Htail Hhead]; subst.
    destruct (Qle_bool (key y) (key x)) eqn:Hle.
    + apply Qle_bool_iff in Hle.
      constructor; [exact Hs|].
      constructor; [exact Hle|].
      rewrite Forall_forall in *. intros z Hz.
      eapply Qle_trans; [apply Hhead; exact Hz | exact Hle].
    + assert (Hlt : key x < key y).
      { apply Qnot_le_lt. intro Hc. apply Qle_bool_iff in Hc. congruence. }
      constructor; [apply IH; exact Htail|].
      rewrite Forall_forall in *. intros z Hz.
      apply (Permutation_in _ (insert_desc_perm x l)) in Hz.
      destruct Hz as [<-|Hz]; [apply Qlt_le_weak; exact Hlt | apply Hhead; exact Hz].
Qed.

Lemma sort_reverse_sorted (l : list A) : sorted_desc key (sort_reverse key l).
Proof.
  induction l as [|x l IH]; simpl.
  - constructor.
  - apply insert_desc_sorted; exact IH.
Qed.

End SortFacts.

(* ================================================================== *)
(** * The relevance filter                                             *)
(* ================================================================== *)

Section RelevanceFilter.
Import MCDMRanker.

Lemma filter_low_relevance_In (products : list ProductDict) (min_relevance : Q) x :
  In x (filter_low_relevance products min_relevance)
  <-> In x products /\ min_relevance <= relevance_of x.
Proof.
  unfold filter_low_relevance, relevance_of.
  rewrite filter_In, Qle_bool_iff. reflexivity.
Qed.

Lemma filter_low_relevance_subseq (products : list ProductDict) (min_relevance : Q) :
  subseq (filter_low_relevance products min_relevance) products.
Proof. apply subseq_filter. Qed.

(** C2.  The filter keeps exactly the products whose relevance (adjusted
    or not) is at least [min_relevance]: a product is in the output iff
    it is in the input with such a relevance, so every product below the
    threshold is absent; the output is the input with the other products
    left out, in the same relative order and with the same number of
    copies; so a list sorted in descending composite score stays sorted,
    and in particular the filtered result of [calculate_mcdm_scores] is
    sorted in descending composite score. *)
Theorem filter_low_relevance_spec :
  forall (products : list ProductDict) (min_relevance : Q),
    let out := filter_low_relevance products min_relevance in
    (forall x, In x out <-> In x products /\ min_relevance <= relevance_of x)
    /\ (forall x, In x products -> relevance_of x < min_relevance -> ~ In x out)
    /\ subseq out products
    /\ (forall x, min_relevance <= relevance_of x ->
                  forall (eq_dec : forall a b : ProductDict, {a = b} + {a <> b}),
                    count_occ eq_dec out x = count_occ eq_dec products x)
    /\ (sorted_desc mcdm_key products -> sorted_desc mcdm_key out)
    /\ (forall token_sort_ratio raw query,
           products = calculate_mcdm_scores token_sort_ratio raw query ->
           sorted_desc mcdm_key out).
Proof.
  intros products min_relevance out.
  assert (Hin : forall x, In x out <-> In x products /\ min_relevance <= relevance_of x)
    by (intro x; apply filter_low_relevance_In).
  assert (Hsub : subseq out products) by apply filter_low_relevance_subseq.
  refine (conj Hin (conj _ (conj Hsub (conj _ (conj _ _))))).
  - intros x Hx Hlow Hout. apply Hin in Hout. destruct Hout as [_ Hge].
    exact (Qlt_not_le _ _ Hlow Hge).
  - intros x Hge eq_dec. subst out. clear Hin Hsub. unfold filter_low_relevance.
    induction products as [|y l IH]; simpl; [reflexivity|].
    destruct (Qle_bool min_relevance (get_or (dict_relevance_score y) 0)) eqn:Hy; simpl.
    + destruct (eq_dec y x); rewrite IH; reflexivity.
    + destruct (eq_dec y x) as [->|Hne]; [|exact IH].
      apply Qle_bool_iff in Hge. unfold relevance_of in Hge. congruence.
  - intros Hsorted. eapply sorted_desc_subseq; eauto.
  - intros tsr raw query ->. eapply sorted_desc_subseq; [exact Hsub|].
    unfold calculate_mcdm_scores. destruct raw; [constructor|].
    apply sort_reverse_sorted.
Qed.

End RelevanceFilter.

(* ================================================================== *)
(** * The price normalizer                                             *)
(* ================================================================== *)

Section PriceNormalizer.
Import MCDMRanker.

Lemma fold_left_Qmin_le_init (l : list Q) (x : Q) : fold_left Qmin l x <= x.
Proof.
  revert x. induction l as [|y l IH]; intro x; simpl.
  - apply Qle_refl.
  - eapply Qle_trans; [apply IH | apply Q.le_min_l].
Qed.

Lemma fold_left_Qmax_ge_init (l : list Q) (x : Q) : x <= fold_left Qmax l x.
Proof.
  revert x. induction l as [|y l IH]; intro x; simpl.
  - apply Qle_refl.
  - eapply Qle_trans; [apply Q.le_max_l | apply IH].
Qed.

Lemma list_min_le_max (l : list Q) : list_min l <= list_max l.
Proof.
  destruct l as [|x l]; simpl.
  - apply Qle_refl.
  - eapply Qle_trans; [apply fold_left_Qmin_le_init | apply fold_left_Qmax_ge_init].
Qed.

Lemma fold_left_Qmin_le_In (l : list Q) (x p : Q) :
  In p l -> fold_left Qmin l x <= p.
Proof.
  revert x. induction l as [|y l IH]; intros x Hp; simpl in *.
  - contradiction.
  - destruct Hp as [->|Hp].
    + eapply Qle_trans; [apply fold_left_Qmin_le_init | apply Q.le_min_r].
    + apply IH; exact Hp.
Qed.

Lemma fold_left_Qmax_ge_In (l : list Q) (x p : Q) :
  In p l -> p <= fold_left Qmax l x.
Proof.
  revert x. induction l as [|y l IH]; intros x Hp; simpl in *.
  - contradiction.
  - destruct Hp as [->|Hp].
    + eapply Qle_trans; [apply Q.le_max_r | apply fold_left_Qmax_ge_init].
    + apply IH; exact Hp.
Qed.

(** [min(prices)] is a lower bound and [max(prices)] an upper bound. *)
Lemma list_min_le (l : list Q) (p : Q) : In p l -> list_min l <= p.
Proof.
  destruct l as [|x l]; simpl; [contradiction|].
  intros [->|Hp]; [apply fold_left_Qmin_le_init | apply fold_left_Qmin_le_In; exact Hp].
Qed.

Lemma list_max_ge (l : list Q) (p : Q) : In p l -> p <= list_max l.
Proof.
  destruct l as [|x l]; simpl; [contradiction|].
  intros [->|Hp]; [apply fold_left_Qmax_ge_init | apply fold_left_Qmax_ge_In; exact Hp].
Qed.

Lemma py_set_In (l : list Q) (x : Q) : In x (py_set l) -> In x l.
Proof.
  induction l as [|y l IH]; simpl; [tauto|].
  destruct (existsb (Qeq_bool y) (py_set l)); simpl; intuition.
Qed.

(** [len(set(prices)) == 1] holds when all prices are equal. *)
Lemma py_set_all_equal (l : list Q) (x : Q) :
  l <> [] -> (forall p, In p l -> p == x) -> length (py_set l) = 1%nat.
Proof.
  induction l as [|y l IH]; intros Hne Heq; [congruence|].
  simpl. destruct l as [|z l].
  - reflexivity.
  - assert (IH' : length (py_set (z :: l)) = 1%nat).
    { apply IH; [discriminate | intros p Hp; apply Heq; right; exact Hp]. }
    destruct (existsb (Qeq_bool y) (py_set (z :: l))) eqn:Hex; [exact IH'|].
    exfalso.
    destruct (py_set (z :: l)) as [|w ws] eqn:Hset; [discriminate|].
    simpl in Hex. apply orb_false_iff in Hex. destruct Hex as [Hex _].
    assert (Hw : In w (z :: l)) by (apply py_set_In; rewrite Hset; left; reflexivity).
    assert (Hyw : y == w).
    { rewrite (Heq y (or_introl eq_refl)), (Heq w (or_intror Hw)). reflexivity. }
    apply Qeq_bool_iff in Hyw. congruence.
Qed.

Lemma normalize_price_score_length (prices : list Q) :
  length (normalize_price_score prices) = length prices.
Proof.
  unfold normalize_price_score. destruct prices as [|p l]; [reflexivity|].
  destruct (length (py_set (p :: l)) =? 1)%nat.
  - apply repeat_length.
  - apply length_map.
Qed.

Lemma nth_error_repeat_inv {A : Type} (x y : A) (n i : nat) :
  nth_error (repeat x n) i = Some y -> y = x.
Proof.
  intro H. apply nth_error_In in H. apply repeat_spec in H. exact H.
Qed.

Lemma normalize_price_score_antitone (prices : list Q) (i j : nat) (pi pj si sj : Q) :
  nth_error prices i = Some pi ->
  nth_error prices j = Some pj ->
  nth_error (normalize_price_score prices) i = Some si ->
  nth_error (normalize_price_score prices) j = Some sj ->
  pi <= pj -> sj <= si.
Proof.
  intros Hi Hj Hsi Hsj Hle.
  unfold normalize_price_score in *.
  destruct prices as [|p l]; [destruct i; discriminate|].
  destruct (length (py_set (p :: l)) =? 1)%nat.
  - apply nth_error_repeat_inv in Hsi, Hsj. subst. apply Qle_refl.
  - assert (Hge : list_min (p :: l) <= list_max (p :: l)) by apply list_min_le_max.
    remember (list_min (p :: l)) as mn eqn:Hmn.
    remember (list_max (p :: l)) as mx eqn:Hmx.
    rewrite nth_error_map in Hsi, Hsj. rewrite Hi in Hsi. rewrite Hj in Hsj.
    cbn [option_map] in Hsi, Hsj. injection Hsi as <-. injection Hsj as <-.
    destruct (Qeq_bool (mx - mn) 0) eqn:Hz; [apply Qle_refl|].
    assert (Hpos : 0 < mx - mn).
    { 
      assert (Hnz : ~ mx - mn == 0).
      { intro Hc. apply Qeq_bool_iff in Hc. congruence. }
      apply Qnot_le_lt. intro Hc. apply Hnz. lra. }
    assert (Hdiv : (pi - mn) / (mx - mn) <= (pj - mn) / (mx - mn)).
    { unfold Qdiv. apply Qmult_le_compat_r; [lra|].
      apply Qlt_le_weak, Qinv_lt_0_compat, Hpos. }
    lra.
Qed.

Lemma normalize_price_score_all_equal (prices : list Q) :
  (forall p q, In p prices -> In q prices -> p == q) ->
  normalize_price_score prices = repeat 0.5 (length prices).
Proof.
  intro Heq. unfold normalize_price_score.
  destruct prices as [|p l]; [reflexivity|].
  rewrite (py_set_all_equal (p :: l) p); [reflexivity | discriminate |].
  intros q Hq. apply Heq; [exact Hq | left; reflexivity].
Qed.

(** C8.  Price normalization is antitone: the scores are as many as the
    listings, and of two listings of one result set that carry the same
    currency, the cheaper has a normalized price score at least that of
    the dearer (the currency plays no role: this holds for any two
    listings).  When all prices of the set are equal, every score is
    0.5, as for a set of one listing. *)
Theorem normalize_price_score_monotone :
  forall (products : list ProductDict),
    let scores := normalize_price_score (map dict_price products) in
    length scores = length products
    /\ (forall i j a b sa sb,
           nth_error products i = Some a ->
           nth_error products j = Some b ->
           dict_currency a = dict_currency b ->
           nth_error scores i = Some sa ->
           nth_error scores j = Some sb ->
           dict_price a <= dict_price b -> sb <= sa)
    /\ ((forall a b, In a products -> In b products -> dict_price a == dict_price b) ->
        Forall (fun s => s = 0.5) scores)
    /\ (forall a, products = [a] -> scores = [0.5]).
Proof.
  intros products scores. subst scores.
  refine (conj _ (conj _ (conj _ _))).
  - rewrite normalize_price_score_length. apply length_map.
  - intros i j a b sa sb Ha Hb _ Hsa Hsb Hle.
    apply (normalize_price_score_antitone (map dict_price products) i j
             (dict_price a) (dict_price b) sa sb); trivial.
    + rewrite nth_error_map, Ha. reflexivity.
    + rewrite nth_error_map, Hb. reflexivity.
  - intros Heq. rewrite normalize_price_score_all_equal.
    + apply Forall_forall. intros s Hs. apply repeat_spec in Hs. exact Hs.
    + intros p q Hp Hq. apply in_map_iff in Hp, Hq.
      destruct Hp as [a [<- Ha]]. destruct Hq as [b [<- Hb]]. apply Heq; assumption.
  - intros a ->. reflexivity.
Qed.

End PriceNormalizer.

(* ================================================================== *)
(** * The relevance scorer                                             *)
(* ================================================================== *)

Section RelevanceScorer.
Import MCDMRanker.

Variable token_sort_ratio : string -> string -> Z.

(** [fuzz.token_sort_ratio] returns a percentage. *)
Hypothesis token_sort_ratio_range :
  forall s1 s2, (0 <= token_sort_ratio s1 s2 <= 100)%Z.

Lemma len_nonneg {A : Type} (l : list A) : 0 <= len l.
Proof.
  unfold len. change 0 with (inject_Z 0). rewrite <- Zle_Qle. lia.
Qed.

Lemma len_pos {A : Type} (x : A) (l : list A) : 0 < len (x :: l).
Proof.
  unfold len. change 0 with (inject_Z 0). rewrite <- Zlt_Qlt.
  simpl length. lia.
Qed.

Lemma fraction_nonneg {A B : Type} (l1 : list A) (l2 : list B) : 0 <= len l1 / len l2.
Proof.
  destruct l2 as [|y l2].
  - unfold len at 2. simpl. unfold Qdiv. setoid_replace (/ inject_Z 0) with 0 by reflexivity.
    lra.
  - apply Qle_shift_div_l; [apply len_pos|].
    pose proof (len_nonneg l1). lra.
Qed.

Lemma Qmin_unit (x : Q) : 0 <= x -> 0 <= Qmin x 1.0 <= 1.
Proof.
  intro Hx. split.
  - apply Q.min_glb; [exact Hx | lra].
  - eapply Qle_trans; [apply Q.le_min_r | lra].
Qed.

Lemma fuzzy_score_range (a b : string) : 0 <= fuzzy_score token_sort_ratio a b <= 1.
Proof.
  unfold fuzzy_score.
  destruct (token_sort_ratio_range a b) as [Hlo Hhi].
  rewrite Zle_Qle in Hlo, Hhi.
  change (inject_Z 0) with 0 in Hlo. change (inject_Z 100) with 100 in Hhi.
  split.
  - apply Qle_shift_div_l; lra.
  - apply Qle_shift_div_r; lra.
Qed.

Lemma exact_score_range (a b : string) : 0 <= exact_score a b <= 1.
Proof.
  unfold exact_score.
  set (terms := _extract_key_terms b).
  set (hits := filter _ terms).
  assert (Hbase : 0 <= match terms with
                       | [] => 0
                       | _ :: _ => Qmin (len hits / len terms) 1.0
                       end <= 1).
  { destruct terms as [|t ts] eqn:Ht; [lra|].
    apply Qmin_unit, fraction_nonneg. }
  destruct (_is_exact_model_match a b); [|exact Hbase].
  apply Qmin_unit. lra.
Qed.

Lemma partial_score_range (a b : string) : 0 <= partial_score a b <= 1.
Proof.
  unfold partial_score.
  destruct (_extract_key_terms b) as [|t ts]; [lra|].
  apply Qmin_unit, fraction_nonneg.
Qed.

Lemma category_alignment_values (a b : string) :
  let c := _calculate_category_alignment a b in
  c = 0.1 \/ c = 0.2 \/ c = 0.3 \/ c = 0.5 \/ c = 1.0.
Proof.
  unfold _calculate_category_alignment.
  destruct (query_category_of b) as [cat|]; [|tauto].
  cbv zeta.
  destruct (PyStr.mem cat _); repeat match goal with
                               | |- context [if ?c then _ else _] => destruct c
                               end; tauto.
Qed.

Lemma category_alignment_range (a b : string) :
  0 <= _calculate_category_alignment a b <= 1.
Proof.
  pose proof (category_alignment_values a b) as H. cbv zeta in H.
  destruct H as [-> | [-> | [-> | [-> | ->]]]]; lra.
Qed.

(** The relevance is the weighted sum of its four signals. *)
Lemma calculate_relevance_score_sum (product_name search_query : string) :
  let a := PyStr.lower product_name in
  let b := PyStr.lower search_query in
  calculate_relevance_score token_sort_ratio product_name search_query
  == fuzzy_score token_sort_ratio a b * 0.25
     + exact_score a b * 0.40
     + partial_score a b * 0.10
     + _calculate_category_alignment a b * 0.25.
Proof.
  cbv zeta. unfold calculate_relevance_score, sum. simpl fold_left. lra.
Qed.

Lemma calculate_relevance_score_range (product_name search_query : string) :
  0 <= calculate_relevance_score token_sort_ratio product_name search_query <= 1.
Proof.
  rewrite calculate_relevance_score_sum.
  pose proof (fuzzy_score_range (PyStr.lower product_name) (PyStr.lower search_query)).
  pose proof (exact_score_range (PyStr.lower product_name) (PyStr.lower search_query)).
  pose proof (partial_score_range (PyStr.lower product_name) (PyStr.lower search_query)).
  pose proof (category_alignment_range (PyStr.lower product_name) (PyStr.lower search_query)).
  lra.
Qed.

End RelevanceScorer.

(* ================================================================== *)
(** * The rank combiner                                                *)
(* ================================================================== *)

Lemma nth_error_combine {A B : Type} (l1 : list A) (l2 : list B) (i : nat) :
  nth_error (combine l1 l2) i
  = match nth_error l1 i, nth_error l2 i with
    | Some a, Some b => Some (a, b)
    | _, _ => None
    end.
Proof.
  revert l2 i. induction l1 as [|a l1 IH]; intros l2 i.
  - destruct i; reflexivity.
  - destruct l2 as [|b l2].
    + destruct i; simpl; [reflexivity|]. destruct (nth_error l1 i); reflexivity.
    + destruct i; simpl; [reflexivity | apply IH].
Qed.

Lemma nth_error_Some_length {A : Type} (l1 : list A) {B : Type} (l2 : list B) (i : nat) (a : A) :
  length l2 = length l1 -> nth_error l1 i = Some a -> exists b, nth_error l2 i = Some b.
Proof.
  intros Hlen Ha.
  destruct (nth_error l2 i) as [b|] eqn:Hb; [eauto|].
  apply nth_error_None in Hb.
  assert (i < length l1)%nat by (apply nth_error_Some; congruence).
  lia.
Qed.

Lemma filter_partition_length {A : Type} (f : A -> bool) (l : list A) :
  (length (filter f l) + length (filter (fun x => negb (f x)) l) = length l)%nat.
Proof.
  induction l as [|x l IH]; simpl; [reflexivity|].
  destruct (f x); simpl; lia.
Qed.

Lemma dict_get_missing {V : Type} (table : list (string * V)) (key : string) (default : V) :
  (forall v, ~ In (key, v) table) -> dict_get table key default = default.
Proof.
  induction table as [|[k v] rest IH]; intro Hnot; simpl; [reflexivity|].
  destruct (String.eqb k key) eqn:Hk.
  - apply String.eqb_eq in Hk. subst. exfalso. apply (Hnot v). left; reflexivity.
  - apply IH. intros v' Hin. apply (Hnot v'). right; exact Hin.
Qed.

Section RankCombiner.
Import MCDMRanker.

Variable token_sort_ratio : string -> string -> Z.

Abbreviation relevance := (calculate_relevance_score token_sort_ratio).
Abbreviation matrix := (criteria_matrix token_sort_ratio).
Abbreviation ranked := (scored_products token_sort_ratio).
Abbreviation rank := (calculate_mcdm_scores token_sort_ratio).

Lemma has_exact_matches_true (products : list ProductDict) (q : string) :
  has_exact_matches products q = true
  <-> exists p', In p' products /\ exact_match q p' = true.
Proof. unfold has_exact_matches, exact_match. apply existsb_exists. Qed.

Lemma has_exact_matches_false (products : list ProductDict) (q : string) :
  has_exact_matches products q = false
  <-> forall p', In p' products -> exact_match q p' = false.
Proof.
  split.
  - intros H p' Hp'. destruct (exact_match q p') eqn:E; [|reflexivity].
    assert (has_exact_matches products q = true)
      by (apply has_exact_matches_true; eauto).
    congruence.
  - intros H. destruct (has_exact_matches products q) eqn:E; [|reflexivity].
    apply has_exact_matches_true in E. destruct E as [p' [Hin Hex]].
    rewrite (H p' Hin) in Hex. discriminate.
Qed.

Lemma apply_penalties_price (q : string) (c : Criteria) :
  c_price_raw (apply_penalties q c) = c_price_raw c.
Proof.
  destruct c as [r pr tr ex ac]. unfold apply_penalties.
  destruct ex, ac, (_is_searching_for_accessory q); reflexivity.
Qed.

Lemma apply_penalties_trust (q : string) (c : Criteria) :
  c_source_reliability (apply_penalties q c) = c_source_reliability c.
Proof.
  destruct c as [r pr tr ex ac]. unfold apply_penalties.
  destruct ex, ac, (_is_searching_for_accessory q); reflexivity.
Qed.

(** What the second pass leaves in a row's relevance. *)
Lemma apply_penalties_relevance (q : string) (c : Criteria) :
  c_relevance (apply_penalties q c)
  = match c_has_exact_match c,
          c_is_accessory c && negb (_is_searching_for_accessory q) with
    | true, false => c_relevance c
    | false, false => c_relevance c * 0.8
    | true, true => c_relevance c * 0.3
    | false, true => c_relevance c * 0.8 * 0.3
    end.
Proof.
  destruct c as [r pr tr ex ac]. unfold apply_penalties.
  destruct ex, ac, (_is_searching_for_accessory q); reflexivity.
Qed.

Lemma criteria_matrix_length (products : list ProductDict) (q : string) :
  length (matrix products q) = length products.
Proof.
  unfold criteria_matrix.
  destruct (has_exact_matches products q); rewrite ?length_map; reflexivity.
Qed.

Lemma criteria_matrix_nth (products : list ProductDict) (q : string) (i : nat) (p : ProductDict) :
  nth_error products i = Some p ->
  nth_error (matrix products q) i
  = Some (if has_exact_matches products q
          then apply_penalties q (criteria_of token_sort_ratio q p)
          else criteria_of token_sort_ratio q p).
Proof.
  intro Hp. unfold criteria_matrix.
  destruct (has_exact_matches products q);
    rewrite ?nth_error_map, Hp; reflexivity.
Qed.

(** The prices that are normalized are the products' prices. *)
Lemma criteria_matrix_prices (products : list ProductDict) (q : string) :
  map c_price_raw (matrix products q) = map dict_price products.
Proof.
  unfold criteria_matrix.
  destruct (has_exact_matches products q); rewrite ?map_map; apply map_ext; intro p.
  - apply apply_penalties_price.
  - reflexivity.
Qed.

Lemma criteria_matrix_trust (products : list ProductDict) (q : string) (i : nat)
      (p : ProductDict) (c : Criteria) :
  nth_error products i = Some p ->
  nth_error (matrix products q) i = Some c ->
  c_source_reliability c = source_trust p.
Proof.
  intros Hp Hc. rewrite (criteria_matrix_nth _ _ _ _ Hp) in Hc. injection Hc as <-.
  destruct (has_exact_matches products q); [rewrite apply_penalties_trust|]; reflexivity.
Qed.

Lemma final_scores_length (m : list Criteria) : length (final_scores m) = length m.
Proof.
  unfold final_scores.
  rewrite length_map, length_combine, normalize_price_score_length, length_map.
  apply Nat.min_id.
Qed.

Lemma scored_products_length (products : list ProductDict) (q : string) :
  length (ranked products q) = length products.
Proof.
  unfold scored_products.
  rewrite length_map, !length_combine, final_scores_length, criteria_matrix_length.
  lia.
Qed.

(** Row [i] of [ranked_products], before the sort. *)
Lemma scored_products_nth (products : list ProductDict) (q : string) (i : nat) (p : ProductDict) :
  nth_error products i = Some p ->
  exists c np,
    nth_error (matrix products q) i = Some c
    /\ nth_error (normalize_price_score (map dict_price products)) i = Some np
    /\ nth_error (ranked products q) i
       = Some (with_scores p
                 (c_relevance c * 0.75 + np * 0.20 + source_trust p * 0.05)
                 (c_relevance c)).
Proof.
  intro Hp.
  pose proof (criteria_matrix_nth products q i p Hp) as Hc.
  set (c := if has_exact_matches products q
            then apply_penalties q (criteria_of token_sort_ratio q p)
            else criteria_of token_sort_ratio q p) in *.
  destruct (nth_error_Some_length products
              (normalize_price_score (map dict_price products)) i p) as [np Hnp];
    [rewrite normalize_price_score_length; apply length_map | exact Hp |].
  exists c, np. split; [exact Hc|]. split; [exact Hnp|].
  unfold scored_products, final_scores.
  rewrite criteria_matrix_prices.
  rewrite nth_error_map, !nth_error_combine, nth_error_map, nth_error_combine.
  rewrite Hp, Hc, Hnp. cbn [option_map fst snd].
  unfold weighted_score.
  rewrite (criteria_matrix_trust products q i p c Hp Hc).
  reflexivity.
Qed.

Lemma calculate_mcdm_scores_perm (products : list ProductDict) (q : string) :
  Permutation (rank products q) (ranked products q).
Proof.
  unfold calculate_mcdm_scores. destruct products as [|p l].
  - apply Permutation_refl.
  - apply sort_reverse_perm.
Qed.

Lemma calculate_mcdm_scores_sorted (products : list ProductDict) (q : string) :
  sorted_desc mcdm_key (rank products q).
Proof.
  unfold calculate_mcdm_scores. destruct products as [|p l].
  - constructor.
  - apply sort_reverse_sorted.
Qed.

Lemma source_trust_table (p : ProductDict) (s : string) (v : Q) :
  dict_source p = Some s -> In (s, v) source_reliability -> source_trust p = v.
Proof.
  intros Hs Hin. unfold source_trust. rewrite Hs. cbn [get_or].
  unfold source_reliability in Hin. simpl in Hin.
  repeat (destruct Hin as [Hin|Hin]; [injection Hin as <- <-; reflexivity|]).
  contradiction.
Qed.

Lemma source_trust_default (p : ProductDict) :
  (forall s, dict_source p = Some s -> forall v, ~ In (s, v) source_reliability) ->
  source_trust p = 0.5.
Proof.
  intro Hnot. unfold source_trust.
  destruct (dict_source p) as [s|]; cbn [get_or]; [|reflexivity].
  apply dict_get_missing. intro v. apply Hnot. reflexivity.
Qed.

End RankCombiner.

Section RankCombinerClaims.
Import MCDMRanker.

Variable token_sort_ratio : string -> string -> Z.

Hypothesis token_sort_ratio_range :
  forall s1 s2, (0 <= token_sort_ratio s1 s2 <= 100)%Z.

Abbreviation relevance := (calculate_relevance_score token_sort_ratio).
Abbreviation matrix := (criteria_matrix token_sort_ratio).
Abbreviation rank := (calculate_mcdm_scores token_sort_ratio).

(** C1.  [calculate_mcdm_scores] scores and sorts.  The result is a
    rearrangement of the list [ranked] that holds, at the position of
    each product, that product with two more keys: its adjusted
    relevance (the relevance column of the criteria matrix after the
    second pass) and the composite score
    [adjusted * 0.75 + normalized_price * 0.20 + source_trust * 0.05],
    the normalized price being the one of that position among the prices
    of all products.  The source trust is the table's value for a source
    in the table and 0.5 otherwise.  The result is in descending order
    of the composite score. *)
Theorem calculate_mcdm_scores_spec :
  forall (products : list ProductDict) (search_query : string),
    let out := rank products search_query in
    let adjusted := map c_relevance (matrix products search_query) in
    let normalized := normalize_price_score (map dict_price products) in
    (exists ranked,
        length ranked = length products
        /\ (forall i p,
               nth_error products i = Some p ->
               exists rel np,
                 nth_error adjusted i = Some rel
                 /\ nth_error normalized i = Some np
                 /\ nth_error ranked i
                    = Some (with_scores p
                              (rel * 0.75 + np * 0.20 + source_trust p * 0.05) rel))
        /\ Permutation out ranked)
    /\ sorted_desc mcdm_key out
    /\ (forall p s v,
           dict_source p = Some s -> In (s, v) source_reliability -> source_trust p = v)
    /\ (forall p,
           (forall s, dict_source p = Some s -> forall v, ~ In (s, v) source_reliability) ->
           source_trust p = 0.5).
Proof.
  intros products q out adjusted normalized.
  refine (conj _ (conj (calculate_mcdm_scores_sorted _ _ _)
                       (conj source_trust_table source_trust_default))).
  exists (scored_products token_sort_ratio products q).
  refine (conj (scored_products_length _ _ _) (conj _ (calculate_mcdm_scores_perm _ _ _))).
  intros i p Hp.
  destruct (scored_products_nth token_sort_ratio products q i p Hp)
    as [c [np [Hc [Hnp Hrow]]]].
  exists (c_relevance c), np.
  refine (conj _ (conj Hnp Hrow)).
  subst adjusted. rewrite nth_error_map, Hc. reflexivity.
Qed.

(** C4.  The contextual adjustments.  For the product [p] at position
    [i], the relevance [rel] stored in the criteria matrix after the
    second pass, which is the relevance reported with [p] in the result,
    is: the value of [calculate_relevance_score], unchanged, when no
    product of the list is an exact model match for the query; and when
    some product is one, that value times 0.8 if [p] itself is not an
    exact match, and further times 0.3 if [p] is flagged as an accessory
    while the query is not an accessory query. *)
Theorem contextual_adjustments_spec :
  forall (products : list ProductDict) (search_query : string) (i : nat) (p : ProductDict),
    nth_error products i = Some p ->
    let base := relevance (dict_productName p) search_query in
    let penalized :=
      accessory p && negb (_is_searching_for_accessory search_query) in
    exists rel score,
      nth_error (map c_relevance (matrix products search_query)) i = Some rel
      /\ In (with_scores p score rel) (rank products search_query)
      /\ ((forall p', In p' products -> exact_match search_query p' = false) ->
          rel = base)
      /\ ((exists p', In p' products /\ exact_match search_query p' = true) ->
          (exact_match search_query p = true -> penalized = false -> rel = base)
          /\ (exact_match search_query p = false -> penalized = false ->
              rel = base * 0.8)
          /\ (exact_match search_query p = true -> penalized = true ->
              rel = base * 0.3)
          /\ (exact_match search_query p = false -> penalized = true ->
              rel = base * 0.8 * 0.3)
          /\ rel == base * exact_factor search_query p * accessory_factor search_query p).
Proof.
  intros products q i p Hp base penalized.
  destruct (scored_products_nth token_sort_ratio products q i p Hp)
    as [c [np [Hc [Hnp Hrow]]]].
  exists (c_relevance c), (c_relevance c * 0.75 + np * 0.20 + source_trust p * 0.05).
  split; [rewrite nth_error_map, Hc; reflexivity|].
  split.
  { apply (Permutation_in _ (Permutation_sym (calculate_mcdm_scores_perm _ _ _))).
    eapply nth_error_In; exact Hrow. }
  rewrite (criteria_matrix_nth token_sort_ratio products q i p Hp) in Hc.
  injection Hc as <-.
  split.
  - intro Hnone. apply has_exact_matches_false in Hnone. rewrite Hnone. reflexivity.
  - intro Hsome. apply has_exact_matches_true in Hsome. rewrite Hsome.
    rewrite apply_penalties_relevance.
    change (c_has_exact_match (criteria_of token_sort_ratio q p))
      with (exact_match q p).
    change (c_is_accessory (criteria_of token_sort_ratio q p)
            && negb (_is_searching_for_accessory q)) with penalized.
    change (c_relevance (criteria_of token_sort_ratio q p)) with base.
    unfold exact_factor, accessory_factor. fold penalized.
    destruct (exact_match q p), penalized;
      (repeat split; try congruence; try reflexivity; intros; try discriminate; lra).
Qed.

(** C3.  The relevance bound.  Each of the four signals of
    [calculate_relevance_score] lies in [0,1] (the exact coverage with
    its model bonus included), the relevance is their sum weighted by
    0.25, 0.40, 0.10 and 0.25 and so lies in [0,1] itself, and the
    relevance that [calculate_mcdm_scores] keeps and reports for a
    product after its contextual adjustments is at most that value (and
    is not negative). *)
Theorem relevance_bound :
  (forall product_name search_query,
      let a := PyStr.lower product_name in
      let b := PyStr.lower search_query in
      0 <= fuzzy_score token_sort_ratio a b <= 1
      /\ 0 <= exact_score a b <= 1
      /\ 0 <= partial_score a b <= 1
      /\ 0 <= _calculate_category_alignment a b <= 1
      /\ relevance product_name search_query
         == fuzzy_score token_sort_ratio a b * 0.25 + exact_score a b * 0.40
            + partial_score a b * 0.10 + _calculate_category_alignment a b * 0.25
      /\ 0 <= relevance product_name search_query <= 1)
  /\ (forall products search_query i p,
         nth_error products i = Some p ->
         exists rel score,
           nth_error (map c_relevance (matrix products search_query)) i = Some rel
           /\ In (with_scores p score rel) (rank products search_query)
           /\ 0 <= rel <= relevance (dict_productName p) search_query).
Proof.
  split.
  - intros name q a b.
    refine (conj (fuzzy_score_range _ token_sort_ratio_range _ _)
              (conj (exact_score_range _ _)
                 (conj (partial_score_range _ _)
                    (conj (category_alignment_range _ _)
                       (conj (calculate_relevance_score_sum _ _ _)
                             (calculate_relevance_score_range
                                _ token_sort_ratio_range _ _)))))).
  - intros products q i p Hp.
    destruct (scored_products_nth token_sort_ratio products q i p Hp)
      as [c [np [Hc [Hnp Hrow]]]].
    exists (c_relevance c), (c_relevance c * 0.75 + np * 0.20 + source_trust p * 0.05).
    split; [rewrite nth_error_map, Hc; reflexivity|].
    split.
    { apply (Permutation_in _ (Permutation_sym (calculate_mcdm_scores_perm _ _ _))).
      eapply nth_error_In; exact Hrow. }
    rewrite (criteria_matrix_nth token_sort_ratio products q i p Hp) in Hc.
    injection Hc as <-.
    pose proof (calculate_relevance_score_range _ token_sort_ratio_range
                  (dict_productName p) q) as Hbase.
    destruct (has_exact_matches products q).
    + rewrite apply_penalties_relevance.
      change (c_relevance (criteria_of token_sort_ratio q p))
        with (relevance (dict_productName p) q).
      destruct (c_has_exact_match _), (c_is_accessory _ && _); lra.
    + change (c_relevance (criteria_of token_sort_ratio q p))
        with (relevance (dict_productName p) q). lra.
Qed.

End RankCombinerClaims.

(* ================================================================== *)
(** * The deduplicator                                                 *)
(* ================================================================== *)

Section Deduplicator.
Import EnhancedPriceComparisonTool.

Variable ratio : string -> string -> Z.

Abbreviation dup := (is_duplicate_of ratio).
Abbreviation dedup := (_remove_duplicates ratio).

Abbreviation keep_if_new := (EnhancedPriceComparisonTool.keep_if_new ratio).
Abbreviation fresh := (fresh_after dup).

Lemma fresh_snoc (seen l : list Product) (x : Product) :
  fresh seen l -> existsb (dup x) (seen ++ l) = false -> fresh seen (l ++ [x]).
Proof.
  revert seen. induction l as [|y l IH]; intros seen Hl Hx; simpl in *.
  - rewrite app_nil_r in Hx. auto.
  - destruct Hl as [Hy Hl]. split; [exact Hy|].
    apply IH; [exact Hl|]. rewrite <- app_assoc. exact Hx.
Qed.

Lemma fold_keep_fresh (l acc : list Product) :
  fresh [] acc -> fresh [] (fold_left keep_if_new l acc).
Proof.
  revert acc. induction l as [|x l IH]; intros acc Hacc; simpl; [exact Hacc|].
  apply IH. unfold EnhancedPriceComparisonTool.keep_if_new.
  destruct (existsb (dup x) acc) eqn:Hx; [exact Hacc|].
  apply fresh_snoc; [exact Hacc | exact Hx].
Qed.

Lemma fold_keep_of_fresh (l acc : list Product) :
  fresh acc l -> fold_left keep_if_new l acc = (acc ++ l)%list.
Proof.
  revert acc. induction l as [|x l IH]; intros acc Hl; simpl in *.
  - symmetry; apply app_nil_r.
  - destruct Hl as [Hx Hl]. unfold EnhancedPriceComparisonTool.keep_if_new at 2. rewrite Hx.
    rewrite (IH _ Hl), <- app_assoc. reflexivity.
Qed.

Lemma remove_duplicates_fresh (products : list Product) : fresh [] (dedup products).
Proof. apply fold_keep_fresh. exact I. Qed.

Lemma fold_keep_subseq (l acc : list Product) :
  subseq (fold_left keep_if_new l acc) (acc ++ l).
Proof.
  revert acc. induction l as [|x l IH]; intro acc; simpl.
  - rewrite app_nil_r. apply subseq_refl.
  - unfold EnhancedPriceComparisonTool.keep_if_new at 2. destruct (existsb (dup x) acc).
    + apply subseq_insert, IH.
    + specialize (IH (acc ++ [x])%list). rewrite <- app_assoc in IH. exact IH.
Qed.

Lemma fresh_split (seen l : list Product) :
  fresh seen l ->
  forall l1 y l2, l = (l1 ++ y :: l2)%list -> existsb (dup y) (seen ++ l1) = false.
Proof.
  revert seen. induction l as [|x l IH]; intros seen Hl l1 y l2 Heq.
  - destruct l1; discriminate.
  - destruct Hl as [Hx Hl]. destruct l1 as [|z l1]; simpl in Heq.
    + injection Heq as Hxy _. subst y. rewrite app_nil_r. exact Hx.
    + injection Heq as Hxz Hrest. subst z.
      replace (seen ++ x :: l1)%list with ((seen ++ [x]) ++ l1)%list
        by (rewrite <- app_assoc; reflexivity).
      eapply IH; [exact Hl | exact Hrest].
Qed.

Lemma fresh_pairwise (l : list Product) (i j : nat) (x y : Product) :
  fresh [] l -> (i < j)%nat -> nth_error l i = Some x -> nth_error l j = Some y ->
  dup y x = false.
Proof.
  intros Hl Hij Hx Hy.
  destruct (nth_error_split l j Hy) as [l1 [l2 [Heq Hlen]]].
  pose proof (fresh_split [] l Hl l1 y l2 Heq) as Hnone. simpl in Hnone.
  assert (Hin : In x l1).
  { subst l. rewrite nth_error_app1 in Hx by lia. eapply nth_error_In; exact Hx. }
  destruct (dup y x) eqn:Hd; [|reflexivity].
  assert (existsb (dup y) l1 = true) by (apply existsb_exists; eauto).
  congruence.
Qed.

(** C6, amended.  The deduplicator is idempotent, and what it returns is the
    input with some listings left out, in which no listing is classified
    by the equivalence test as a duplicate of a listing before it. *)
Theorem remove_duplicates_idempotent :
  forall products : list Product,
    dedup (dedup products) = dedup products
    /\ subseq (dedup products) products
    /\ (forall i j x y,
           (i < j)%nat ->
           nth_error (dedup products) i = Some x ->
           nth_error (dedup products) j = Some y ->
           dup y x = false).
Proof.
  intro products. split; [|split].
  - unfold _remove_duplicates at 1.
    change (fold_left keep_if_new (dedup products) [] = dedup products).
    rewrite fold_keep_of_fresh; [reflexivity | apply remove_duplicates_fresh].
  - exact (fold_keep_subseq products []).
  - intros i j x y Hij Hx Hy.
    eapply fresh_pairwise; eauto. apply remove_duplicates_fresh.
Qed.

End Deduplicator.

Section DeduplicatorRule.
Import EnhancedPriceComparisonTool.

Variable ratio : string -> string -> Z.

(** [fuzz.ratio] gives 100 to two equal strings. *)
Hypothesis ratio_identical : forall s, ratio s s = 100%Z.

Abbreviation dup := (is_duplicate_of ratio).
Abbreviation dedup := (_remove_duplicates ratio).

(** The denominator [max(p1, p2, 1)]. *)
Lemma price_diff_denominator (p e : Product) :
  let d := Qmax (Qmax (price p) (price e)) 1 in
  1 <= d /\ Qmax (price p) (price e) <= d
  /\ (1 <= Qmax (price p) (price e) -> d == Qmax (price p) (price e)).
Proof.
  cbv zeta. split; [apply Q.le_max_r|]. split; [apply Q.le_max_l|].
  intro H. apply Q.max_l. exact H.
Qed.

Lemma price_diff_lt (p e : Product) (c : Q) :
  price_diff p e < c
  <-> Qabs (price p - price e) < c * Qmax (Qmax (price p) (price e)) 1.
Proof.
  destruct (price_diff_denominator p e) as [Hd _]. cbv zeta in Hd.
  unfold price_diff.
  set (d := Qmax (Qmax (price p) (price e)) 1) in *.
  set (t := Qabs (price p - price e)).
  assert (Hpos : 0 < d) by lra.
  rewrite <- (Qmult_lt_r (t / d) c d Hpos).
  assert (Heq : t / d * d == t) by (field; lra).
  rewrite Heq. reflexivity.
Qed.

Lemma price_diff_sym (p e : Product) : price_diff p e == price_diff e p.
Proof.
  unfold price_diff.
  assert (Ha : Qabs (price p - price e) == Qabs (price e - price p)).
  { rewrite <- Qabs_opp. apply Qabs_wd. ring. }
  assert (Hm : Qmax (price p) (price e) == Qmax (price e) (price p)) by apply Q.max_comm.
  rewrite Ha, Hm. reflexivity.
Qed.

Lemma is_duplicate_same_currency (product existing : Product) :
  currency product = currency existing ->
  (dup product existing = true
   <-> (90 < name_similarity ratio product existing)%Z
       /\ price_diff product existing < 0.05).
Proof.
  intro Hcur. unfold is_duplicate_of.
  rewrite Hcur, String.eqb_refl, andb_true_iff, Z.ltb_lt, negb_true_iff.
  split; intros [Hsim Hdiff]; (split; [exact Hsim|]).
  - apply Qnot_le_lt. intro Hc. apply Qle_bool_iff in Hc. congruence.
  - destruct (Qle_bool 0.05 (price_diff product existing)) eqn:E; [|reflexivity].
    apply Qle_bool_iff in E. lra.
Qed.

Lemma remove_duplicates_pair (a b : Product) :
  dedup [a; b] = if dup b a then [a] else [a; b].
Proof.
  unfold _remove_duplicates, keep_if_new. simpl.
  rewrite orb_false_r. destruct (dup b a); reflexivity.
Qed.

Lemma name_similarity_identical (a b : Product) :
  product_name a = product_name b -> name_similarity ratio b a = 100%Z.
Proof. intro H. unfold name_similarity. rewrite H. apply ratio_identical. Qed.

(** C5, amended.  Two listings [a] (seen first) and [b] of one currency are
    duplicates exactly when their name similarity exceeds 90 and their
    relative price difference [|p1-p2| / max(p1,p2,1)] is below 0.05,
    and then [b] is dropped from the pair, otherwise both are kept.  In
    particular, for identical names: a relative price difference of 2%
    (or less) collapses the pair to one listing and one of 8% (or more)
    keeps both; so do prices that differ by 2% of either of them, and
    prices, the larger at least 1, that differ by 8% of either of
    them. *)
Theorem duplicates_same_currency :
  forall a b : Product,
    currency a = currency b ->
    (dup b a = true
     <-> (90 < name_similarity ratio b a)%Z /\ price_diff b a < 0.05)
    /\ dedup [a; b] = (if dup b a then [a] else [a; b])
    /\ (product_name a = product_name b ->
        (price_diff b a <= 0.02 -> dedup [a; b] = [a])
        /\ (0.08 <= price_diff b a -> dedup [a; b] = [a; b])
        /\ (Qabs (price a - price b) <= 0.02 * Qmax (price a) (price b) ->
            dedup [a; b] = [a])
        /\ (1 <= Qmax (price a) (price b) ->
            0.08 * Qmin (price a) (price b) <= Qabs (price a - price b) ->
            dedup [a; b] = [a; b])).
Proof.
  intros a b Hcur. symmetry in Hcur.
  pose proof (is_duplicate_same_currency b a Hcur) as Hrule.
  refine (conj Hrule (conj (remove_duplicates_pair a b) _)).
  intro Hname. rewrite remove_duplicates_pair.
  pose proof (name_similarity_identical a b Hname) as Hsim.
  assert (Hyes : price_diff b a < 0.05 -> (if dup b a then [a] else [a; b]) = [a]).
  { intro Hlt. assert (Hd : dup b a = true) by (apply Hrule; split; [lia | exact Hlt]).
    rewrite Hd. reflexivity. }
  assert (Hno : 0.05 <= price_diff b a -> (if dup b a then [a] else [a; b]) = [a; b]).
  { intro Hge. destruct (dup b a) eqn:Hd; [|reflexivity].
    destruct (proj1 Hrule eq_refl) as [_ Hlt]. lra. }
  destruct (price_diff_denominator b a) as [Hd1 [Hd2 Hd3]]. cbv zeta in Hd1, Hd2, Hd3.
  assert (Hmax : Qmax (price a) (price b) == Qmax (price b) (price a)) by apply Q.max_comm.
  assert (Habs : Qabs (price a - price b) == Qabs (price b - price a)).
  { rewrite <- Qabs_opp. apply Qabs_wd. ring. }
  refine (conj _ (conj _ (conj _ _))).
  - intro H. apply Hyes. lra.
  - intro H. apply Hno. lra.
  - intro H. apply Hyes. apply price_diff_lt. rewrite <- Habs. rewrite Hmax in H. lra.
  - intros Hone H. apply Hno.
    rewrite Hmax in Hone. specialize (Hd3 Hone).
    unfold price_diff. rewrite <- Habs, Hd3. rewrite <- Hmax in *.
    apply Qle_shift_div_l; [lra|].
    destruct (Qlt_le_dec (price a) (price b)) as [Hlt | Hle].
    + rewrite (Q.max_r (price a) (price b)) in * by lra.
      rewrite (Q.min_l (price a) (price b)) in H by lra.
      rewrite Qabs_neg in * by lra. lra.
    + rewrite (Q.max_l (price a) (price b)) in * by lra.
      rewrite (Q.min_r (price a) (price b)) in H by lra.
      rewrite Qabs_pos in * by lra. lra.
Qed.

End DeduplicatorRule.

(* ================================================================== *)
(** * Name similarity and letter case                                  *)
(* ================================================================== *)

Section LetterCase.
Import PyStr.

Lemma lower_char_upper_char (c : ascii) : lower_char (upper_char c) = lower_char c.
Proof. destruct c as [[] [] [] [] [] [] [] []]; reflexivity. Qed.

Lemma lower_char_idempotent (c : ascii) : lower_char (lower_char c) = lower_char c.
Proof. destruct c as [[] [] [] [] [] [] [] []]; reflexivity. Qed.

Lemma lower_upper (s : string) : lower (upper s) = lower s.
Proof.
  induction s as [|c s IH]; simpl; [reflexivity|].
  rewrite lower_char_upper_char, IH. reflexivity.
Qed.

Lemma lower_idempotent (s : string) : lower (lower s) = lower s.
Proof.
  induction s as [|c s IH]; simpl; [reflexivity|].
  rewrite lower_char_idempotent, IH. reflexivity.
Qed.

End LetterCase.

Section SimilarityCase.
Import EnhancedPriceComparisonTool.

Variable ratio : string -> string -> Z.

Lemma case_variant_lower_eq (s t : string) :
  case_variant s t -> PyStr.lower t = PyStr.lower s.
Proof.
  induction 1 as [|c s t _ IH|c s t _ _ IH|c s t _ _ IH]; simpl.
  - reflexivity.
  - rewrite IH. reflexivity.
  - rewrite lower_char_upper_char, IH. reflexivity.
  - rewrite lower_char_idempotent, IH. reflexivity.
Qed.

Lemma upper_char_fixed (c : ascii) :
  PyStr.is_lower c = false -> PyStr.upper_char c = c.
Proof. unfold PyStr.upper_char. intros ->. reflexivity. Qed.

Lemma lower_char_fixed (c : ascii) :
  PyStr.is_upper c = false -> PyStr.lower_char c = c.
Proof. unfold PyStr.lower_char. intros ->. reflexivity. Qed.

(** The name in capitals, and the name in small letters, are case
    variants of the name. *)
Lemma case_variant_of_upper (s : string) : case_variant s (PyStr.upper s).
Proof.
  induction s as [|c s IH]; simpl; [constructor|].
  destruct (PyStr.is_lower c) eqn:E.
  - apply case_variant_upper; assumption.
  - rewrite (upper_char_fixed c E). apply case_variant_same, IH.
Qed.

Lemma case_variant_of_lower (s : string) : case_variant s (PyStr.lower s).
Proof.
  induction s as [|c s IH]; simpl; [constructor|].
  destruct (PyStr.is_upper c) eqn:E.
  - apply case_variant_lower; assumption.
  - rewrite (lower_char_fixed c E). apply case_variant_same, IH.
Qed.

Lemma is_duplicate_of_recased (product existing : Product) (name1 name2 : string) :
  case_variant (product_name product) name1 ->
  case_variant (product_name existing) name2 ->
  name_similarity ratio (rename product name1) (rename existing name2)
  = name_similarity ratio product existing
  /\ is_duplicate_of ratio (rename product name1) (rename existing name2)
     = is_duplicate_of ratio product existing.
Proof.
  intros H1 H2.
  assert (Hsim : name_similarity ratio (rename product name1) (rename existing name2)
                 = name_similarity ratio product existing).
  { unfold name_similarity, rename. cbn [product_name].
    rewrite (case_variant_lower_eq _ _ H1), (case_variant_lower_eq _ _ H2). reflexivity. }
  split; [exact Hsim|]. unfold is_duplicate_of. rewrite Hsim. reflexivity.
Qed.

Lemma keep_if_new_in_capitals (acc : list Product) (x : Product) :
  keep_if_new ratio (map in_capitals acc) (in_capitals x)
  = map in_capitals (keep_if_new ratio acc x).
Proof.
  unfold keep_if_new.
  assert (Hsame : existsb (is_duplicate_of ratio (in_capitals x)) (map in_capitals acc)
                  = existsb (is_duplicate_of ratio x) acc).
  { induction acc as [|y acc IH]; [reflexivity|]. simpl. rewrite IH. f_equal.
    apply (is_duplicate_of_recased x y); apply case_variant_of_upper. }
  rewrite Hsame. destruct (existsb (is_duplicate_of ratio x) acc); [reflexivity|].
  rewrite map_app. reflexivity.
Qed.

Lemma fold_keep_in_capitals (l acc : list Product) :
  fold_left (keep_if_new ratio) (map in_capitals l) (map in_capitals acc)
  = map in_capitals (fold_left (keep_if_new ratio) l acc).
Proof.
  revert acc. induction l as [|x l IH]; intro acc; [reflexivity|].
  simpl. rewrite keep_if_new_in_capitals. apply IH.
Qed.

(** C9, amended.  For display names made of ASCII characters the name
    similarity of the duplicate test is insensitive to letter case:
    replacing either name by one that differs from it in the case of
    letters only changes neither the similarity nor the duplicate
    decision, whatever the prices and currencies; the name in capitals
    and the name in small letters are such replacements, and writing
    every name of a list in capitals changes nothing in what the
    deduplicator keeps. *)
Theorem name_similarity_case_insensitive :
  forall (product existing : Product) (name1 name2 : string),
    ascii_only (product_name product) ->
    ascii_only (product_name existing) ->
    case_variant (product_name product) name1 ->
    case_variant (product_name existing) name2 ->
    name_similarity ratio (rename product name1) (rename existing name2)
    = name_similarity ratio product existing
    /\ is_duplicate_of ratio (rename product name1) (rename existing name2)
       = is_duplicate_of ratio product existing
    /\ case_variant (product_name product) (PyStr.upper (product_name product))
    /\ case_variant (product_name product) (PyStr.lower (product_name product))
    /\ (forall products : list Product,
           Forall (fun p => ascii_only (product_name p)) products ->
           _remove_duplicates ratio (map in_capitals products)
           = map in_capitals (_remove_duplicates ratio products)).
Proof.
  intros product existing name1 name2 _ _ H1 H2.
  destruct (is_duplicate_of_recased product existing name1 name2 H1 H2) as [Hsim Hdup].
  refine (conj Hsim (conj Hdup (conj (case_variant_of_upper _)
                                     (conj (case_variant_of_lower _) _)))).
  intros products _. exact (fold_keep_in_capitals products []).
Qed.

End SimilarityCase.

(* ================================================================== *)
(** * The search pipeline                                              *)
(* ================================================================== *)

Section Pipeline.
Import EnhancedPriceComparisonTool.

Variable ratio : string -> string -> Z.
Variable token_sort_ratio : string -> string -> Z.

(** With [return_exceptions=True], [gather] returns, one value per
    task. *)
Lemma gather_returns (tasks : list (outcome (list Product))) :
  gather true tasks
  = Return (map (fun t => match t with
                          | Return l => GList l
                          | Raise e => GExn e
                          end) tasks).
Proof.
  induction tasks as [|t tasks IH]; simpl; [reflexivity|].
  rewrite IH. destruct t; reflexivity.
Qed.

Lemma collect_from (results : list gathered) (acc : list Product) :
  fold_left (fun all_products result =>
               match result with
               | GList l => (all_products ++ l)%list
               | GExn _ => all_products
               end) results acc
  = (acc ++ concat (map (fun r => match r with GList l => l | GExn _ => [] end) results))%list.
Proof.
  revert acc. induction results as [|r results IH]; intro acc; simpl.
  - symmetry; apply app_nil_r.
  - rewrite IH. destruct r; simpl; [rewrite app_assoc|]; reflexivity.
Qed.

(** What is collected is what the retrievals that did not raise
    returned, in order. *)
Lemma collect_gathered (retrievals : list (outcome (list Product))) :
  collect (map (fun t => match t with
                         | Return l => GList l
                         | Raise e => GExn e
                         end) (map search retrievals))
  = concat (map listings_of retrievals).
Proof.
  unfold collect. rewrite collect_from. simpl. rewrite !map_map.
  f_equal. apply map_ext. intros [l|e]; simpl; [reflexivity|].
  destruct (exn_is_Exception e); reflexivity.
Qed.

Lemma listings_of_successes (retrievals : list (outcome (list Product))) :
  concat (map listings_of (filter succeeded retrievals))
  = concat (map listings_of retrievals).
Proof.
  induction retrievals as [|[l|e] rest IH]; simpl; [reflexivity | | exact IH].
  rewrite IH. reflexivity.
Qed.

Abbreviation rank_from all_products query :=
  (MCDMRanker.filter_low_relevance
     (MCDMRanker.calculate_mcdm_scores token_sort_ratio
        (map to_dict (_remove_duplicates ratio all_products)) query)
     0.2).

Lemma search_products_returns (retrievals : list (outcome (list Product))) (query : string) :
  search_products ratio token_sort_ratio retrievals query
  = Return (rank_from (concat (map listings_of retrievals)) query).
Proof.
  unfold search_products. destruct retrievals as [|r rest]; [reflexivity|].
  rewrite gather_returns, collect_gathered. reflexivity.
Qed.

(** C7.  Partial failure.  Whatever the retrievals of the dispatched
    sources do, return a list or raise, [search_products] returns: its
    result is the ranked and filtered list computed from the
    concatenation, in order, of the lists of the sources that returned
    one; a source that raised contributes no listing, and the result is
    the one the pipeline gives when only the successful sources are
    dispatched. *)
Theorem search_products_partial_failure :
  forall (retrievals : list (outcome (list Product))) (query : string),
    let successes := filter succeeded retrievals in
    let collected := concat (map listings_of successes) in
    search_products ratio token_sort_ratio retrievals query
    = Return (rank_from collected query)
    /\ search_products ratio token_sort_ratio retrievals query
       = search_products ratio token_sort_ratio successes query
    /\ (forall results,
           gather true (map search retrievals) = Return results ->
           collect results = collected)
    /\ (forall r, In r retrievals -> succeeded r = false -> listings_of r = [])
    /\ length successes
       = (length retrievals - length (filter (fun r => negb (succeeded r)) retrievals))%nat.
Proof.
  intros retrievals query successes collected. subst successes collected.
  refine (conj _ (conj _ (conj _ (conj _ _)))).
  - rewrite search_products_returns, listings_of_successes. reflexivity.
  - rewrite !search_products_returns, listings_of_successes. reflexivity.
  - intros results Hg. rewrite gather_returns in Hg. injection Hg as <-.
    rewrite collect_gathered, listings_of_successes. reflexivity.
  - intros [l|e] _ H; [discriminate | reflexivity].
  - pose proof (filter_partition_length succeeded retrievals). lia.
Qed.

End Pipeline.

(* ================================================================== *)
(** * Category alignment                                               *)
(* ================================================================== *)

Section CategoryAlignment.
Import MCDMRanker.

Lemma any_keyword_in_false (keywords : list string) (s : string) :
  any_keyword_in keywords s = false
  <-> forall keyword, In keyword keywords -> PyStr.contains keyword s = false.
Proof.
  unfold any_keyword_in. split.
  - intros H keyword Hin. destruct (PyStr.contains keyword s) eqn:E; [|reflexivity].
    assert (existsb (fun keyword => PyStr.contains keyword s) keywords = true)
      by (apply existsb_exists; eauto).
    congruence.
  - intro H. destruct (existsb _ keywords) eqn:E; [|reflexivity].
    apply existsb_exists in E. destruct E as [keyword [Hin Hc]].
    rewrite (H keyword Hin) in Hc. discriminate.
Qed.

(** The query has no category when no keyword of the table occurs in
    it. *)
Lemma query_category_none (query : string) :
  query_category_of query = None
  <-> forall category keywords keyword,
      In (category, keywords) categories -> In keyword keywords ->
      PyStr.contains keyword query = false.
Proof.
  unfold query_category_of. split.
  - intros H category keywords keyword Hin Hkw.
    destruct (find _ categories) as [[c k]|] eqn:Hfind; [discriminate|].
    pose proof (find_none _ _ Hfind (category, keywords) Hin) as Hnone.
    cbn [snd] in Hnone. rewrite any_keyword_in_false in Hnone. auto.
  - intro H.
    destruct (find _ categories) as [[c k]|] eqn:Hfind; [|reflexivity].
    apply find_some in Hfind. destruct Hfind as [Hin Hany]. cbn [snd] in Hany.
    assert (any_keyword_in k query = false)
      by (apply any_keyword_in_false; intros kw Hkw; eapply H; eauto).
    congruence.
Qed.

(** C10, amended.  The category alignment is the neutral 0.5 when the
    query contains no category keyword.  When the query has a category
    and the listing name contains neither a keyword of that category nor
    an accessory keyword, the alignment is 0.5 for the categories audio
    and accessory, and 0.3 for the categories phone, laptop and
    tablet. *)
Theorem category_alignment_unclassified :
  forall (product_name query : string),
    ((forall category keywords keyword,
         In (category, keywords) categories -> In keyword keywords ->
         PyStr.contains keyword query = false) ->
     _calculate_category_alignment product_name query = 0.5)
    /\ (forall category,
           query_category_of query = Some category ->
           any_keyword_in (dict_get categories category []) product_name = false ->
           any_keyword_in (dict_get categories "accessory" []) product_name = false ->
           (category = "audio" \/ category = "accessory" ->
            _calculate_category_alignment product_name query = 0.5)
           /\ (category = "phone" \/ category = "laptop" \/ category = "tablet" ->
               _calculate_category_alignment product_name query = 0.3)).
Proof.
  intros product_name query. split.
  - intro Hnone. apply query_category_none in Hnone.
    unfold _calculate_category_alignment. rewrite Hnone. reflexivity.
  - intros category Hcat Hmatch Hacc.
    unfold _calculate_category_alignment. rewrite Hcat. cbv zeta.
    rewrite Hmatch, Hacc.
    split.
    + intros [-> | ->]; reflexivity.
    + intros [-> | [-> | ->]]; reflexivity.
Qed.

End CategoryAlignment.

(* ================================================================== *)
(** * The reference [fuzzywuzzy] functions return percentages          *)
(* ================================================================== *)

Module FuzzFacts.
Import Fuzz.

Lemma common_prefix_len_le (a b : list ascii) :
  (common_prefix_len a b <= length a)%nat /\ (common_prefix_len a b <= length b)%nat.
Proof.
  revert b. induction a as [|x a IH]; intro b; simpl; [lia|].
  destruct b as [|y b]; simpl; [lia|].
  destruct (Ascii.eqb x y); [|lia].
  destruct (IH b). lia.
Qed.

Lemma scan_b_inside (na nb : nat) (x b : list ascii) (i j : nat) (best : block) :
  inside na nb best -> (i + length x <= na)%nat -> (j + length b <= nb)%nat ->
  inside na nb (scan_b x b i j best).
Proof.
  revert j best. induction b as [|c b IH]; intros j best Hbest Hi Hj; [exact Hbest|].
  cbn [scan_b]. apply IH; [|exact Hi | simpl in Hj; lia].
  destruct (block_size best <? common_prefix_len x (c :: b))%nat; [|exact Hbest].
  destruct (common_prefix_len_le x (c :: b)).
  unfold inside. cbn [fst snd]. lia.
Qed.

Lemma scan_a_inside (na nb : nat) (a b : list ascii) (i : nat) (best : block) :
  inside na nb best -> (i + length a <= na)%nat -> (length b <= nb)%nat ->
  inside na nb (scan_a a b i best).
Proof.
  revert i best. induction a as [|c a IH]; intros i best Hbest Hi Hb; [exact Hbest|].
  cbn [scan_a]. apply IH; [|simpl in Hi; lia | exact Hb].
  apply scan_b_inside; [exact Hbest | exact Hi | simpl; exact Hb].
Qed.

Lemma find_longest_match_inside (a b : list ascii) :
  inside (length a) (length b) (find_longest_match a b).
Proof.
  apply scan_a_inside; [unfold inside; simpl; lia | simpl; lia | lia].
Qed.

Lemma matching_size_le (fuel : nat) (a b : list ascii) :
  (matching_size fuel a b <= length a)%nat /\ (matching_size fuel a b <= length b)%nat.
Proof.
  revert a b. induction fuel as [|fuel IH]; intros a b; cbn [matching_size]; [lia|].
  pose proof (find_longest_match_inside a b) as Hin.
  destruct (find_longest_match a b) as [[i j] k]. unfold inside in Hin. cbn [fst snd] in Hin.
  destruct (k =? 0)%nat; [lia|].
  destruct (IH (firstn i a) (firstn j b)) as [Hl1 Hl2].
  destruct (IH (skipn (i + k) a) (skipn (j + k) b)) as [Hr1 Hr2].
  rewrite length_firstn in Hl1, Hl2. rewrite length_skipn in Hr1, Hr2.
  lia.
Qed.

Lemma matcher_ratio_range (a b : list ascii) : 0 <= matcher_ratio a b <= 1.
Proof.
  unfold matcher_ratio.
  destruct (length a + length b =? 0)%nat eqn:Hz; [lra|].
  apply Nat.eqb_neq in Hz.
  destruct (matching_size_le (length a) a b) as [Ha Hb].
  set (m := matching_size (length a) a b) in *.
  assert (Hpos : 0 < inject_Z (Z.of_nat (length a + length b))).
  { change 0 with (inject_Z 0). rewrite <- Zlt_Qlt. lia. }
  assert (Hm : 0 <= inject_Z (Z.of_nat m)).
  { change 0 with (inject_Z 0). rewrite <- Zle_Qle. lia. }
  assert (Hle : 2 * inject_Z (Z.of_nat m) <= inject_Z (Z.of_nat (length a + length b))).
  { change 2 with (inject_Z 2). rewrite <- inject_Z_mult, <- Zle_Qle. lia. }
  split.
  - apply Qle_shift_div_l; [exact Hpos | lra].
  - apply Qle_shift_div_r; [exact Hpos | lra].
Qed.

Lemma intr_range (x : Q) : 0 <= x <= 100 -> (0 <= intr x <= 100)%Z.
Proof.
  intros [Hlo Hhi]. unfold intr.
  pose proof (Qfloor_le x) as Hfl.
  pose proof (Qfloor_resp_le _ _ Hlo) as H0.
  pose proof (Qfloor_resp_le _ _ Hhi) as H100.
  change (Qfloor 0) with 0%Z in H0. change (Qfloor 100) with 100%Z in H100.
  set (f := Qfloor x) in *.
  destruct (Z.eq_dec f 100) as [Hf|Hf].
  - assert (Hd : x - inject_Z f == 0).
    { rewrite Hf in *. change (inject_Z 100) with 100 in *. lra. }
    assert (E1 : Qeq_bool (x - inject_Z f) (1 # 2) = false).
    { destruct (Qeq_bool _ _) eqn:E; [|reflexivity].
      apply Qeq_bool_iff in E. rewrite Hd in E. discriminate. }
    assert (E2 : Qle_bool (x - inject_Z f) (1 # 2) = true).
    { apply Qle_bool_iff. rewrite Hd. discriminate. }
    rewrite E1, E2. lia.
  - destruct (Qeq_bool _ _); [destruct (Z.even f)|destruct (Qle_bool _ _)]; lia.
Qed.

Lemma ratio_range (s1 s2 : string) : (0 <= ratio s1 s2 <= 100)%Z.
Proof.
  unfold ratio.
  destruct (String.eqb s1 s2); [lia|].
  destruct (_ || _); [lia|].
  apply intr_range.
  pose proof (matcher_ratio_range (list_ascii_of_string s1) (list_ascii_of_string s2)).
  lra.
Qed.

Lemma ratio_identical (s : string) : ratio s s = 100%Z.
Proof. unfold ratio. rewrite String.eqb_refl. reflexivity. Qed.

Lemma token_sort_ratio_range (s1 s2 : string) : (0 <= token_sort_ratio s1 s2 <= 100)%Z.
Proof. apply ratio_range. Qed.

End FuzzFacts.

(* ================================================================== *)
(** * The program on the sample inputs                                 *)
(* ================================================================== *)

Section OnSamples.
Import MCDMRanker EnhancedPriceComparisonTool Samples.

Abbreviation tsr := Fuzz.token_sort_ratio.

(** The ranking of the three listings of the scenario: the phone, the
    older phone, the case cover, in descending composite score. *)
Lemma calculate_mcdm_scores_spec_witness :
  sorted_desc mcdm_key (calculate_mcdm_scores tsr products query)
  /\ map dict_productName (calculate_mcdm_scores tsr products query)
     = map dict_productName [phone; older_phone; case_cover].
Proof.
  split.
  - exact (proj1 (proj2 (calculate_mcdm_scores_spec tsr products query))).
  - vm_compute. reflexivity.
Defined.

(** Filtering a sorted scored list at 0.3 drops its second element and
    leaves a sorted list. *)
Lemma filter_low_relevance_spec_witness :
  sorted_desc mcdm_key scored_products
  /\ sorted_desc mcdm_key (filter_low_relevance scored_products 0.3)
  /\ map dict_productName (filter_low_relevance scored_products 0.3) = ["first"; "third"].
Proof.
  assert (Hs : sorted_desc mcdm_key scored_products).
  { unfold sorted_desc, scored_products.
    repeat constructor; vm_compute; discriminate. }
  refine (conj Hs (conj _ _)).
  - exact (proj1 (proj2 (proj2 (proj2 (proj2
             (filter_low_relevance_spec scored_products 0.3))))) Hs).
  - vm_compute. reflexivity.
Defined.

(** The relevance of the phone of the scenario is in [0,1]. *)
Lemma relevance_bound_witness :
  (forall s1 s2, (0 <= tsr s1 s2 <= 100)%Z)
  /\ 0 <= calculate_relevance_score tsr (dict_productName phone) query <= 1.
Proof.
  split.
  - exact FuzzFacts.token_sort_ratio_range.
  - apply (proj1 (relevance_bound tsr FuzzFacts.token_sort_ratio_range)
             (dict_productName phone) query).
Defined.

(** The case cover of the scenario carries the exact model token and is
    an accessory: its relevance is multiplied by 0.3 only. *)
Lemma contextual_adjustments_spec_witness :
  nth_error products 1 = Some case_cover
  /\ exists rel score,
      In (with_scores case_cover score rel) (calculate_mcdm_scores tsr products query)
      /\ rel = calculate_relevance_score tsr (dict_productName case_cover) query * 0.3.
Proof.
  split; [reflexivity|].
  destruct (contextual_adjustments_spec tsr products query 1 case_cover eq_refl)
    as [rel [score [_ [Hin [_ Hsome]]]]].
  exists rel, score. split; [exact Hin|].
  refine (proj1 (proj2 (proj2 (Hsome _))) _ _).
  - exists phone. split; [left; reflexivity | vm_compute; reflexivity].
  - vm_compute. reflexivity.
  - vm_compute. reflexivity.
Defined.

(** Identical names, one currency: 100 and 102 collapse, 100 and 108 are
    both kept. *)
Lemma duplicates_same_currency_witness :
  (forall s, Fuzz.ratio s s = 100%Z)
  /\ currency offer_100 = currency offer_102
  /\ _remove_duplicates Fuzz.ratio [offer_100; offer_102] = [offer_100]
  /\ _remove_duplicates Fuzz.ratio [offer_100; offer_108] = [offer_100; offer_108].
Proof.
  refine (conj FuzzFacts.ratio_identical (conj eq_refl (conj _ _))).
  - destruct (duplicates_same_currency Fuzz.ratio FuzzFacts.ratio_identical
                offer_100 offer_102 eq_refl) as [_ [_ Hsame]].
    destruct (Hsame eq_refl) as [_ [_ [Hcollapse _]]].
    apply Hcollapse. vm_compute. discriminate.
  - destruct (duplicates_same_currency Fuzz.ratio FuzzFacts.ratio_identical
                offer_100 offer_108 eq_refl) as [_ [_ Hsame]].
    destruct (Hsame eq_refl) as [_ [_ [_ Hkept]]].
    apply Hkept; vm_compute; discriminate.
Defined.

(** Deduplicating four offers twice gives what deduplicating them once
    gives: the first and the last. *)
Lemma remove_duplicates_idempotent_witness :
  _remove_duplicates Fuzz.ratio
    (_remove_duplicates Fuzz.ratio [offer_100; offer_102; offer_100; offer_108])
  = _remove_duplicates Fuzz.ratio [offer_100; offer_102; offer_100; offer_108]
  /\ _remove_duplicates Fuzz.ratio [offer_100; offer_102; offer_100; offer_108]
     = [offer_100; offer_108].
Proof.
  split.
  - exact (proj1 (remove_duplicates_idempotent Fuzz.ratio
                    [offer_100; offer_102; offer_100; offer_108])).
  - vm_compute. reflexivity.
Defined.

(** Two of four sources fail: the two listings that survive
    deduplication and filtering come from the other two. *)
Lemma search_products_partial_failure_witness :
  search_products Fuzz.ratio tsr retrievals query
  = search_products Fuzz.ratio tsr (filter succeeded retrievals) query
  /\ length (filter succeeded retrievals) = 2%nat
  /\ exists result,
      search_products Fuzz.ratio tsr retrievals query = Return result
      /\ map dict_productName result
         = ["Apple iPhone 16 Pro Max 256 GB"; "iPhone 16 Pro Max Case Cover Silicon"].
Proof.
  refine (conj _ (conj eq_refl _)).
  - exact (proj1 (proj2 (search_products_partial_failure Fuzz.ratio tsr retrievals query))).
  - eexists. split.
    + exact (proj1 (search_products_partial_failure Fuzz.ratio tsr retrievals query)).
    + vm_compute. reflexivity.
Defined.

(** In the scenario the case cover is the cheapest and the phone the
    dearest listing: their normalized price scores are 1 and 0. *)
Lemma normalize_price_score_monotone_witness :
  dict_price case_cover <= dict_price phone
  /\ (forall sa sb,
         nth_error (normalize_price_score (map dict_price products)) 1 = Some sa ->
         nth_error (normalize_price_score (map dict_price products)) 0 = Some sb ->
         sb <= sa)
  /\ map Qred (normalize_price_score (map dict_price products))
     = [0; 1; Qred (15900 # 135401)].
Proof.
  assert (Hle : dict_price case_cover <= dict_price phone) by (vm_compute; discriminate).
  refine (conj Hle (conj _ _)).
  - intros sa sb Ha Hb.
    exact (proj1 (proj2 (normalize_price_score_monotone products))
             1%nat 0%nat case_cover phone sa sb eq_refl eq_refl eq_refl Ha Hb Hle).
  - vm_compute. reflexivity.
Defined.

(** The name in capitals is as similar to the original as the original
    is to itself. *)
Lemma name_similarity_case_insensitive_witness :
  ascii_only (product_name offer_100)
  /\ case_variant (product_name offer_100) "GALAXY S24 ULTRA"
  /\ name_similarity Fuzz.ratio (rename offer_100 "GALAXY S24 ULTRA") offer_100
     = name_similarity Fuzz.ratio offer_100 offer_100
  /\ is_duplicate_of Fuzz.ratio (rename offer_100 "GALAXY S24 ULTRA") offer_100 = true.
Proof.
  assert (Hascii : ascii_only (product_name offer_100)) by (vm_compute; reflexivity).
  assert (Hcaps : case_variant (product_name offer_100) "GALAXY S24 ULTRA")
    by exact (case_variant_of_upper (product_name offer_100)).
  assert (Hsame : case_variant (product_name offer_100) (product_name offer_100))
    by (unfold offer_100, offer; cbn [product_name]; repeat apply case_variant_same;
        apply case_variant_nil).
  refine (conj Hascii (conj Hcaps (conj _ _))).
  - exact (proj1 (name_similarity_case_insensitive Fuzz.ratio offer_100 offer_100
                    "GALAXY S24 ULTRA" (product_name offer_100)
                    Hascii Hascii Hcaps Hsame)).
  - eapply eq_trans.
    + exact (proj1 (proj2 (name_similarity_case_insensitive Fuzz.ratio
                             offer_100 offer_100 "GALAXY S24 ULTRA"
                             (product_name offer_100) Hascii Hascii Hcaps Hsame))).
    + vm_compute. reflexivity.
Defined.

(** A listing with no audio and no accessory keyword under an audio
    query is neutral; under a phone query it gets 0.3. *)
Lemma category_alignment_unclassified_witness :
  _calculate_category_alignment "bluetooth dongle" "wireless earbuds" = 0.5
  /\ _calculate_category_alignment "samsung tv" "iphone 16" = 0.3
  /\ _calculate_category_alignment "samsung tv" "washing machine" = 0.5.
Proof.
  refine (conj _ (conj _ _)).
  - refine (proj1 (proj2 (category_alignment_unclassified
                            "bluetooth dongle" "wireless earbuds")
                     "audio" eq_refl eq_refl eq_refl) _).
    left; reflexivity.
  - refine (proj2 (proj2 (category_alignment_unclassified "samsung tv" "iphone 16")
                     "phone" eq_refl eq_refl eq_refl) _).
    left; reflexivity.
  - apply (proj1 (category_alignment_unclassified "samsung tv" "washing machine")).
    intros category keywords keyword Hc Hk.
    unfold categories in Hc. simpl in Hc.
    repeat (destruct Hc as [Hc|Hc];
            [injection Hc as <- <-; simpl in Hk;
             repeat (destruct Hk as [<-|Hk]; [reflexivity|]); contradiction|]).
    contradiction.
Defined.

(** C9, as stated, fails: ["ultra s24 galaxy"] has the tokens of
    ["galaxy s24 ultra"] in another order, yet its similarity to it is
    below the duplicate threshold while that of the name to itself is
    100, and the duplicate decision changes with it. *)
Lemma name_similarity_token_order_counterexample :
  Permutation (PyStr.split (PyStr.lower (product_name offer_reordered)))
              (PyStr.split (PyStr.lower (product_name offer_100)))
  /\ name_similarity Fuzz.ratio offer_100 offer_100 = 100%Z
  /\ name_similarity Fuzz.ratio offer_reordered offer_100 = 38%Z
  /\ _remove_duplicates Fuzz.ratio [offer_100; offer_100] = [offer_100]
  /\ _remove_duplicates Fuzz.ratio [offer_100; offer_reordered]
     = [offer_100; offer_reordered].
Proof.
  refine (conj _ (conj _ (conj _ (conj _ _)))); try (vm_compute; reflexivity).
  change (Permutation ["ultra"; "s24"; "galaxy"] ["galaxy"; "s24"; "ultra"]).
  eapply perm_trans; [apply perm_swap|].
  eapply perm_trans; [apply perm_skip, perm_swap|].
  apply perm_swap.
Qed.

(** C10, as stated, fails: the query ["iphone"] is a phone query and
    ["samsung tv"] contains no phone keyword and no accessory keyword,
    yet the alignment is 0.3, not 0.5. *)
Lemma category_alignment_counterexample :
  query_category_of "iphone" = Some "phone"
  /\ any_keyword_in (dict_get categories "phone" []) "samsung tv" = false
  /\ any_keyword_in (dict_get categories "accessory" []) "samsung tv" = false
  /\ _calculate_category_alignment "samsung tv" "iphone" = 0.3
  /\ ~ _calculate_category_alignment "samsung tv" "iphone" == 0.5.
Proof.
  refine (conj _ (conj _ (conj _ (conj _ _)))); try (vm_compute; reflexivity).
  vm_compute. discriminate.
Qed.

End OnSamples.

(* ================================================================== *)
(** * More on the price normalizer                                     *)
(* ================================================================== *)

Section PriceNormalizerRange.
Import MCDMRanker.

Lemma fold_left_Qmin_glb (l : list Q) (x c : Q) :
  c <= x -> (forall p, In p l -> c <= p) -> c <= fold_left Qmin l x.
Proof.
  revert x. induction l as [|y l IH]; intros x Hx Hl; simpl; [exact Hx|].
  apply IH.
  - apply Q.min_glb; [exact Hx | apply Hl; left; reflexivity].
  - intros p Hp. apply Hl. right; exact Hp.
Qed.

Lemma fold_left_Qmax_lub (l : list Q) (x c : Q) :
  x <= c -> (forall p, In p l -> p <= c) -> fold_left Qmax l x <= c.
Proof.
  revert x. induction l as [|y l IH]; intros x Hx Hl; simpl; [exact Hx|].
  apply IH.
  - apply Q.max_lub; [exact Hx | apply Hl; left; reflexivity].
  - intros p Hp. apply Hl. right; exact Hp.
Qed.

(** A price below all the others is [min(prices)], one above all the
    others is [max(prices)]. *)
Lemma list_min_glb (l : list Q) (c : Q) :
  l <> [] -> (forall p, In p l -> c <= p) -> c <= list_min l.
Proof.
  destruct l as [|x l]; [congruence|]. intros _ H. simpl.
  apply fold_left_Qmin_glb; [apply H; left; reflexivity|].
  intros p Hp. apply H. right; exact Hp.
Qed.

Lemma list_max_lub (l : list Q) (c : Q) :
  l <> [] -> (forall p, In p l -> p <= c) -> list_max l <= c.
Proof.
  destruct l as [|x l]; [congruence|]. intros _ H. simpl.
  apply fold_left_Qmax_lub; [apply H; left; reflexivity|].
  intros p Hp. apply H. right; exact Hp.
Qed.

(** Every price has a representative in [set(prices)]. *)
Lemma py_set_covers (l : list Q) (x : Q) :
  In x l -> existsb (Qeq_bool x) (py_set l) = true.
Proof.
  induction l as [|y l IH]; intro Hx; [contradiction|]. simpl.
  destruct Hx as [->|Hx].
  - destruct (existsb (Qeq_bool x) (py_set l)) eqn:E; [exact E|].
    simpl. assert (Hxx : Qeq_bool x x = true) by (apply Qeq_bool_iff; reflexivity).
    rewrite Hxx. reflexivity.
  - specialize (IH Hx).
    destruct (existsb (Qeq_bool y) (py_set l)); [exact IH|].
    simpl. rewrite IH. apply orb_true_r.
Qed.

Lemma py_set_singleton (l : list Q) :
  length (py_set l) = 1%nat -> forall p q, In p l -> In q l -> p == q.
Proof.
  intros Hlen p q Hp Hq.
  destruct (py_set l) as [|w [|w' ws]] eqn:Hset; try discriminate.
  pose proof (py_set_covers l p Hp) as Hpw. pose proof (py_set_covers l q Hq) as Hqw.
  rewrite Hset in Hpw, Hqw. simpl in Hpw, Hqw. rewrite orb_false_r in Hpw, Hqw.
  apply Qeq_bool_iff in Hpw, Hqw. rewrite Hpw, Hqw. reflexivity.
Qed.

(** What the normalizer computes for a price when the prices differ. *)
Lemma normalize_price_score_formula (prices : list Q) (i : nat) (p s : Q) :
  (exists a b, In a prices /\ In b prices /\ ~ a == b) ->
  nth_error prices i = Some p ->
  nth_error (normalize_price_score prices) i = Some s ->
  0 < list_max prices - list_min prices
  /\ s == 1 - (p - list_min prices) / (list_max prices - list_min prices).
Proof.
  intros [a [b [Ha [Hb Hab]]]] Hp Hs.
  assert (Hrange : 0 < list_max prices - list_min prices).
  { pose proof (list_min_le prices a Ha). pose proof (list_max_ge prices a Ha).
    pose proof (list_min_le prices b Hb). pose proof (list_max_ge prices b Hb).
    apply Qnot_le_lt. intro Hc. apply Hab. lra. }
  split; [exact Hrange|].
  unfold normalize_price_score in Hs.
  destruct prices as [|x l]; [destruct i; discriminate|].
  destruct (length (py_set (x :: l)) =? 1)%nat eqn:Hone.
  - apply Nat.eqb_eq in Hone. exfalso. apply Hab.
    exact (py_set_singleton (x :: l) Hone a b Ha Hb).
  - remember (list_min (x :: l)) as mn. remember (list_max (x :: l)) as mx.
    rewrite nth_error_map, Hp in Hs. cbn [option_map] in Hs. injection Hs as <-.
    destruct (Qeq_bool (mx - mn) 0) eqn:Hz.
    + apply Qeq_bool_iff in Hz. lra.
    + lra.
Qed.

Lemma normalize_price_score_unit (prices : list Q) (s : Q) :
  In s (normalize_price_score prices) -> 0 <= s <= 1.
Proof.
  intro Hs. unfold normalize_price_score in Hs.
  assert (Hhalf : forall n, In s (repeat 0.5 n) -> 0 <= s <= 1).
  { intros n Hn. apply repeat_spec in Hn. subst s. lra. }
  destruct prices as [|x l]; [exact (Hhalf _ Hs)|].
  destruct (length (py_set (x :: l)) =? 1)%nat; [exact (Hhalf _ Hs)|].
  apply in_map_iff in Hs. destruct Hs as [p [Heq Hp]].
  pose proof (list_min_le (x :: l) p Hp) as Hlo.
  pose proof (list_max_ge (x :: l) p Hp) as Hhi.
  remember (list_min (x :: l)) as mn. remember (list_max (x :: l)) as mx.
  destruct (Qeq_bool (mx - mn) 0) eqn:Hz; [subst s; lra|].
  assert (Hpos : 0 < mx - mn).
  { apply Qnot_le_lt. intro Hc.
    assert (mx - mn == 0) by lra.
    assert (Qeq_bool (mx - mn) 0 = true) by (apply Qeq_bool_iff; assumption).
    congruence. }
  assert (H0 : 0 <= (p - mn) / (mx - mn)) by (apply Qle_shift_div_l; lra).
  assert (H1 : (p - mn) / (mx - mn) <= 1) by (apply Qle_shift_div_r; lra).
  subst s. lra.
Qed.

(** X1.  Every normalized price score lies in [0,1]; and when the prices
    are not all equal, a listing with the lowest price scores 1 and a
    listing with the highest price scores 0. *)
Theorem normalize_price_score_endpoints :
  forall (prices : list Q),
    Forall (fun s => 0 <= s <= 1) (normalize_price_score prices)
    /\ ((exists a b, In a prices /\ In b prices /\ ~ a == b) ->
        forall i p s,
          nth_error prices i = Some p ->
          nth_error (normalize_price_score prices) i = Some s ->
          ((forall p', In p' prices -> p <= p') -> s == 1)
          /\ ((forall p', In p' prices -> p' <= p) -> s == 0)).
Proof.
  intro prices. split.
  - apply Forall_forall. intros s Hs. exact (normalize_price_score_unit prices s Hs).
  - intros Hdiff i p s Hp Hs.
    destruct (normalize_price_score_formula prices i p s Hdiff Hp Hs) as [Hrange Heq].
    assert (Hne : prices <> []) by (intro E; subst; destruct i; discriminate).
    assert (Hin : In p prices) by (eapply nth_error_In; exact Hp).
    pose proof (list_min_le prices p Hin) as Hlo.
    pose proof (list_max_ge prices p Hin) as Hhi.
    split; intro Hext.
    + assert (Hmin : p == list_min prices).
      { apply Qle_antisym; [apply list_min_glb; assumption | exact Hlo]. }
      rewrite Heq, Hmin. field. lra.
    + assert (Hmax : p == list_max prices).
      { apply Qle_antisym; [exact Hhi | apply list_max_lub; assumption]. }
      rewrite Heq, Hmax. field. lra.
Qed.

End PriceNormalizerRange.

(* ================================================================== *)
(** * More on the rank combiner                                        *)
(* ================================================================== *)

Section CompositeScore.
Import MCDMRanker.

Variable token_sort_ratio : string -> string -> Z.

Hypothesis token_sort_ratio_range :
  forall s1 s2, (0 <= token_sort_ratio s1 s2 <= 100)%Z.

(** Every trust score is between the default 0.5 and 0.95. *)
Lemma source_trust_range (p : ProductDict) : 0.5 <= source_trust p <= 0.95.
Proof.
  unfold source_trust. generalize (get_or (dict_source p) "Unknown"). intro s.
  unfold source_reliability. cbn [dict_get].
  repeat match goal with
         | |- context [String.eqb ?a s] => destruct (String.eqb a s)
         end; lra.
Qed.

Lemma criteria_matrix_relevance_range (products : list ProductDict) (q : string)
      (i : nat) (c : Criteria) :
  nth_error (criteria_matrix token_sort_ratio products q) i = Some c ->
  0 <= c_relevance c <= 1.
Proof.
  intro Hc.
  destruct (nth_error_Some_length (criteria_matrix token_sort_ratio products q)
              products i c) as [p Hp];
    [symmetry; apply criteria_matrix_length | exact Hc |].
  rewrite (criteria_matrix_nth token_sort_ratio products q i p Hp) in Hc.
  injection Hc as <-.
  pose proof (calculate_relevance_score_range _ token_sort_ratio_range
                (dict_productName p) q) as Hbase.
  destruct (has_exact_matches products q).
  - rewrite apply_penalties_relevance.
    change (c_relevance (criteria_of token_sort_ratio q p))
      with (calculate_relevance_score token_sort_ratio (dict_productName p) q).
    destruct (c_has_exact_match _), (c_is_accessory _ && _); lra.
  - change (c_relevance (criteria_of token_sort_ratio q p))
      with (calculate_relevance_score token_sort_ratio (dict_productName p) q). lra.
Qed.

(** Every element of the result is one of the products with its two
    scores. *)
Lemma calculate_mcdm_scores_In (products : list ProductDict) (q : string) (r : ProductDict) :
  In r (calculate_mcdm_scores token_sort_ratio products q) ->
  exists i p c np,
    nth_error products i = Some p
    /\ nth_error (criteria_matrix token_sort_ratio products q) i = Some c
    /\ nth_error (normalize_price_score (map dict_price products)) i = Some np
    /\ r = with_scores p (c_relevance c * 0.75 + np * 0.20 + source_trust p * 0.05)
                       (c_relevance c).
Proof.
  intro Hr.
  apply (Permutation_in _ (calculate_mcdm_scores_perm token_sort_ratio products q)) in Hr.
  apply In_nth_error in Hr. destruct Hr as [i Hi].
  destruct (nth_error_Some_length (scored_products token_sort_ratio products q)
              products i r) as [p Hp];
    [symmetry; apply scored_products_length | exact Hi |].
  destruct (scored_products_nth token_sort_ratio products q i p Hp)
    as [c [np [Hc [Hnp Hrow]]]].
  exists i, p, c, np. refine (conj Hp (conj Hc (conj Hnp _))).
  rewrite Hrow in Hi. injection Hi as <-. reflexivity.
Qed.

Lemma composite_score_bounds_aux (products : list ProductDict) (q : string) (r : ProductDict) :
  In r (calculate_mcdm_scores token_sort_ratio products q) ->
  exists i p score relevance,
    nth_error products i = Some p
    /\ r = with_scores p score relevance
    /\ 0 <= relevance <= 1
    /\ 0.025 <= score <= 1.
Proof.
  intro Hr.
  destruct (calculate_mcdm_scores_In products q r Hr) as [i [p [c [np [Hp [Hc [Hnp ->]]]]]]].
  exists i, p. eexists. eexists. split; [exact Hp|]. split; [reflexivity|].
  pose proof (criteria_matrix_relevance_range products q i c Hc) as Hrel.
  pose proof (normalize_price_score_unit _ np (nth_error_In _ _ Hnp)) as Hprice.
  pose proof (source_trust_range p) as Htrust.
  split; [exact Hrel | lra].
Qed.

(** X2.  Every product that [calculate_mcdm_scores] returns carries both
    scores: a relevance in [0,1] and a composite score between 0.025 and
    1. *)
Theorem composite_score_bounds :
  forall (products : list ProductDict) (search_query : string) (r : ProductDict),
    In r (calculate_mcdm_scores token_sort_ratio products search_query) ->
    exists score relevance,
      dict_mcdm_score r = Some score
      /\ dict_relevance_score r = Some relevance
      /\ 0 <= relevance <= 1
      /\ 0.025 <= score <= 1.
Proof.
  intros products q r Hr.
  destruct (calculate_mcdm_scores_In products q r Hr) as [i [p [c [np [Hp [Hc [Hnp ->]]]]]]].
  eexists. eexists. split; [reflexivity|]. split; [reflexivity|].
  pose proof (criteria_matrix_relevance_range products q i c Hc) as Hrel.
  pose proof (normalize_price_score_unit _ np (nth_error_In _ _ Hnp)) as Hprice.
  pose proof (source_trust_range p) as Htrust.
  split; [exact Hrel | lra].
Qed.

End CompositeScore.

Section SortStability.
Import MCDMRanker.
Context {A : Type} (key : A -> Q).

Lemma insert_desc_with_key (k : Q) (x : A) (l : list A) :
  with_key key k (insert_desc key x l) = with_key key k (x :: l).
Proof.
  unfold with_key. induction l as [|y l IH]; [reflexivity|].
  cbn [insert_desc]. destruct (Qle_bool (key y) (key x)) eqn:Hle; [reflexivity|].
  cbn [filter] in *. rewrite IH.
  destruct (Qeq_bool (key x) k) eqn:Hx; [|reflexivity].
  destruct (Qeq_bool (key y) k) eqn:Hy; [|reflexivity].
  exfalso. apply Qeq_bool_iff in Hx, Hy.
  assert (Qle_bool (key y) (key x) = true) by (apply Qle_bool_iff; lra).
  congruence.
Qed.

Lemma sort_reverse_with_key (k : Q) (l : list A) :
  with_key key k (sort_reverse key l) = with_key key k l.
Proof.
  induction l as [|x l IH]; [reflexivity|].
  cbn [sort_reverse fold_right]. fold (sort_reverse key l).
  rewrite insert_desc_with_key. unfold with_key in *. cbn [filter]. rewrite IH.
  reflexivity.
Qed.

End SortStability.

Section RankStability.
Import MCDMRanker.

Variable token_sort_ratio : string -> string -> Z.

(** X3.  Ties are not reordered: for every score [k], the products of the
    result whose composite score is [k] are, in the same order, those of
    the list before the sort, which follows the order of the input. *)
Theorem calculate_mcdm_scores_stable :
  forall (products : list ProductDict) (search_query : string) (k : Q),
    with_key mcdm_key k (calculate_mcdm_scores token_sort_ratio products search_query)
    = with_key mcdm_key k (scored_products token_sort_ratio products search_query)
    /\ length (scored_products token_sort_ratio products search_query) = length products
    /\ (forall i p,
           nth_error products i = Some p ->
           exists r,
             nth_error (scored_products token_sort_ratio products search_query) i = Some r
             /\ dict_productName r = dict_productName p
             /\ dict_price r = dict_price p
             /\ dict_source r = dict_source p).
Proof.
  intros products q k. refine (conj _ (conj (scored_products_length _ _ _) _)).
  - unfold calculate_mcdm_scores. destruct products as [|p l]; [reflexivity|].
    apply sort_reverse_with_key.
  - intros i p Hp.
    destruct (scored_products_nth token_sort_ratio products q i p Hp)
      as [c [np [_ [_ Hrow]]]].
    eexists. split; [exact Hrow|]. repeat split.
Qed.

End RankStability.

(* ================================================================== *)
(** * What the regular expressions match                               *)
(* ================================================================== *)

Section ReFacts.
Import PyStr Re.

(** A successful greedy quantifier took some [k'] characters, between its
    lower bound and [k], and the continuation matched the rest. *)
Lemma greedy_some (k lo : nat) cont (prev : option ascii) (s m : list ascii) :
  greedy k lo cont prev s = Some m ->
  exists k' m',
    (lo <= k' <= k)%nat
    /\ cont (last_char prev (firstn k' s)) (skipn k' s) = Some m'
    /\ m = (firstn k' s ++ m')%list.
Proof.
  induction k as [|k IH]; cbn [greedy]; intro H.
  - destruct (lo <=? 0)%nat eqn:Hlo.
    + destruct (cont (last_char prev (firstn 0 s)) (skipn 0 s)) as [m'|] eqn:Hc;
        [|discriminate].
      injection H as <-. apply Nat.leb_le in Hlo. exists 0%nat, m'. repeat split; auto.
    + discriminate.
  - destruct (lo <=? S k)%nat eqn:Hlo.
    + destruct (cont (last_char prev (firstn (S k) s)) (skipn (S k) s)) as [m'|] eqn:Hc.
      * injection H as <-. apply Nat.leb_le in Hlo. exists (S k), m'. repeat split; auto.
      * destruct (IH H) as [k' [m' [Hk [Hc' Hm]]]]. exists k', m'. repeat split; auto; lia.
    + destruct (IH H) as [k' [m' [Hk [Hc' Hm]]]]. exists k', m'. repeat split; auto; lia.
Qed.

Lemma strip_prefix_some (l s rest : list ascii) :
  strip_prefix l s = Some rest -> s = (l ++ rest)%list.
Proof.
  revert s. induction l as [|a l IH]; intros s H; simpl in H.
  - injection H as ->. reflexivity.
  - destruct s as [|b s]; [discriminate|].
    destruct (Ascii.eqb a b) eqn:E; [|discriminate].
    apply Ascii.eqb_eq in E. subst b. simpl. f_equal. apply IH, H.
Qed.

(** A match is a prefix of the text it is tried on. *)
Lemma match_here_prefix (pat : pattern) (prev : option ascii) (s m : list ascii) :
  match_here pat prev s = Some m -> exists rest, s = (m ++ rest)%list.
Proof.
  revert prev s m. induction pat as [|a pat IH]; intros prev s m H; cbn [match_here] in H.
  - injection H as <-. exists s. reflexivity.
  - assert (Hq : forall k lo,
               greedy k lo (match_here pat) prev s = Some m ->
               exists rest, s = (m ++ rest)%list).
    { intros k lo Hg. destruct (greedy_some _ _ _ _ _ _ Hg) as [k' [m' [_ [Hc ->]]]].
      destruct (IH _ _ _ Hc) as [rest Hrest]. exists rest.
      rewrite <- app_assoc, <- Hrest. symmetry. apply firstn_skipn. }
    destruct a.
    + destruct (at_boundary prev s); [eapply IH; exact H | discriminate].
    + eapply Hq; exact H.
    + eapply Hq; exact H.
    + eapply Hq; exact H.
    + destruct (strip_prefix (list_ascii_of_string s0) s) as [rest|] eqn:Hs; [|discriminate].
      destruct (match_here pat _ rest) as [m'|] eqn:Hm; [|discriminate].
      injection H as <-. apply strip_prefix_some in Hs.
      destruct (IH _ _ _ Hm) as [rest' Hrest]. exists rest'.
      rewrite <- app_assoc, <- Hrest. exact Hs.
Qed.

(** Every element of [findall] is a non-empty match at some position of
    the subject. *)
Lemma findall_aux_In (pat : pattern) (prev : option ascii) (s : list ascii) (skip : nat)
      (t : string) :
  In t (findall_aux pat prev s skip) ->
  exists prev' pre s' m,
    s = (pre ++ s')%list
    /\ match_here pat prev' s' = Some m
    /\ m <> []
    /\ t = string_of_list_ascii m.
Proof.
  revert prev skip. induction s as [|c s IH]; intros prev skip H; cbn [findall_aux] in H.
  - contradiction.
  - assert (Hrec : forall prev0 skip0,
               In t (findall_aux pat prev0 s skip0) ->
               exists prev' pre s' m,
                 c :: s = (pre ++ s')%list
                 /\ match_here pat prev' s' = Some m /\ m <> []
                 /\ t = string_of_list_ascii m).
    { intros prev0 skip0 H0.
      destruct (IH _ _ H0) as [prev' [pre [s' [m [Hs [Hm [Hne Ht]]]]]]].
      exists prev', (c :: pre), s', m. rewrite Hs. repeat split; auto. }
    destruct skip as [|k]; [|eapply Hrec; exact H].
    destruct (match_here pat prev (c :: s)) as [[|x m]|] eqn:Hm;
      try (eapply Hrec; exact H).
    destruct H as [<-|H]; [|eapply Hrec; exact H].
    exists prev, [], (c :: s), (x :: m). repeat split; auto. discriminate.
Qed.

Lemma existsb_app_r {A : Type} (f : A -> bool) (l1 l2 : list A) :
  existsb f l2 = true -> existsb f (l1 ++ l2) = true.
Proof. intro H. rewrite existsb_app, H. apply orb_true_r. Qed.

Lemma existsb_skipn {A : Type} (f : A -> bool) (k : nat) (l : list A) :
  existsb f (skipn k l) = true -> existsb f l = true.
Proof.
  intro H. rewrite <- (firstn_skipn k l). apply existsb_app_r, H.
Qed.

(** A pattern with [\d+] in it only matches where a digit follows. *)
Lemma match_here_needs_digit (pat : pattern) (prev : option ascii) (s m : list ascii) :
  In Digits pat -> match_here pat prev s = Some m -> existsb is_digit s = true.
Proof.
  revert prev s m. induction pat as [|a pat IH]; intros prev s m Hin H; [contradiction|].
  cbn [match_here] in H.
  assert (Hq : forall k lo,
             In Digits pat ->
             greedy k lo (match_here pat) prev s = Some m ->
             existsb is_digit s = true).
  { intros k lo Hin' Hg. destruct (greedy_some _ _ _ _ _ _ Hg) as [k' [m' [_ [Hc _]]]].
    eapply existsb_skipn, IH; eauto. }
  destruct a.
  - destruct Hin as [Hin|Hin]; [discriminate|].
    destruct (at_boundary prev s); [eapply IH; eauto | discriminate].
  - destruct (greedy_some _ _ _ _ _ _ H) as [k' [m' [Hk _]]].
    destruct s as [|c s]; [simpl in Hk; lia|].
    simpl in Hk. simpl. destruct (is_digit c); [reflexivity | lia].
  - destruct Hin as [Hin|Hin]; [discriminate|]. eapply Hq; eauto.
  - destruct Hin as [Hin|Hin]; [discriminate|]. eapply Hq; eauto.
  - destruct Hin as [Hin|Hin]; [discriminate|].
    destruct (strip_prefix (list_ascii_of_string s0) s) as [rest|] eqn:Hs; [|discriminate].
    destruct (match_here pat _ rest) as [m'|] eqn:Hm; [|discriminate].
    apply strip_prefix_some in Hs. subst s. apply existsb_app_r. eapply IH; eauto.
Qed.

Lemma findall_digitless (pat : pattern) (s : string) :
  In Digits pat -> digitless s -> findall pat s = [].
Proof.
  intros Hin Hs. unfold findall, digitless in *.
  destruct (findall_aux pat None (list_ascii_of_string s) 0) as [|t ts] eqn:E; [reflexivity|].
  exfalso.
  destruct (findall_aux_In pat None (list_ascii_of_string s) 0 t)
    as [prev' [pre [s' [m [Hsplit [Hm _]]]]]]; [rewrite E; left; reflexivity|].
  pose proof (match_here_needs_digit _ _ _ _ Hin Hm) as Hd.
  rewrite Hsplit in Hs. rewrite (existsb_app_r _ pre s' Hd) in Hs. discriminate.
Qed.

Lemma is_digit_lower_char (c : ascii) : is_digit (lower_char c) = is_digit c.
Proof. destruct c as [[] [] [] [] [] [] [] []]; reflexivity. Qed.

Lemma digitless_lower (s : string) : digitless s -> digitless (lower s).
Proof.
  unfold digitless. induction s as [|c s IH]; simpl; [trivial|].
  rewrite is_digit_lower_char. intro H. apply orb_false_iff in H. destruct H as [-> H].
  simpl. apply IH, H.
Qed.

End ReFacts.

Section DigitlessQuery.
Import MCDMRanker.

Variable token_sort_ratio : string -> string -> Z.

Lemma exact_model_match_digitless (product_name query : string) :
  digitless query -> _is_exact_model_match product_name query = false.
Proof.
  intro Hq. unfold _is_exact_model_match.
  destruct (existsb _ model_patterns) eqn:E; [|reflexivity].
  apply existsb_exists in E. destruct E as [pat [Hpat H]].
  assert (Hd : In Re.Digits pat).
  { unfold model_patterns in Hpat. simpl in Hpat.
    repeat (destruct Hpat as [<-|Hpat]; [simpl; tauto|]). contradiction. }
  rewrite (findall_digitless pat _ Hd (digitless_lower _ Hq)) in H. discriminate.
Qed.

(** X4.  A query without a digit has no exact model match: for such a
    query no listing is flagged as an exact match, the second pass is
    never entered, and the relevance reported with every product is the
    value of [calculate_relevance_score], unadjusted. *)
Theorem digitless_query_unadjusted :
  forall (query : string),
    digitless query ->
    (forall name, _is_exact_model_match name query = false)
    /\ forall (products : list ProductDict) (i : nat) (p : ProductDict),
        nth_error products i = Some p ->
        exact_match query p = false
        /\ nth_error (map c_relevance (criteria_matrix token_sort_ratio products query)) i
           = Some (calculate_relevance_score token_sort_ratio (dict_productName p) query)
        /\ exists score,
            In (with_scores p score
                  (calculate_relevance_score token_sort_ratio (dict_productName p) query))
               (calculate_mcdm_scores token_sort_ratio products query).
Proof.
  intros query Hq. split; [intro name; apply exact_model_match_digitless, Hq|].
  intros products i p Hp.
  assert (Hnone : has_exact_matches products query = false).
  { apply has_exact_matches_false. intros p' _. unfold exact_match.
    apply exact_model_match_digitless, digitless_lower, Hq. }
  split; [unfold exact_match; apply exact_model_match_digitless, digitless_lower, Hq|].
  destruct (scored_products_nth token_sort_ratio products query i p Hp)
    as [c [np [Hc [Hnp Hrow]]]].
  pose proof Hc as Hc'.
  rewrite (criteria_matrix_nth token_sort_ratio products query i p Hp), Hnone in Hc'.
  injection Hc' as <-.
  split; [rewrite nth_error_map, Hc; reflexivity|].
  eexists.
  apply (Permutation_in _ (Permutation_sym (calculate_mcdm_scores_perm _ _ _))).
  eapply nth_error_In. exact Hrow.
Qed.

End DigitlessQuery.

(* ================================================================== *)
(** * Key terms and their coverage                                     *)
(* ================================================================== *)

Section KeyTerms.
Import PyStr Re MCDMRanker.

Lemma firstn_run (p : ascii -> bool) (k : nat) (s : list ascii) :
  (k <= run_length p s)%nat -> forallb p (firstn k s) = true.
Proof.
  revert s. induction k as [|k IH]; intros s Hk; [reflexivity|].
  destruct s as [|c s]; [simpl in Hk; lia|].
  simpl in *. destruct (p c); [|lia]. simpl. apply IH. lia.
Qed.

(** The matches of [\w+] are non-empty runs of word characters. *)
Lemma findall_word_chars (s t : string) :
  In t (findall [WordChars] s) ->
  t <> "" /\ forallb is_word (list_ascii_of_string t) = true.
Proof.
  intro H. destruct (findall_aux_In _ _ _ _ _ H) as [prev' [pre [s' [m [_ [Hm [Hne ->]]]]]]].
  cbn [match_here] in Hm.
  destruct (greedy_some _ _ _ _ _ _ Hm) as [k' [m' [Hk [Hc ->]]]].
  injection Hc as <-. rewrite app_nil_r in *.
  split.
  - intro E. apply Hne. apply (f_equal list_ascii_of_string) in E.
    rewrite list_ascii_of_string_of_list_ascii in E. exact E.
  - rewrite list_ascii_of_string_of_list_ascii. apply firstn_run. lia.
Qed.

Lemma is_word_not_space (c : ascii) : is_word c = true -> is_space c = false.
Proof. destruct c as [[] [] [] [] [] [] [] []]; simpl; intro H; try reflexivity; discriminate. Qed.

Lemma split_aux_no_space (cur l : list ascii) :
  forallb is_word l = true -> (cur ++ l)%list <> [] ->
  split_aux cur l = [string_of_list_ascii (rev cur ++ l)].
Proof.
  revert cur. induction l as [|c l IH]; intros cur Hw Hne.
  - rewrite app_nil_r in *. simpl. destruct cur; [congruence | reflexivity].
  - simpl in Hw. apply andb_true_iff in Hw. destruct Hw as [Hc Hl].
    cbn [split_aux]. rewrite (is_word_not_space c Hc).
    rewrite IH; [|exact Hl | discriminate].
    simpl. rewrite <- app_assoc. reflexivity.
Qed.

(** [term.split()] of a key term is the term alone. *)
Lemma key_term_split (query term : string) :
  In term (_extract_key_terms query) -> split term = [term].
Proof.
  intro H. unfold _extract_key_terms in H. apply filter_In in H. destruct H as [H _].
  apply findall_word_chars in H. destruct H as [Hne Hw].
  unfold split. rewrite split_aux_no_space; [| exact Hw |].
  - simpl. rewrite string_of_list_ascii_of_string. reflexivity.
  - simpl. intro E. apply Hne. rewrite <- (string_of_list_ascii_of_string term), E.
    reflexivity.
Qed.

Lemma partial_score_is_exact_coverage_aux (a b : string) :
  exact_score a b
  = if _is_exact_model_match a b
    then Qmin (partial_score a b + 0.5) 1.0
    else partial_score a b.
Proof.
  unfold exact_score, partial_score.
  assert (Hfilter :
            filter (fun term => existsb (fun part => contains part a) (split term))
                   (_extract_key_terms b)
            = filter (fun term => contains term a) (_extract_key_terms b)).
  { apply filter_ext_in. intros term Hterm.
    rewrite (key_term_split b term Hterm). simpl. apply orb_false_r. }
  rewrite Hfilter. reflexivity.
Qed.

(** X5.  The partial key-term coverage is the exact key-term coverage:
    a key term has no whitespace, so its only part is the term itself.
    The two signals differ by the exact-model bonus only, and when the
    name is no exact model match they are equal. *)
Theorem partial_score_is_exact_coverage :
  forall (product_lower query_lower : string),
    exact_score product_lower query_lower
    = (if _is_exact_model_match product_lower query_lower
       then Qmin (partial_score product_lower query_lower + 0.5) 1.0
       else partial_score product_lower query_lower)
    /\ (forall term, In term (_extract_key_terms query_lower) ->
                     PyStr.split term = [term])
    /\ partial_score product_lower query_lower <= exact_score product_lower query_lower.
Proof.
  intros a b.
  refine (conj (partial_score_is_exact_coverage_aux a b)
               (conj (key_term_split b) _)).
  rewrite partial_score_is_exact_coverage_aux.
  destruct (_is_exact_model_match a b); [|apply Qle_refl].
  pose proof (partial_score_range a b) as [_ Hhi].
  apply Q.min_glb; lra.
Qed.

End KeyTerms.

Section Substrings.
Import PyStr Re.

Lemma prefix_app (t s post : string) :
  String.prefix t s = true -> String.prefix t (s ++ post) = true.
Proof.
  revert s. induction t as [|a t IH]; intros s H; [destruct (s ++ post); reflexivity|].
  destruct s as [|b s]; [discriminate|]. simpl in *.
  destruct (ascii_dec a b); [apply IH, H | discriminate].
Qed.

Lemma prefix_intro (t post : string) : String.prefix t (t ++ post) = true.
Proof.
  induction t as [|a t IH]; [destruct post; reflexivity|]. simpl.
  destruct (ascii_dec a a); [exact IH | congruence].
Qed.

Lemma prefix_inv (t s : string) :
  String.prefix t s = true -> exists post, s = t ++ post.
Proof.
  revert s. induction t as [|a t IH]; intros s H.
  - exists s. reflexivity.
  - destruct s as [|b s]; [discriminate|]. simpl in H.
    destruct (ascii_dec a b) as [->|]; [|discriminate].
    destruct (IH s H) as [post ->]. exists post. reflexivity.
Qed.

Lemma contains_app_r (t s post : string) :
  contains t s = true -> contains t (s ++ post) = true.
Proof.
  induction s as [|c s IH]; intro H.
  - simpl in H. rewrite orb_false_r in H.
    destruct t; [|discriminate]. destruct post; reflexivity.
  - cbn [contains] in H. apply orb_true_iff in H.
    change (String c s ++ post) with (String c (s ++ post)). cbn [contains].
    apply orb_true_iff. destruct H as [H|H].
    + left. exact (prefix_app t (String c s) post H).
    + right. apply IH, H.
Qed.

Lemma contains_app_l (t pre s : string) :
  contains t s = true -> contains t (pre ++ s) = true.
Proof.
  intro H. induction pre as [|c pre IH]; [exact H|].
  change (String c pre ++ s) with (String c (pre ++ s)). cbn [contains].
  rewrite IH. apply orb_true_r.
Qed.

Lemma contains_inv (t s : string) :
  contains t s = true -> exists pre post, s = pre ++ t ++ post.
Proof.
  induction s as [|c s IH]; intro H; cbn [contains] in H; apply orb_true_iff in H.
  - destruct H as [H|H]; [|discriminate].
    destruct (prefix_inv _ _ H) as [post ->]. exists "", post. reflexivity.
  - destruct H as [H|H].
    + destruct (prefix_inv _ _ H) as [post ->]. exists "", post. reflexivity.
    + destruct (IH H) as [pre [post ->]]. exists (String c pre), post. reflexivity.
Qed.

Lemma contains_intro (t pre post : string) : contains t (pre ++ t ++ post) = true.
Proof.
  apply contains_app_l.
  destruct (t ++ post) eqn:E; cbn [contains]; rewrite <- E, prefix_intro; reflexivity.
Qed.

(** [in] is transitive. *)
Lemma contains_trans (t q s : string) :
  contains t q = true -> contains q s = true -> contains t s = true.
Proof.
  intros Htq Hqs. destruct (contains_inv _ _ Hqs) as [pre [post ->]].
  apply contains_app_l, contains_app_r, Htq.
Qed.

Lemma string_of_list_ascii_app (l1 l2 : list ascii) :
  string_of_list_ascii (l1 ++ l2) = string_of_list_ascii l1 ++ string_of_list_ascii l2.
Proof. induction l1 as [|c l1 IH]; simpl; [reflexivity | rewrite IH; reflexivity]. Qed.

(** Every element of [findall] occurs in the subject. *)
Lemma findall_contains (pat : pattern) (s t : string) :
  In t (findall pat s) -> contains t s = true.
Proof.
  intro H. destruct (findall_aux_In _ _ _ _ _ H) as [prev' [pre [s' [m [Hs [Hm [_ ->]]]]]]].
  destruct (match_here_prefix _ _ _ _ Hm) as [rest Hrest].
  rewrite <- (string_of_list_ascii_of_string s), Hs, Hrest, !string_of_list_ascii_app.
  apply contains_intro.
Qed.

Lemma filter_all {A : Type} (f : A -> bool) (l : list A) :
  (forall x, In x l -> f x = true) -> filter f l = l.
Proof.
  induction l as [|x l IH]; intro H; [reflexivity|]. simpl.
  rewrite (H x (or_introl eq_refl)), IH; [reflexivity|].
  intros y Hy. apply H. right; exact Hy.
Qed.

End Substrings.

Section FullCoverage.
Import PyStr MCDMRanker.

Variable token_sort_ratio : string -> string -> Z.

Hypothesis token_sort_ratio_range :
  forall s1 s2, (0 <= token_sort_ratio s1 s2 <= 100)%Z.

(** The key terms of a query occur in the lower-cased query. *)
Lemma key_term_in_query (query term : string) :
  In term (_extract_key_terms query) -> contains term (lower query) = true.
Proof.
  intro H. unfold _extract_key_terms in H. apply filter_In in H. destruct H as [H _].
  exact (findall_contains _ _ _ H).
Qed.

Lemma full_coverage (terms : list string) :
  terms <> [] -> Qmin (len terms / len terms) 1.0 == 1.
Proof.
  intro Hne. destruct terms as [|t ts]; [congruence|].
  pose proof (len_pos t ts) as Hpos.
  assert (H1 : len (t :: ts) / len (t :: ts) == 1) by (field; lra).
  rewrite H1. apply Q.min_l. lra.
Qed.

(** X6.  A listing whose lower-cased name contains the lower-cased query
    contains every key term of the query; when the query has a key term,
    its exact and partial coverage are both 1 and its relevance is at
    least 0.525. *)
Theorem query_in_name_full_coverage :
  forall (product_name search_query : string),
    contains (lower search_query) (lower product_name) = true ->
    let a := lower product_name in
    let b := lower search_query in
    (forall term, In term (_extract_key_terms b) -> contains term a = true)
    /\ (_extract_key_terms b <> [] ->
        exact_score a b == 1
        /\ partial_score a b == 1
        /\ 0.525 <= calculate_relevance_score token_sort_ratio product_name search_query).
Proof.
  intros name query Hin a b.
  assert (Hterms : forall term, In term (_extract_key_terms b) -> contains term a = true).
  { intros term Hterm. apply key_term_in_query in Hterm.
    unfold b in Hterm. rewrite lower_idempotent in Hterm.
    exact (contains_trans _ _ _ Hterm Hin). }
  split; [exact Hterms|]. intro Hne.
  assert (Hpartial : partial_score a b == 1).
  { unfold partial_score.
    rewrite (filter_all _ (_extract_key_terms b)).
    - destruct (_extract_key_terms b) as [|t ts] eqn:E; [congruence|].
      apply full_coverage. discriminate.
    - intros term Hterm. rewrite (key_term_split b term Hterm). simpl.
      rewrite (Hterms term Hterm). reflexivity. }
  assert (Hexact : exact_score a b == 1).
  { rewrite partial_score_is_exact_coverage_aux.
    destruct (_is_exact_model_match a b); [|exact Hpartial].
    rewrite Hpartial.
    assert (Hmin : Qmin (1 + 0.5) 1.0 == 1.0) by (apply Q.min_r; lra).
    rewrite Hmin. lra. }
  refine (conj Hexact (conj Hpartial _)).
  rewrite (calculate_relevance_score_sum token_sort_ratio name query). cbv zeta.
  fold a b. rewrite Hexact, Hpartial.
  pose proof (fuzzy_score_range _ token_sort_ratio_range a b).
  pose proof (category_alignment_values a b) as Hcat. cbv zeta in Hcat.
  destruct Hcat as [E | [E | [E | [E | E]]]]; rewrite E; lra.
Qed.

End FullCoverage.

(* ================================================================== *)
(** * More on the deduplicator                                         *)
(* ================================================================== *)

Section DeduplicatorMore.
Import EnhancedPriceComparisonTool.

Variable ratio : string -> string -> Z.

Abbreviation dup := (is_duplicate_of ratio).
Abbreviation dedup := (_remove_duplicates ratio).
Abbreviation keep := (keep_if_new ratio).

Lemma is_duplicate_other_currency (product existing : Product) :
  currency product <> currency existing ->
  (dup product existing = true <-> (95 < name_similarity ratio product existing)%Z).
Proof.
  intro Hcur. unfold is_duplicate_of.
  destruct (String.eqb (currency product) (currency existing)) eqn:E.
  - apply String.eqb_eq in E. contradiction.
  - apply Z.ltb_lt.
Qed.

Lemma dedup_pair (a b : Product) : dedup [a; b] = if dup b a then [a] else [a; b].
Proof.
  unfold _remove_duplicates, keep_if_new. simpl.
  rewrite orb_false_r. destruct (dup b a); reflexivity.
Qed.

(** X7.  Two listings of different currencies are duplicates exactly when
    their name similarity exceeds 95; their prices play no role: changing
    either price changes nothing, and of such a pair the second listing
    is dropped exactly then. *)
Theorem duplicates_across_currencies :
  forall a b : Product,
    currency a <> currency b ->
    (dup b a = true <-> (95 < name_similarity ratio b a)%Z)
    /\ dedup [a; b] = (if (95 <? name_similarity ratio b a)%Z then [a] else [a; b])
    /\ (forall a' b' : Product,
           product_name a' = product_name a -> currency a' = currency a ->
           product_name b' = product_name b -> currency b' = currency b ->
           dup b' a' = dup b a).
Proof.
  intros a b Hcur.
  assert (Hcur' : currency b <> currency a) by congruence.
  pose proof (is_duplicate_other_currency b a Hcur') as Hrule.
  refine (conj Hrule (conj _ _)).
  - rewrite dedup_pair.
    destruct (dup b a) eqn:Hd, (95 <? name_similarity ratio b a)%Z eqn:Hs;
      try reflexivity; exfalso.
    + apply Z.ltb_nlt in Hs. apply Hs, Hrule. reflexivity.
    + apply Z.ltb_lt in Hs. apply Hrule in Hs. congruence.
  - intros a' b' Hna Hca Hnb Hcb. unfold is_duplicate_of, name_similarity.
    rewrite Hna, Hca, Hnb, Hcb.
    destruct (String.eqb (currency b) (currency a)) eqn:E; [|reflexivity].
    apply String.eqb_eq in E. contradiction.
Qed.

Lemma fold_keep_incl (l acc : list Product) (y : Product) :
  In y acc -> In y (fold_left keep l acc).
Proof.
  revert acc. induction l as [|x l IH]; intros acc Hy; [exact Hy|].
  simpl. apply IH. unfold keep_if_new.
  destruct (existsb (dup x) acc); [exact Hy | apply in_or_app; left; exact Hy].
Qed.

Lemma fold_keep_prefix (l acc : list Product) :
  exists rest, fold_left keep l acc = (acc ++ rest)%list.
Proof.
  revert acc. induction l as [|x l IH]; intro acc; simpl.
  - exists []. symmetry; apply app_nil_r.
  - unfold keep_if_new at 2. destruct (existsb (dup x) acc); [apply IH|].
    destruct (IH (acc ++ [x])%list) as [rest ->]. exists (x :: rest).
    rewrite <- app_assoc. reflexivity.
Qed.

Lemma fold_keep_covers (l acc : list Product) (x : Product) :
  In x l ->
  In x (fold_left keep l acc)
  \/ exists y, In y (fold_left keep l acc) /\ dup x y = true.
Proof.
  revert acc. induction l as [|z l IH]; intros acc Hx; [contradiction|].
  simpl. destruct Hx as [->|Hx]; [|apply IH, Hx].
  unfold keep_if_new at 2 4.
  destruct (existsb (dup x) acc) eqn:E.
  - right. apply existsb_exists in E. destruct E as [y [Hy Hd]].
    exists y. split; [apply fold_keep_incl, Hy | exact Hd].
  - left. apply fold_keep_incl, in_or_app. right; left; reflexivity.
Qed.

(** X8.  First seen wins, and nothing is lost without a representative:
    the first listing of the input is the first of the output, every
    listing of the output is a listing of the input, and every listing of
    the input is in the output or is a duplicate of a listing of the
    output. *)
Theorem remove_duplicates_covers :
  forall products : list Product,
    (forall x rest, products = x :: rest -> hd_error (dedup products) = Some x)
    /\ (forall x, In x (dedup products) -> In x products)
    /\ (forall x, In x products ->
                  In x (dedup products)
                  \/ exists y, In y (dedup products) /\ dup x y = true)
    /\ (length (dedup products) <= length products)%nat.
Proof.
  intro products. refine (conj _ (conj _ (conj _ _))).
  - intros x rest ->. unfold _remove_duplicates. simpl.
    destruct (fold_keep_prefix rest (keep [] x)) as [t ->]. reflexivity.
  - intros x Hx. exact (subseq_In _ _ (fold_keep_subseq ratio products []) x Hx).
  - intros x Hx. exact (fold_keep_covers products [] x Hx).
  - pose proof (fold_keep_subseq ratio products []) as Hsub. simpl in Hsub.
    change (fold_left keep products []) with (dedup products) in Hsub.
    clear -Hsub. induction Hsub; simpl; lia.
Qed.

Lemma fresh_of_pairwise (seen l : list Product) :
  (forall l1 y l2 x, l = (l1 ++ y :: l2)%list -> In x (seen ++ l1) -> dup y x = false) ->
  fresh_after dup seen l.
Proof.
  revert seen. induction l as [|y l IH]; intros seen H; simpl; [exact I|]. split.
  - destruct (existsb (dup y) seen) eqn:E; [|reflexivity].
    apply existsb_exists in E. destruct E as [x [Hx Hd]].
    rewrite (H [] y l x eq_refl) in Hd; [discriminate|].
    rewrite app_nil_r. exact Hx.
  - apply IH. intros l1 z l2 x -> Hx.
    apply (H (y :: l1) z l2 x eq_refl).
    rewrite <- app_assoc in Hx. exact Hx.
Qed.

(** X9.  The deduplicator returns its input unchanged exactly when no
    listing of the input is classified as a duplicate of a listing before
    it. *)
Theorem remove_duplicates_fixpoint :
  forall products : list Product,
    dedup products = products
    <-> (forall l1 y l2 x,
            products = (l1 ++ y :: l2)%list -> In x l1 -> dup y x = false).
Proof.
  intro products. split.
  - intros Hfix l1 y l2 x Hsplit Hx.
    pose proof (remove_duplicates_fresh ratio products) as Hfresh.
    rewrite Hfix in Hfresh.
    pose proof (fresh_split ratio [] products Hfresh l1 y l2 Hsplit) as Hnone.
    simpl in Hnone.
    destruct (dup y x) eqn:Hd; [|reflexivity].
    assert (existsb (dup y) l1 = true) by (apply existsb_exists; eauto).
    congruence.
  - intro Hpair. unfold _remove_duplicates.
    rewrite (fold_keep_of_fresh ratio products []); [reflexivity|].
    apply fresh_of_pairwise. intros l1 y l2 x Hsplit Hx. simpl in Hx. eauto.
Qed.

End DeduplicatorMore.

(* ================================================================== *)
(** * More on the search pipeline                                      *)
(* ================================================================== *)

Section PipelineMore.
Import EnhancedPriceComparisonTool.

Variable ratio : string -> string -> Z.
Variable token_sort_ratio : string -> string -> Z.

Hypothesis token_sort_ratio_range :
  forall s1 s2, (0 <= token_sort_ratio s1 s2 <= 100)%Z.

(** X10.  What [search_products] returns.  The result is in descending
    composite score, and each of its entries is a listing that some
    source returned, copied field by field, with a relevance between 0.2
    and 1 and a composite score between 0.025 and 1. *)
Theorem search_products_result :
  forall (retrievals : list (outcome (list Product))) (query : string)
         (result : list ProductDict),
    search_products ratio token_sort_ratio retrievals query = Return result ->
    sorted_desc MCDMRanker.mcdm_key result
    /\ forall r, In r result ->
         exists p score relevance,
           (exists l, In (Return l) retrievals /\ In p l)
           /\ r = MCDMRanker.with_scores (to_dict p) score relevance
           /\ 0.2 <= relevance <= 1
           /\ 0.025 <= score <= 1.
Proof.
  intros retrievals query result H.
  rewrite search_products_returns in H. injection H as <-.
  split.
  - eapply sorted_desc_subseq; [apply filter_low_relevance_subseq|].
    apply calculate_mcdm_scores_sorted.
  - intros r Hr. apply filter_low_relevance_In in Hr. destruct Hr as [Hr Hrel].
    destruct (composite_score_bounds_aux token_sort_ratio token_sort_ratio_range _ _ _ Hr)
      as [i [d [score [rel [Hd [-> [Hrange Hscore]]]]]]].
    apply nth_error_In in Hd. apply in_map_iff in Hd. destruct Hd as [p [<- Hp]].
    exists p, score, rel.
    refine (conj _ (conj eq_refl (conj _ Hscore))).
    + pose proof (subseq_In _ _ (fold_keep_subseq ratio _ []) p Hp) as Hin.
      simpl in Hin. apply in_concat in Hin. destruct Hin as [l [Hl Hpl]].
      apply in_map_iff in Hl. destruct Hl as [[l'|e] [<- Ho]]; [|contradiction].
      exists l'. split; assumption.
    + unfold relevance_of in Hrel. simpl in Hrel. lra.
Qed.

(** X11.  When every source fails or returns no listing, the result is
    the empty list, not an error. *)
Theorem search_products_nothing_found :
  forall (retrievals : list (outcome (list Product))) (query : string),
    (forall r, In r retrievals -> listings_of r = []) ->
    search_products ratio token_sort_ratio retrievals query = Return [].
Proof.
  intros retrievals query Hnone. rewrite search_products_returns.
  assert (Hempty : concat (map listings_of retrievals) = []).
  { induction retrievals as [|r rest IH]; [reflexivity|]. simpl.
    rewrite (Hnone r (or_introl eq_refl)), IH; [reflexivity|].
    intros r' Hr'. apply Hnone. right; exact Hr'. }
  rewrite Hempty. reflexivity.
Qed.

End PipelineMore.

(* ================================================================== *)
(** * Cleaning a price text                                            *)
(* ================================================================== *)

Section CleanPrice.
Import PyStr EnhancedBaseScraper.

Lemma existsb_incl {A : Type} (f : A -> bool) (l1 l2 : list A) :
  incl l1 l2 -> existsb f l1 = true -> existsb f l2 = true.
Proof.
  intros Hincl H. apply existsb_exists in H. destruct H as [x [Hx Hf]].
  apply existsb_exists. exists x. split; [apply Hincl, Hx | exact Hf].
Qed.

Lemma lstrip_dots_incl (l : list ascii) : incl (lstrip_dots l) l.
Proof.
  induction l as [|c l IH]; simpl; [apply incl_refl|].
  destruct (is_dot c); [apply incl_tl, IH | apply incl_refl].
Qed.

Lemma strip_dots_incl (l : list ascii) : incl (strip_dots l) l.
Proof.
  unfold strip_dots. intros x Hx.
  apply in_rev in Hx. apply lstrip_dots_incl in Hx. apply in_rev in Hx.
  apply lstrip_dots_incl in Hx. exact Hx.
Qed.

Lemma digit_value_range (c : ascii) :
  is_digit c = true -> (0 <= Z.of_nat (code c) - 48 <= 9)%Z.
Proof.
  unfold is_digit. intro H. apply andb_true_iff in H. destruct H as [H1 H2].
  apply Nat.leb_le in H1, H2. lia.
Qed.

Lemma digits_value_from (l : list ascii) (acc : Z) :
  forallb is_digit l = true -> (0 <= acc)%Z ->
  (0 <= fold_left (fun a c => (a * 10 + (Z.of_nat (code c) - 48))%Z) l acc)%Z.
Proof.
  revert acc. induction l as [|c l IH]; intros acc Hd Hacc; simpl; [exact Hacc|].
  simpl in Hd. apply andb_true_iff in Hd. destruct Hd as [Hc Hl].
  apply IH; [exact Hl|]. pose proof (digit_value_range c Hc). lia.
Qed.

Lemma digits_value_nonneg (l : list ascii) :
  forallb is_digit l = true -> (0 <= digits_value l)%Z.
Proof. intro H. apply digits_value_from; [exact H | lia]. Qed.

(** The pieces of [s.split(sep)], put together again with [sep], are
    [s]. *)
Lemma split_on_pieces (sep : ascii) (l : list ascii) :
  exists piece pieces,
    split_on sep l = piece :: pieces
    /\ l = (piece ++ concat (map (fun p => sep :: p) pieces))%list.
Proof.
  induction l as [|c l IH]; simpl.
  - exists [], []. split; reflexivity.
  - destruct IH as [piece [pieces [Hs Hl]]].
    destruct (Ascii.eqb c sep) eqn:E.
    + apply Ascii.eqb_eq in E. subst c. exists [], (piece :: pieces).
      split; [rewrite Hs; reflexivity|]. simpl. rewrite <- Hl. reflexivity.
    + rewrite Hs. exists (c :: piece), pieces. split; [reflexivity|].
      simpl. rewrite <- Hl. reflexivity.
Qed.

Lemma existsb_nonempty_all {A : Type} (f : A -> bool) (l : list A) :
  forallb f l = true -> nonempty l = true -> existsb f l = true.
Proof.
  destruct l as [|x l]; [discriminate|]. simpl. intros H _.
  apply andb_true_iff in H. destruct H as [-> _]. reflexivity.
Qed.

Lemma py_float_some (l : list ascii) (v : Q) :
  py_float l = Some v -> 0 <= v /\ existsb is_digit l = true.
Proof.
  unfold py_float. intro H.
  destruct (split_on_pieces "."%char l) as [piece [pieces [Hs Hl]]].
  rewrite Hs in H. destruct pieces as [|frac [|more rest]]; [| |discriminate].
  - destruct (forallb is_digit piece && nonempty piece) eqn:E; [|discriminate].
    injection H as <-. apply andb_true_iff in E. destruct E as [Hd Hn].
    simpl in Hl. rewrite app_nil_r in Hl. subst l. split.
    + change 0 with (inject_Z 0). rewrite <- Zle_Qle. apply digits_value_nonneg, Hd.
    + apply existsb_nonempty_all; assumption.
  - destruct (forallb is_digit piece && forallb is_digit frac
              && (nonempty piece || nonempty frac)) eqn:E; [|discriminate].
    injection H as <-. apply andb_true_iff in E. destruct E as [E Hn].
    apply andb_true_iff in E. destruct E as [Hw Hf]. split.
    + assert (H1 : 0 <= inject_Z (digits_value piece)).
      { change 0 with (inject_Z 0). rewrite <- Zle_Qle. apply digits_value_nonneg, Hw. }
      assert (H2 : 0 <= inject_Z (digits_value frac)).
      { change 0 with (inject_Z 0). rewrite <- Zle_Qle. apply digits_value_nonneg, Hf. }
      assert (H3 : 0 < inject_Z (10 ^ Z.of_nat (length frac))).
      { change 0 with (inject_Z 0). rewrite <- Zlt_Qlt. apply Z.pow_pos_nonneg; lia. }
      assert (H4 : 0 <= inject_Z (digits_value frac) / inject_Z (10 ^ Z.of_nat (length frac))).
      { apply Qle_shift_div_l; [exact H3 | lra]. }
      lra.
    + subst l. simpl. rewrite app_nil_r.
      apply orb_true_iff in Hn. destruct Hn as [Hn|Hn].
      * rewrite existsb_app, (existsb_nonempty_all _ _ Hw Hn). reflexivity.
      * rewrite existsb_app. simpl. rewrite (existsb_nonempty_all _ _ Hf Hn).
        rewrite !orb_true_r. reflexivity.
Qed.

Lemma split_on_first_incl (sep : ascii) (l : list ascii) :
  incl (nth 0 (split_on sep l) []) l.
Proof.
  destruct (split_on_pieces sep l) as [piece [pieces [Hs Hl]]].
  rewrite Hs. simpl. rewrite Hl. apply incl_appl, incl_refl.
Qed.

(** X12.  A cleaned price is never negative (a sign is dropped with the
    other characters), and a text without a digit has no price. *)
Theorem clean_price_nonnegative :
  forall (price_text : string),
    (forall v, _clean_price price_text = Some v -> 0 <= v)
    /\ (existsb is_digit (list_ascii_of_string price_text) = false ->
        _clean_price price_text = None).
Proof.
  intro text.
  assert (Hboth : forall v, _clean_price text = Some v ->
                            0 <= v /\ existsb is_digit (list_ascii_of_string text) = true).
  { intros v H. unfold _clean_price in H.
    set (kept := strip_dots (filter price_class
                   (filter (fun c => negb (currency_class c))
                           (list_ascii_of_string text)))) in H.
    assert (Hkept : incl kept (list_ascii_of_string text)).
    { unfold kept. eapply incl_tran; [apply strip_dots_incl|].
      eapply incl_tran; apply incl_filter. }
    destruct kept as [|c0 kept'] eqn:Ek; [discriminate|]. rewrite <- Ek in *.
    set (clean := if existsb is_comma kept
                  then filter (fun c => negb (is_comma c)) kept else kept) in H.
    assert (Hclean : incl clean (list_ascii_of_string text)).
    { unfold clean. destruct (existsb is_comma kept); [|exact Hkept].
      eapply incl_tran; [apply incl_filter | exact Hkept]. }
    assert (Hfinish : forall l, incl l clean -> py_float l = Some v ->
                                0 <= v /\ existsb is_digit (list_ascii_of_string text) = true).
    { intros l Hl Hf. destruct (py_float_some l v Hf) as [Hv Hd].
      split; [exact Hv|]. eapply existsb_incl; [|exact Hd].
      eapply incl_tran; [exact Hl | exact Hclean]. }
    destruct (existsb is_dot clean).
    - destruct ((length (split_on "."%char clean) =? 2)%nat
                && (length (nth 1 (split_on "."%char clean) []) <=? 2)%nat).
      + eapply Hfinish; [apply incl_refl | exact H].
      + eapply Hfinish; [apply split_on_first_incl | exact H].
    - eapply Hfinish; [apply incl_refl | exact H]. }
  split.
  - intros v H. apply (Hboth v H).
  - intro Hno. destruct (_clean_price text) as [v|] eqn:E; [|reflexivity].
    destruct (Hboth v eq_refl) as [_ Hd]. congruence.
Qed.

End CleanPrice.

Section CleanPriceFormats.
Import PyStr EnhancedBaseScraper.

Abbreviation no_dot := (forallb (fun c => negb (is_dot c))).
Abbreviation no_comma := (fun c : ascii => negb (is_comma c)).
Abbreviation digit_or_comma := (fun c : ascii => is_digit c || is_comma c).

Lemma price_class_not_currency (c : ascii) :
  price_class c = true -> currency_class c = false.
Proof. destruct c as [[] [] [] [] [] [] [] []]; simpl; intro H; try reflexivity; discriminate. Qed.

Lemma is_digit_plain (c : ascii) :
  is_digit c = true -> is_dot c = false /\ is_comma c = false.
Proof. destruct c as [[] [] [] [] [] [] [] []]; simpl; intro H; try (split; reflexivity); discriminate. Qed.

Lemma is_comma_not_dot (c : ascii) : is_comma c = true -> is_dot c = false.
Proof. destruct c as [[] [] [] [] [] [] [] []]; simpl; intro H; try reflexivity; discriminate. Qed.

(** The first substitution removes nothing that the second one keeps. *)
Lemma filter_price_class_currency (l : list ascii) :
  filter price_class (filter (fun c => negb (currency_class c)) l) = filter price_class l.
Proof.
  induction l as [|c l IH]; [reflexivity|]. simpl.
  destruct (price_class c) eqn:Hp.
  - rewrite (price_class_not_currency c Hp). simpl. rewrite Hp, IH. reflexivity.
  - destruct (currency_class c); simpl; [exact IH | rewrite Hp; exact IH].
Qed.

Lemma forallb_rev {A : Type} (f : A -> bool) (l : list A) :
  forallb f l = true -> forallb f (rev l) = true.
Proof.
  rewrite !forallb_forall. intros H x Hx. apply H. apply in_rev. exact Hx.
Qed.

Lemma forallb_weaken {A : Type} (f g : A -> bool) (l : list A) :
  (forall x, f x = true -> g x = true) -> forallb f l = true -> forallb g l = true.
Proof.
  intros Hfg. rewrite !forallb_forall. intros H x Hx. apply Hfg, H, Hx.
Qed.

Lemma lstrip_dots_no_dot (l r : list ascii) :
  l <> [] -> no_dot l = true -> lstrip_dots (l ++ r) = (l ++ r)%list.
Proof.
  destruct l as [|c l]; [congruence|]. intros _ H. simpl in *.
  apply andb_true_iff in H. destruct H as [Hc _].
  apply negb_true_iff in Hc. rewrite Hc. reflexivity.
Qed.

Lemma strip_dots_amount (whole frac : list ascii) :
  whole <> [] -> no_dot whole = true -> no_dot frac = true ->
  strip_dots whole = whole
  /\ strip_dots (whole ++ "."%char :: frac)
     = match frac with
       | [] => whole
       | _ :: _ => (whole ++ "."%char :: frac)%list
       end.
Proof.
  intros Hne Hw Hf.
  assert (Hrev : rev whole <> []).
  { intro E. apply Hne. rewrite <- (rev_involutive whole), E. reflexivity. }
  assert (Hlast : lstrip_dots (rev whole) = rev whole).
  { rewrite <- (app_nil_r (rev whole)) at 1.
    rewrite lstrip_dots_no_dot; [apply app_nil_r | exact Hrev | apply forallb_rev, Hw]. }
  unfold strip_dots. split.
  - rewrite <- (app_nil_r whole) at 1. rewrite (lstrip_dots_no_dot whole [] Hne Hw).
    rewrite app_nil_r, Hlast. apply rev_involutive.
  - rewrite (lstrip_dots_no_dot whole _ Hne Hw).
    rewrite rev_app_distr. cbn [rev]. rewrite <- app_assoc.
    destruct frac as [|d frac'].
    + simpl. rewrite Hlast. apply rev_involutive.
    + rewrite lstrip_dots_no_dot.
      * rewrite app_assoc. change ((rev (d :: frac') ++ ["."%char])%list)
          with (rev ("."%char :: d :: frac')).
        rewrite <- rev_app_distr. apply rev_involutive.
      * intro E. apply (f_equal (@length ascii)) in E.
        rewrite length_rev in E. discriminate.
      * apply forallb_rev, Hf.
Qed.

Lemma remove_commas_or_not (l : list ascii) :
  (if existsb is_comma l then filter no_comma l else l) = filter no_comma l.
Proof.
  destruct (existsb is_comma l) eqn:E; [reflexivity|].
  symmetry. apply filter_all. intros x Hx.
  destruct (is_comma x) eqn:Ex; [|reflexivity].
  assert (existsb is_comma l = true) by (apply existsb_exists; eauto). congruence.
Qed.

Lemma remove_commas_around_dot (l r : list ascii) :
  filter no_comma (l ++ "."%char :: r)
  = (filter no_comma l ++ "."%char :: filter no_comma r)%list.
Proof. rewrite filter_app. reflexivity. Qed.

Lemma digits_of_whole (whole : list ascii) :
  forallb digit_or_comma whole = true ->
  filter no_comma whole = filter is_digit whole
  /\ forallb is_digit (filter is_digit whole) = true.
Proof.
  intro H. split.
  - apply filter_ext_in. intros c Hc.
    rewrite forallb_forall in H. specialize (H c Hc).
    destruct (is_digit c) eqn:Hd.
    + destruct (is_digit_plain c Hd) as [_ ->]. reflexivity.
    + simpl in H. rewrite H. reflexivity.
  - apply forallb_forall. intros c Hc. apply filter_In in Hc. tauto.
Qed.

Lemma filter_nonempty_of_exists (l : list ascii) :
  existsb is_digit l = true -> nonempty (filter is_digit l) = true.
Proof.
  intro H. apply existsb_exists in H. destruct H as [c [Hc Hd]].
  assert (Hin : In c (filter is_digit l)) by (apply filter_In; tauto).
  destruct (filter is_digit l); [contradiction | reflexivity].
Qed.

Lemma split_on_no_dot (l : list ascii) :
  no_dot l = true -> split_on "."%char l = [l].
Proof.
  induction l as [|c l IH]; intro H; [reflexivity|].
  simpl in H. apply andb_true_iff in H. destruct H as [Hc Hl].
  apply negb_true_iff in Hc. unfold is_dot in Hc.
  cbn [split_on]. rewrite Hc, (IH Hl). reflexivity.
Qed.

Lemma split_on_dot (l r : list ascii) :
  no_dot l = true -> no_dot r = true ->
  split_on "."%char (l ++ "."%char :: r) = [l; r].
Proof.
  intros Hl Hr. induction l as [|c l IH].
  - simpl. rewrite (split_on_no_dot r Hr). reflexivity.
  - simpl in Hl. apply andb_true_iff in Hl. destruct Hl as [Hc Hl].
    apply negb_true_iff in Hc. unfold is_dot in Hc.
    cbn [app split_on]. rewrite Hc, (IH Hl). reflexivity.
Qed.

Lemma existsb_dot_no_dot (l : list ascii) : no_dot l = true -> existsb is_dot l = false.
Proof.
  intro H. destruct (existsb is_dot l) eqn:E; [|reflexivity].
  apply existsb_exists in E. destruct E as [c [Hc Hd]].
  rewrite forallb_forall in H. specialize (H c Hc). rewrite Hd in H. discriminate.
Qed.

Lemma py_float_whole (digits : list ascii) :
  forallb is_digit digits = true -> nonempty digits = true ->
  py_float digits = Some (inject_Z (digits_value digits)).
Proof.
  intros Hd Hn. unfold py_float.
  rewrite split_on_no_dot, Hd, Hn; [reflexivity|].
  eapply forallb_weaken; [|exact Hd].
  intros c Hc. destruct (is_digit_plain c Hc) as [-> _]. reflexivity.
Qed.

Lemma strip_dots_leading (lead l : list ascii) :
  forallb is_dot lead = true -> strip_dots (lead ++ l) = strip_dots l.
Proof.
  intro H. unfold strip_dots. f_equal. f_equal. f_equal.
  induction lead as [|c lead IH]; [reflexivity|].
  simpl in H. apply andb_true_iff in H. destruct H as [Hc Hl].
  simpl. rewrite Hc. apply IH, Hl.
Qed.

(** X13.  The formats [_clean_price] reads.  Of a text only the digits,
    commas and points count, and points in front of them (as in [Rs.])
    are dropped.  If what is left is a number [whole] written with digits
    and grouping commas, the price is that number; if it is [whole.frac],
    the price is [whole.frac] when [frac] has one or two digits, and the
    whole part alone when [frac] is empty or has three digits or more. *)
Theorem clean_price_formats :
  forall (price_text : string) (lead whole frac : list ascii),
    forallb is_dot lead = true ->
    forallb digit_or_comma whole = true ->
    existsb is_digit whole = true ->
    forallb is_digit frac = true ->
    let counted := filter price_class (list_ascii_of_string price_text) in
    let amount := inject_Z (digits_value (filter is_digit whole)) in
    (counted = (lead ++ whole)%list -> _clean_price price_text = Some amount)
    /\ (counted = (lead ++ whole ++ "."%char :: frac)%list ->
        _clean_price price_text
        = Some (if (1 <=? length frac)%nat && (length frac <=? 2)%nat
                then amount + inject_Z (digits_value frac)
                              / inject_Z (10 ^ Z.of_nat (length frac))
                else amount)).
Proof.
  intros text lead whole frac Hlead Hwhole Hdigit Hfrac counted amount.
  assert (Hne : whole <> []) by (intro E; subst; discriminate).
  assert (Hw_nodot : no_dot whole = true).
  { eapply forallb_weaken; [|exact Hwhole]. intros c Hc.
    apply orb_true_iff in Hc. destruct Hc as [Hc|Hc].
    - destruct (is_digit_plain c Hc) as [-> _]. reflexivity.
    - rewrite (is_comma_not_dot c Hc). reflexivity. }
  assert (Hf_nodot : no_dot frac = true).
  { eapply forallb_weaken; [|exact Hfrac]. intros c Hc.
    destruct (is_digit_plain c Hc) as [-> _]. reflexivity. }
  destruct (strip_dots_amount whole frac Hne Hw_nodot Hf_nodot) as [Hs1 Hs2].
  destruct (digits_of_whole whole Hwhole) as [Hdigits Hall].
  pose proof (filter_nonempty_of_exists whole Hdigit) as Hnonempty.
  set (digits := filter is_digit whole) in *.
  assert (Hd_nodot : no_dot digits = true).
  { eapply forallb_weaken; [|exact Hall]. intros c Hc.
    destruct (is_digit_plain c Hc) as [-> _]. reflexivity. }
  split; intro Hcounted; unfold _clean_price;
    rewrite filter_price_class_currency; fold counted; rewrite Hcounted;
    rewrite (strip_dots_leading lead _ Hlead).
  - rewrite Hs1. destruct whole as [|c0 whole'] eqn:Ew; [congruence|]. rewrite <- Ew in *.
    cbv zeta. rewrite remove_commas_or_not, Hdigits. fold digits.
    rewrite (existsb_dot_no_dot digits Hd_nodot).
    apply py_float_whole; assumption.
  - rewrite Hs2. destruct frac as [|d frac'] eqn:Ef.
    + destruct whole as [|c0 whole'] eqn:Ew; [congruence|]. rewrite <- Ew in *.
      cbv zeta. rewrite remove_commas_or_not, Hdigits. fold digits.
      rewrite (existsb_dot_no_dot digits Hd_nodot). simpl.
      apply py_float_whole; assumption.
    + rewrite <- Ef in *.
      destruct (whole ++ "."%char :: frac)%list as [|c0 rest] eqn:Ek;
        [destruct whole; discriminate|]. rewrite <- Ek. cbv zeta.
      rewrite remove_commas_or_not, remove_commas_around_dot.
      rewrite Hdigits. fold digits.
      assert (Hfc : filter no_comma frac = frac).
      { apply filter_all. intros c Hc. rewrite forallb_forall in Hfrac.
        destruct (is_digit_plain c (Hfrac c Hc)) as [_ ->]. reflexivity. }
      rewrite Hfc.
      assert (Hdot : existsb is_dot (digits ++ "."%char :: frac) = true).
      { rewrite existsb_app. simpl. apply orb_true_r. }
      rewrite Hdot, (split_on_dot digits frac Hd_nodot Hf_nodot).
      cbn [length nth Nat.eqb andb].
      assert (H1 : (1 <=? length frac)%nat = true) by (rewrite Ef; reflexivity).
      rewrite H1. cbn [andb].
      destruct (length frac <=? 2)%nat.
      * unfold py_float. rewrite (split_on_dot digits frac Hd_nodot Hf_nodot).
        rewrite Hall, Hfrac, Hnonempty. reflexivity.
      * apply py_float_whole; assumption.
Qed.

End CleanPriceFormats.

(* ================================================================== *)
(** * Links and scrapers                                               *)
(* ================================================================== *)

Section AbsoluteUrl.
Import EnhancedBaseScraper.

(** X14.  For a scraper whose base URL begins with [http], every link
    [_build_absolute_url] builds begins with [http]; a link that already
    does is returned as it is, so building twice is building once. *)
Theorem build_absolute_url_absolute :
  forall (base_url relative_url : string),
    String.prefix "http" base_url = true ->
    String.prefix "http" (_build_absolute_url base_url relative_url) = true
    /\ _build_absolute_url base_url (_build_absolute_url base_url relative_url)
       = _build_absolute_url base_url relative_url
    /\ (String.prefix "http" relative_url = true ->
        _build_absolute_url base_url relative_url = relative_url).
Proof.
  intros base u Hbase.
  assert (Habs : String.prefix "http" (_build_absolute_url base u) = true).
  { unfold _build_absolute_url.
    destruct (String.prefix "http" u) eqn:E1; [exact E1|].
    destruct (String.prefix "//" u); [reflexivity|].
    destruct (String.prefix "/" u); apply prefix_app, Hbase. }
  refine (conj Habs (conj _ _)).
  - unfold _build_absolute_url at 1. rewrite Habs. reflexivity.
  - intro H. unfold _build_absolute_url. rewrite H. reflexivity.
Qed.

End AbsoluteUrl.

Section CountryScrapers.
Import Dispatch CompleteApp.







End CountryScrapers.

(* ================================================================== *)
(** * The request handler                                              *)
(* ================================================================== *)

Section RequestHandler.
Import CompleteApp.

Lemma subseq_prefix {A : Type} (l r : list A) : subseq l (l ++ r).
Proof.
  induction l as [|x l IH]; simpl.
  - induction r as [|y r IHr]; constructor; assumption.
  - constructor; exact IH.
Qed.

(** X16.  The result shown to the caller is a prefix of the ranked list,
    so the best-ranked products come first and a descending order stays
    descending.  With no [max_results] it has 50 products at most; with a
    [max_results] that is not negative it has [min(max_results, 100)]
    products at most; a negative [max_results] instead leaves out that
    many products at the end, whatever the cap. *)
Theorem limit_results_spec :
  forall (max_results : option Z) (products : list ProductDict),
    let shown := limit_results max_results products in
    (exists rest, products = (shown ++ rest)%list)
    /\ (sorted_desc MCDMRanker.mcdm_key products -> sorted_desc MCDMRanker.mcdm_key shown)
    /\ (max_results = None -> length shown = Nat.min 50 (length products))
    /\ (forall n, max_results = Some n -> (0 <= n)%Z ->
                  length shown = Nat.min (Z.to_nat (Z.min n 100)) (length products)
                  /\ (length shown <= 100)%nat)
    /\ (forall n, max_results = Some n -> (n < 0)%Z ->
                  length shown = (length products - Z.to_nat (- n))%nat).
Proof.
  intros max_results products shown.
  assert (Hprefix : exists rest, products = (shown ++ rest)%list).
  { subst shown. unfold limit_results, slice_to.
    destruct (0 <=? Z.min (get_or max_results 50%Z) 100)%Z;
      eexists; symmetry; apply firstn_skipn. }
  refine (conj Hprefix (conj _ (conj _ (conj _ _)))).
  - destruct Hprefix as [rest Hrest]. intro Hs.
    apply (sorted_desc_subseq _ shown products); [|exact Hs].
    clearbody shown. rewrite Hrest. apply subseq_prefix.
  - intros ->. subst shown. exact (length_firstn 50 products).
  - intros n -> Hn. subst shown. unfold limit_results, slice_to. cbn [get_or].
    assert (H0 : (0 <=? Z.min n 100)%Z = true) by (apply Z.leb_le; lia).
    rewrite H0, length_firstn. split; [reflexivity | lia].
  - intros n -> Hn. subst shown. unfold limit_results, slice_to. cbn [get_or].
    assert (H0 : (0 <=? Z.min n 100)%Z = false) by (apply Z.leb_gt; lia).
    rewrite H0, length_firstn.
    replace (Z.min n 100) with n by lia. lia.
Qed.

Lemma count_source_sum (b : list (string * nat)) (s : string) :
  list_sum (map snd (count_source b s)) = S (list_sum (map snd b)).
Proof.
  induction b as [|[k n] b IH]; [reflexivity|]. simpl.
  destruct (String.eqb k s); simpl; [reflexivity | rewrite IH; lia].
Qed.

Lemma count_source_keys (b : list (string * nat)) (s k : string) :
  In k (map fst (count_source b s)) <-> k = s \/ In k (map fst b).
Proof.
  induction b as [|[k' n] b IH]; simpl; [intuition congruence|].
  destruct (String.eqb k' s) eqn:E; simpl.
  - apply String.eqb_eq in E. subst k'. intuition congruence.
  - rewrite IH. intuition congruence.
Qed.

Lemma count_source_nodup (b : list (string * nat)) (s : string) :
  NoDup (map fst b) -> NoDup (map fst (count_source b s)).
Proof.
  induction b as [|[k n] b IH]; intro H; simpl.
  - constructor; [tauto | constructor].
  - inversion H as [|? ? Hk Hb]; subst.
    destruct (String.eqb k s) eqn:E; simpl; [constructor; assumption|].
    constructor; [|apply IH, Hb].
    rewrite count_source_keys. intros [->|Hin]; [|contradiction].
    rewrite String.eqb_refl in E. discriminate.
Qed.

Lemma count_source_get (b : list (string * nat)) (s s' : string) :
  dict_get (count_source b s) s' 0%nat
  = if String.eqb s s' then S (dict_get b s 0%nat) else dict_get b s' 0%nat.
Proof.
  induction b as [|[k n] b IH]; simpl.
  - destruct (String.eqb s s'); reflexivity.
  - destruct (String.eqb k s) eqn:E; simpl.
    + apply String.eqb_eq in E. subst k. destruct (String.eqb s s'); reflexivity.
    + rewrite IH. destruct (String.eqb k s') eqn:E'; [|reflexivity].
      apply String.eqb_eq in E'. subst k. rewrite String.eqb_sym, E. reflexivity.
Qed.

Lemma count_source_positive (b : list (string * nat)) (s : string) :
  Forall (fun e => (1 <= snd e)%nat) b ->
  Forall (fun e => (1 <= snd e)%nat) (count_source b s).
Proof.
  induction b as [|[k n] b IH]; intro H; simpl.
  - repeat constructor.
  - inversion H; subst. destruct (String.eqb k s); constructor; simpl in *; auto; lia.
Qed.

Abbreviation breakdown_step :=
  (fun (sources : option (list (string * nat))) (product : ProductDict) =>
     match sources, dict_source product with
     | Some sources, Some source => Some (count_source sources source)
     | _, _ => None
     end).

Lemma breakdown_failed (products : list ProductDict) :
  fold_left breakdown_step products None = None.
Proof. induction products as [|p l IH]; [reflexivity | exact IH]. Qed.

Lemma breakdown_from (products : list ProductDict) (b : list (string * nat)) :
  (forall p, In p products -> dict_source p <> None) ->
  exists b',
    fold_left breakdown_step products (Some b) = Some b'
    /\ list_sum (map snd b') = (list_sum (map snd b) + length products)%nat
    /\ (NoDup (map fst b) -> NoDup (map fst b'))
    /\ (forall s, dict_get b' s 0%nat
                  = (dict_get b s 0%nat + length (filter (from_source s) products))%nat)
    /\ (Forall (fun e => (1 <= snd e)%nat) b -> Forall (fun e => (1 <= snd e)%nat) b').
Proof.
  revert b. induction products as [|p l IH]; intros b Hall.
  - exists b. simpl. repeat split; auto; intros; lia.
  - cbn [fold_left].
    destruct (dict_source p) as [src|] eqn:Hsrc;
      [|exfalso; apply (Hall p (or_introl eq_refl)); exact Hsrc].
    destruct (IH (count_source b src)) as [b' [Hfold [Hsum [Hnd [Hget Hpos]]]]];
      [intros q Hq; apply Hall; right; exact Hq|].
    exists b'. refine (conj Hfold (conj _ (conj _ (conj _ _)))).
    + rewrite Hsum, count_source_sum. simpl. lia.
    + intro H. apply Hnd, count_source_nodup, H.
    + intro s. rewrite Hget, count_source_get. cbn [filter]. unfold from_source at 2.
      rewrite Hsrc. destruct (String.eqb src s) eqn:E; simpl; [|reflexivity].
      apply String.eqb_eq in E. subst s. lia.
    + intro H. apply Hpos, count_source_positive, H.
Qed.

(** X17.  The source breakdown of products that all carry a source: the
    sources are listed once each, every count is at least one and is the
    number of products of that source, and the counts add up to the
    number of products.  A product without a source makes the breakdown
    fail. *)
Theorem source_breakdown_spec :
  forall (products : list ProductDict),
    ((forall p, In p products -> dict_source p <> None) ->
     exists breakdown,
       source_breakdown products = Some breakdown
       /\ list_sum (map snd breakdown) = length products
       /\ NoDup (map fst breakdown)
       /\ (forall s, dict_get breakdown s 0%nat
                     = length (filter (from_source s) products))
       /\ Forall (fun e => (1 <= snd e)%nat) breakdown)
    /\ ((exists p, In p products /\ dict_source p = None) ->
        source_breakdown products = None).
Proof.
  intro products. split.
  - intro Hall.
    destruct (breakdown_from products [] Hall) as [b [Hfold [Hsum [Hnd [Hget Hpos]]]]].
    exists b. refine (conj Hfold (conj Hsum (conj (Hnd (NoDup_nil _)) (conj Hget _)))).
    apply Hpos. constructor.
  - intros [p [Hp Hnone]]. unfold source_breakdown.
    generalize (@Some (list (string * nat)) []). revert Hp.
    induction products as [|q l IH]; intros Hp acc; [contradiction|].
    cbn [fold_left]. destruct Hp as [->|Hp].
    + rewrite Hnone. destruct acc; apply breakdown_failed.
    + apply IH, Hp.
Qed.

End RequestHandler.

(* ================================================================== *)
(** * Filtering twice                                                  *)
(* ================================================================== *)

Section FilterTwice.
Import MCDMRanker.

Lemma Qle_bool_max (a b r : Q) :
  Qle_bool (Qmax a b) r = Qle_bool a r && Qle_bool b r.
Proof.
  apply eq_true_iff_eq. rewrite andb_true_iff, !Qle_bool_iff.
  apply Q.max_lub_iff.
Qed.

(** X18.  Filtering at [a] and then at [b] is filtering once at
    [max(a, b)]; in particular filtering twice at one threshold is
    filtering once, and a higher threshold keeps a part of what a lower
    one keeps. *)
Theorem filter_low_relevance_twice :
  forall (products : list ProductDict) (a b : Q),
    filter_low_relevance (filter_low_relevance products a) b
    = filter_low_relevance products (Qmax a b)
    /\ filter_low_relevance (filter_low_relevance products a) a
       = filter_low_relevance products a
    /\ (a <= b ->
        subseq (filter_low_relevance products b) (filter_low_relevance products a)).
Proof.
  intros products a b.
  assert (Hcompose : forall x y,
             filter_low_relevance (filter_low_relevance products x) y
             = filter_low_relevance products (Qmax x y)).
  { intros x y. unfold filter_low_relevance.
    induction products as [|p l IH]; [reflexivity|]. cbn [filter].
    rewrite Qle_bool_max.
    destruct (Qle_bool x (get_or (dict_relevance_score p) 0)); cbn [filter andb].
    - destruct (Qle_bool y (get_or (dict_relevance_score p) 0)); rewrite IH; reflexivity.
    - exact IH. }
  assert (Hsame : forall x y, x == y ->
             filter_low_relevance products x = filter_low_relevance products y).
  { intros x y Hxy. unfold filter_low_relevance. apply filter_ext. intro p.
    apply eq_true_iff_eq. rewrite !Qle_bool_iff, Hxy. reflexivity. }
  refine (conj (Hcompose a b) (conj _ _)).
  - rewrite Hcompose. apply Hsame. apply Q.max_id.
  - intro Hab. rewrite <- (Hsame (Qmax a b) b) by (apply Q.max_r; exact Hab).
    rewrite <- Hcompose. apply filter_low_relevance_subseq.
Qed.

End FilterTwice.

(* ================================================================== *)
(** * The further properties on sample inputs                          *)
(* ================================================================== *)

Section OnMoreSamples.
Import MCDMRanker EnhancedPriceComparisonTool EnhancedBaseScraper Dispatch CompleteApp.
Import Samples MoreSamples.

Abbreviation tsr := Fuzz.token_sort_ratio.

(** Of the prices of the scenario, the lowest one scores 1. *)
Lemma normalize_price_score_endpoints_witness :
  (exists a b, In a prices /\ In b prices /\ ~ a == b)
  /\ forall s, nth_error (normalize_price_score prices) 1 = Some s -> s == 1.
Proof.
  assert (Hdiff : exists a b, In a prices /\ In b prices /\ ~ a == b).
  { exists 135900, 499. split; [left; reflexivity|]. split; [right; left; reflexivity|].
    vm_compute. discriminate. }
  split; [exact Hdiff|]. intros s Hs.
  apply (proj1 (proj2 (normalize_price_score_endpoints prices) Hdiff 1%nat 499 s eq_refl Hs)).
  intros p' Hp'. simpl in Hp'.
  repeat (destruct Hp' as [<-|Hp']; [vm_compute; discriminate|]). contradiction.
Defined.

(** Every product of the ranked scenario has scores within the bounds. *)
Lemma composite_score_bounds_witness :
  (forall s1 s2, (0 <= tsr s1 s2 <= 100)%Z)
  /\ forall r, In r (calculate_mcdm_scores tsr products query) ->
               exists score relevance,
                 dict_mcdm_score r = Some score
                 /\ dict_relevance_score r = Some relevance
                 /\ 0 <= relevance <= 1 /\ 0.025 <= score <= 1.
Proof.
  split; [exact FuzzFacts.token_sort_ratio_range|].
  exact (composite_score_bounds tsr FuzzFacts.token_sort_ratio_range products query).
Defined.

(** In the ranking of the scenario the products whose composite score is
    that of the phone are the phone alone. *)
Lemma calculate_mcdm_scores_stable_witness :
  with_key mcdm_key (227 # 320) (calculate_mcdm_scores tsr products query)
  = with_key mcdm_key (227 # 320) (MCDMRanker.scored_products tsr products query)
  /\ map dict_productName
       (with_key mcdm_key (227 # 320) (calculate_mcdm_scores tsr products query))
     = [dict_productName phone].
Proof.
  split.
  - exact (proj1 (calculate_mcdm_scores_stable tsr products query (227 # 320))).
  - vm_compute. reflexivity.
Defined.

(** A laptop query has no digit: the sleeve keeps its relevance. *)
Lemma digitless_query_unadjusted_witness :
  digitless laptop_query
  /\ nth_error (map c_relevance (criteria_matrix tsr laptops laptop_query)) 1
     = Some (calculate_relevance_score tsr "MacBook Air sleeve cover" laptop_query).
Proof.
  assert (Hq : digitless laptop_query) by (vm_compute; reflexivity).
  split; [exact Hq|].
  exact (proj1 (proj2 (proj2 (digitless_query_unadjusted tsr laptop_query Hq)
                         laptops 1%nat _ eq_refl))).
Defined.

(** The key terms of the query of the scenario split into themselves. *)
Lemma partial_score_is_exact_coverage_witness :
  In "iphone" (_extract_key_terms (PyStr.lower query))
  /\ PyStr.split "iphone" = ["iphone"]
  /\ partial_score (PyStr.lower (dict_productName phone)) (PyStr.lower query)
     <= exact_score (PyStr.lower (dict_productName phone)) (PyStr.lower query).
Proof.
  assert (Hin : In "iphone" (_extract_key_terms (PyStr.lower query)))
    by (vm_compute; left; reflexivity).
  refine (conj Hin (conj _ _)).
  - exact (proj1 (proj2 (partial_score_is_exact_coverage
                           (PyStr.lower (dict_productName phone)) (PyStr.lower query)))
             "iphone" Hin).
  - exact (proj2 (proj2 (partial_score_is_exact_coverage
                           (PyStr.lower (dict_productName phone)) (PyStr.lower query)))).
Defined.

(** The name of the phone of the scenario contains the query. *)
Lemma query_in_name_full_coverage_witness :
  PyStr.contains (PyStr.lower query) (PyStr.lower (dict_productName phone)) = true
  /\ _extract_key_terms (PyStr.lower query) <> []
  /\ 0.525 <= calculate_relevance_score tsr (dict_productName phone) query.
Proof.
  assert (Hin : PyStr.contains (PyStr.lower query) (PyStr.lower (dict_productName phone))
                = true) by (vm_compute; reflexivity).
  assert (Hne : _extract_key_terms (PyStr.lower query) <> []) by (vm_compute; discriminate).
  refine (conj Hin (conj Hne _)).
  exact (proj2 (proj2 (proj2 (query_in_name_full_coverage tsr
                                FuzzFacts.token_sort_ratio_range
                                (dict_productName phone) query Hin) Hne))).
Defined.

(** The same name in rupees and in dollars: a duplicate, whatever the
    prices. *)
Lemma duplicates_across_currencies_witness :
  currency offer_108 <> currency offer_usd
  /\ _remove_duplicates Fuzz.ratio [offer_108; offer_usd] = [offer_108].
Proof.
  assert (Hcur : currency offer_108 <> currency offer_usd) by (vm_compute; discriminate).
  split; [exact Hcur|].
  rewrite (proj1 (proj2 (duplicates_across_currencies Fuzz.ratio offer_108 offer_usd Hcur))).
  vm_compute. reflexivity.
Defined.

(** The second offer is dropped as a duplicate of the first. *)
Lemma remove_duplicates_covers_witness :
  In offer_102 [offer_100; offer_102; offer_108]
  /\ exists y, In y (_remove_duplicates Fuzz.ratio [offer_100; offer_102; offer_108])
               /\ is_duplicate_of Fuzz.ratio offer_102 y = true.
Proof.
  assert (Hin : In offer_102 [offer_100; offer_102; offer_108])
    by (right; left; reflexivity).
  split; [exact Hin|].
  destruct (proj1 (proj2 (proj2 (remove_duplicates_covers Fuzz.ratio
                                   [offer_100; offer_102; offer_108]))) offer_102 Hin)
    as [Hkept | Hdup]; [|exact Hdup].
  exfalso. vm_compute in Hkept.
  destruct Hkept as [H|[H|H]]; try discriminate; contradiction.
Defined.

(** Two offers that are no duplicates are returned as they are. *)
Lemma remove_duplicates_fixpoint_witness :
  _remove_duplicates Fuzz.ratio [offer_100; offer_108] = [offer_100; offer_108]
  /\ is_duplicate_of Fuzz.ratio offer_108 offer_100 = false.
Proof.
  assert (Hfix : _remove_duplicates Fuzz.ratio [offer_100; offer_108]
                 = [offer_100; offer_108]) by (vm_compute; reflexivity).
  split; [exact Hfix|].
  exact (proj1 (remove_duplicates_fixpoint Fuzz.ratio [offer_100; offer_108]) Hfix
           [offer_100] offer_108 [] offer_100 eq_refl (or_introl eq_refl)).
Defined.

(** The result for the four sources of the samples. *)
Lemma search_products_result_witness :
  (forall s1 s2, (0 <= tsr s1 s2 <= 100)%Z)
  /\ exists result,
      search_products Fuzz.ratio tsr retrievals query = Return result
      /\ sorted_desc mcdm_key result.
Proof.
  split; [exact FuzzFacts.token_sort_ratio_range|].
  eexists. split; [apply search_products_returns|].
  exact (proj1 (search_products_result Fuzz.ratio tsr FuzzFacts.token_sort_ratio_range
                  retrievals query _ (search_products_returns _ _ _ _))).
Defined.

(** Nothing found. *)
Lemma search_products_nothing_found_witness :
  (forall r, In r failed_retrievals -> listings_of r = [])
  /\ search_products Fuzz.ratio tsr failed_retrievals query = Return [].
Proof.
  assert (Hnone : forall r, In r failed_retrievals -> listings_of r = []).
  { intros r Hr. simpl in Hr.
    repeat (destruct Hr as [<-|Hr]; [reflexivity|]). contradiction. }
  split; [exact Hnone|].
  exact (search_products_nothing_found Fuzz.ratio tsr failed_retrievals query Hnone).
Defined.

(** A signed amount is read without its sign. *)
Lemma clean_price_nonnegative_witness :
  _clean_price "-500" = Some 500 /\ 0 <= 500 /\ _clean_price "out of stock" = None.
Proof.
  assert (H : _clean_price "-500" = Some 500) by (vm_compute; reflexivity).
  refine (conj H (conj _ _)).
  - exact (proj1 (clean_price_nonnegative "-500") 500 H).
  - apply (proj2 (clean_price_nonnegative "out of stock")). vm_compute. reflexivity.
Defined.

(** An Indian price with grouping commas and two decimals. *)
Lemma clean_price_formats_witness :
  filter price_class (list_ascii_of_string price_text)
  = (["."%char] ++ list_ascii_of_string "1,34,900"
       ++ "."%char :: list_ascii_of_string "50")%list
  /\ exists v, _clean_price price_text = Some v /\ v == 134900.5.
Proof.
  assert (Hc : filter price_class (list_ascii_of_string price_text)
               = (["."%char] ++ list_ascii_of_string "1,34,900"
                    ++ "."%char :: list_ascii_of_string "50")%list).
  { vm_compute. reflexivity. }
  split; [exact Hc|].
  eexists. split.
  - exact (proj2 (clean_price_formats price_text ["."%char]
                    (list_ascii_of_string "1,34,900") (list_ascii_of_string "50")
                    eq_refl eq_refl eq_refl eq_refl) Hc).
  - vm_compute. reflexivity.
Defined.

(** A relative link of Amazon. *)
Lemma build_absolute_url_absolute_witness :
  String.prefix "http" (scraper_base_url EnhancedAmazonInScraper) = true
  /\ _build_absolute_url (scraper_base_url EnhancedAmazonInScraper) "/dp/B0DGJ"
     = "https://www.amazon.in/dp/B0DGJ"
  /\ String.prefix "http"
       (_build_absolute_url (scraper_base_url EnhancedAmazonInScraper) "/dp/B0DGJ") = true.
Proof.
  refine (conj eq_refl (conj eq_refl _)).
  exact (proj1 (build_absolute_url_absolute (scraper_base_url EnhancedAmazonInScraper)
                  "/dp/B0DGJ" eq_refl)).
Defined.


(** Two results asked for, out of three. *)
Lemma limit_results_spec_witness :
  (0 <= 2)%Z
  /\ length (limit_results (Some 2%Z) ranked) = 2%nat
  /\ length (limit_results (Some (-1)%Z) ranked) = 2%nat.
Proof.
  assert (H0 : (0 <= 2)%Z) by lia.
  refine (conj H0 (conj _ _)).
  - exact (proj1 (proj1 (proj2 (proj2 (proj2 (limit_results_spec (Some 2%Z) ranked))))
                    2%Z eq_refl H0)).
  - refine (proj2 (proj2 (proj2 (proj2 (limit_results_spec (Some (-1)%Z) ranked))))
              (-1)%Z eq_refl _). lia.
Defined.

(** Three products of one source. *)
Lemma source_breakdown_spec_witness :
  (forall p, In p ranked -> dict_source p <> None)
  /\ source_breakdown ranked = Some [("Amazon.in", 3%nat)].
Proof.
  assert (Hall : forall p, In p ranked -> dict_source p <> None).
  { intros p Hp. simpl in Hp.
    repeat (destruct Hp as [<-|Hp]; [discriminate|]). contradiction. }
  split; [exact Hall|].
  destruct (proj1 (source_breakdown_spec ranked) Hall) as [b [Hb _]].
  rewrite Hb. vm_compute in Hb. injection Hb as <-. reflexivity.
Defined.

(** Filtering the scored samples at 0.3 and then at 0.7. *)
Lemma filter_low_relevance_twice_witness :
  0.3 <= 0.7
  /\ subseq (filter_low_relevance Samples.scored_products 0.7)
            (filter_low_relevance Samples.scored_products 0.3)
  /\ map dict_productName
       (filter_low_relevance (filter_low_relevance Samples.scored_products 0.3) 0.7)
     = ["first"].
Proof.
  assert (Hle : 0.3 <= 0.7) by (vm_compute; discriminate).
  refine (conj Hle (conj _ _)).
  - exact (proj2 (proj2 (filter_low_relevance_twice Samples.scored_products 0.3 0.7)) Hle).
  - rewrite (proj1 (filter_low_relevance_twice Samples.scored_products 0.3 0.7)).
    vm_compute. reflexivity.
Defined.

(** C5, as stated, fails below one currency unit: two offers under one
    name and currency at 0.50 and 0.54 differ by 8%, yet their relative
    price difference, over a denominator clamped to 1, is 0.04, and they
    collapse to one listing. *)
Lemma duplicates_same_currency_counterexample :
  product_name offer_050 = product_name offer_054
  /\ currency offer_050 = currency offer_054
  /\ price offer_054 == 1.08 * price offer_050
  /\ Qabs (price offer_054 - price offer_050) == 0.08 * price offer_050
  /\ price_diff offer_054 offer_050 == 0.04
  /\ is_duplicate_of Fuzz.ratio offer_054 offer_050 = true
  /\ _remove_duplicates Fuzz.ratio [offer_050; offer_054] = [offer_050].
Proof.
  refine (conj eq_refl (conj eq_refl (conj _ (conj _ (conj _ (conj _ _))))));
    vm_compute; reflexivity.
Qed.

(** C6, as stated, fails in its second half: the deduplicator keeps both
    of two offers at one price whose names are one letter apart, since
    the second tested against the first has similarity 86; but the first
    tested against the second has similarity 93, so the output holds a
    pair that the equivalence test classifies as duplicates. *)
Lemma remove_duplicates_pair_counterexample :
  _remove_duplicates Fuzz.ratio [offer_pro; offer_opo] = [offer_pro; offer_opo]
  /\ name_similarity Fuzz.ratio offer_opo offer_pro = 86%Z
  /\ is_duplicate_of Fuzz.ratio offer_opo offer_pro = false
  /\ name_similarity Fuzz.ratio offer_pro offer_opo = 93%Z
  /\ is_duplicate_of Fuzz.ratio offer_pro offer_opo = true
  /\ _remove_duplicates Fuzz.ratio [offer_opo; offer_pro] = [offer_opo].
Proof.
  refine (conj _ (conj _ (conj _ (conj _ (conj _ _))))); vm_compute; reflexivity.
Qed.

End OnMoreSamples.
